(** * Verification of scripts/server_library_docs_sync.py

    A shallow embedding of the documentation-snapshot script and the
    properties of its specification.

    Modelling conventions.
    - A Python [str] is a Rocq [string], the UTF-8 bytes of the text.  The
      embedded [str] methods ([split], [strip], [splitlines], [startswith])
      follow CPython on ASCII text: white space is TAB, LF, VT, FF, CR, FS,
      GS, RS, US and SPACE; line boundaries are LF, VT, FF, CR, CRLF, FS, GS
      and RS.
    - Python integers are [Z]; [int(str)] is the unbounded conversion of
      CPython 3.11: it reads the decimal digits and the white space of every
      script, and at the ends of plain ASCII text it drops TAB, LF, VT, FF,
      CR and SPACE only.
    - [parts[i]] raises [IndexError] out of range.
    - The file system below ROOT is a finite map from relative paths to
      nodes (regular file with its text, or directory).
    - Functions that touch the file system, the clock, the network or
      standard output run in a state-and-exception monad over [world]. *)

From Stdlib Require Import ZArith List String Ascii Bool Lia.
From Stdlib Require Import Numbers.DecimalString Sorting.Sorted.
From stdpp Require Import base option list strings gmap.

Open Scope string_scope.
Open Scope list_scope.
Open Scope Z_scope.

(** ** Characters and string literals *)

Definition LF : ascii := "010"%char.
Definition CR : ascii := "013"%char.
Definition DQ : ascii := "034"%char.

Definition nl : string := String LF EmptyString.
Definition dq : string := String DQ EmptyString.

(** [str.isspace] on one ASCII character. *)
Definition is_space (c : ascii) : bool :=
  let n := nat_of_ascii c in
  ((9 <=? n) && (n <=? 13))%nat || ((28 <=? n) && (n <=? 32))%nat.

(** Line boundaries recognised by [str.splitlines]. *)
Definition is_linebreak (c : ascii) : bool :=
  let n := nat_of_ascii c in
  ((10 <=? n) && (n <=? 13))%nat || ((28 <=? n) && (n <=? 30))%nat.

Definition digit_of (c : ascii) : option Z :=
  let n := nat_of_ascii c in
  if ((48 <=? n) && (n <=? 57))%nat then Some (Z.of_nat n - 48) else None.

Definition is_digit (c : ascii) : bool :=
  match digit_of c with Some _ => true | None => false end.

(** ** [str] methods *)

Definition is_empty (s : string) : bool :=
  match s with EmptyString => true | String _ _ => false end.

(** [s.startswith(p)] *)
Fixpoint startswith (p s : string) : bool :=
  match p with
  | EmptyString => true
  | String a p' =>
      match s with
      | EmptyString => false
      | String b s' => bool_decide (a = b) && startswith p' s'
      end
  end.

(** [s.lstrip()], [s.rstrip()], [s.strip()] *)
Fixpoint lstrip (s : string) : string :=
  match s with
  | EmptyString => EmptyString
  | String c r => if is_space c then lstrip r else s
  end.

Fixpoint rstrip (s : string) : string :=
  match s with
  | EmptyString => EmptyString
  | String c r =>
      let r' := rstrip r in
      if is_space c && is_empty r' then EmptyString else String c r'
  end.

Definition strip (s : string) : string := rstrip (lstrip s).

(** [s.split(sep, 1)] for a one-character separator: the text before the
    first separator, and the text after it when there is one. *)
Fixpoint split_once (sep : ascii) (s : string) : string * option string :=
  match s with
  | EmptyString => (EmptyString, None)
  | String c r =>
      if bool_decide (c = sep) then (EmptyString, Some r)
      else let '(h, t) := split_once sep r in (String c h, t)
  end.

(** [s.split(sep)] for a one-character separator; never empty. *)
Fixpoint split_all (sep : ascii) (s : string) : list string :=
  match s with
  | EmptyString => [EmptyString]
  | String c r =>
      if bool_decide (c = sep) then EmptyString :: split_all sep r
      else match split_all sep r with
           | [] => [String c EmptyString]
           | h :: t => String c h :: t
           end
  end.

(** [s.splitlines()] *)
Fixpoint splitlines (s : string) : list string :=
  match s with
  | EmptyString => []
  | String c r =>
      if is_linebreak c then
        EmptyString ::
          (if bool_decide (c = CR) then
             match r with
             | String c' r' => if bool_decide (c' = LF) then splitlines r' else splitlines r
             | EmptyString => splitlines r
             end
           else splitlines r)
      else match splitlines r with
           | [] => [String c EmptyString]
           | h :: t => String c h :: t
           end
  end.

(** [sep.join(parts)] *)
Fixpoint join (sep : string) (parts : list string) : string :=
  match parts with
  | [] => EmptyString
  | [p] => p
  | p :: rest => p +:+ sep +:+ join sep rest
  end.

(** [needle in s] *)
Fixpoint contains (needle s : string) : bool :=
  startswith needle s ||
  match s with
  | EmptyString => false
  | String _ r => contains needle r
  end.

(** [str(n)] for an integer. *)
Definition str_of_int (n : Z) : string := NilEmpty.string_of_int (Z.to_int n).

(** Every character of [s] satisfies [P]. *)
Fixpoint str_all (P : ascii -> bool) (s : string) : bool :=
  match s with
  | EmptyString => true
  | String c r => P c && str_all P r
  end.

(** ** [int(str)]

    A [str] that is not plain ASCII is first rewritten, code point by code
    point: characters below 127 stay, white space becomes a space, a
    decimal digit of any script becomes its ASCII digit, and the first
    other character ends the text with a question mark.  Then white space
    of the C locale is dropped at both ends, one sign is allowed, and the
    digits may be grouped by single underscores.  [None] stands for
    [ValueError].  The tables are those of Unicode 14.0.0, the database of
    CPython 3.11; the interpreter's limit on the number of digits is taken
    as switched off. *)

Definition is_ascii (c : ascii) : bool := (nat_of_ascii c <? 128)%nat.

(** [isspace] of the C locale: TAB, LF, VT, FF, CR and SPACE. *)
Definition is_c_space (c : ascii) : bool :=
  let n := nat_of_ascii c in
  ((9 <=? n) && (n <=? 13))%nat || (n =? 32)%nat.

Definition byte (c : ascii) : Z := Z.of_nat (nat_of_ascii c).

Definition is_continuation (c : ascii) : bool := (128 <=? byte c) && (byte c <? 192).

(** What stands for bytes that are no UTF-8; text read with
    [encoding="utf-8"] has none. *)
Definition NOT_A_CHARACTER : Z := -1.

(** The code points of a text from its UTF-8 bytes. *)
Fixpoint code_points (s : string) : list Z :=
  match s with
  | EmptyString => []
  | String b0 r0 =>
      if byte b0 <? 128 then byte b0 :: code_points r0
      else
        match r0 with
        | String b1 r1 =>
            if (194 <=? byte b0) && (byte b0 <? 224) && is_continuation b1 then
              ((byte b0 - 192) * 64 + (byte b1 - 128)) :: code_points r1
            else
              match r1 with
              | String b2 r2 =>
                  if (224 <=? byte b0) && (byte b0 <? 240) && is_continuation b1
                     && is_continuation b2 then
                    ((byte b0 - 224) * 4096 + (byte b1 - 128) * 64 + (byte b2 - 128))
                      :: code_points r2
                  else
                    match r2 with
                    | String b3 r3 =>
                        if (240 <=? byte b0) && (byte b0 <? 245) && is_continuation b1
                           && is_continuation b2 && is_continuation b3 then
                          ((byte b0 - 240) * 262144 + (byte b1 - 128) * 4096
                           + (byte b2 - 128) * 64 + (byte b3 - 128)) :: code_points r3
                        else NOT_A_CHARACTER :: code_points r0
                    | EmptyString => NOT_A_CHARACTER :: code_points r0
                    end
              | EmptyString => NOT_A_CHARACTER :: code_points r0
              end
        | EmptyString => [NOT_A_CHARACTER]
        end
  end.

(** The white space above ASCII: NEL, NBSP, OGHAM SPACE MARK, EN QUAD to
    HAIR SPACE, the line and paragraph separators, the narrow and the
    medium mathematical space and the ideographic space. *)
Definition UNICODE_SPACES : list Z :=
  [133; 160; 5760; 8192; 8193; 8194; 8195; 8196; 8197; 8198; 8199; 8200; 8201; 8202;
   8232; 8233; 8239; 8287; 12288].

(** The digit zero of every script with decimal digits; its nine
    successors are the digits one to nine. *)
Definition DECIMAL_ZEROS : list Z :=
  [48; 1632; 1776; 1984; 2406; 2534; 2662; 2790;
  2918; 3046; 3174; 3302; 3430; 3558; 3664; 3792;
  3872; 4160; 4240; 6112; 6160; 6470; 6608; 6784;
  6800; 6992; 7088; 7232; 7248; 42528; 43216; 43264;
  43472; 43504; 43600; 44016; 65296; 66720; 68912; 69734;
  69872; 69942; 70096; 70384; 70736; 70864; 71248; 71360;
  71472; 71904; 72016; 72784; 73040; 73120; 92768; 92864;
  93008; 120782; 120792; 120802; 120812; 120822; 123200; 123632;
  125264; 130032].

Fixpoint decimal_among (zeros : list Z) (c : Z) : option Z :=
  match zeros with
  | [] => None
  | z :: rest => if (z <=? c) && (c <? z + 10) then Some (c - z) else decimal_among rest c
  end.

(** The decimal value of a code point, when it is a decimal digit. *)
Definition unicode_decimal (c : Z) : option Z := decimal_among DECIMAL_ZEROS c.

Definition is_unicode_space (c : Z) : bool := existsb (Z.eqb c) UNICODE_SPACES.

(** The rewriting of a text that is not plain ASCII. *)
Fixpoint ascii_digits (cps : list Z) : string :=
  match cps with
  | [] => EmptyString
  | c :: rest =>
      if (0 <=? c) && (c <? 127) then String (ascii_of_nat (Z.to_nat c)) (ascii_digits rest)
      else if is_unicode_space c then String " " (ascii_digits rest)
      else match unicode_decimal c with
           | Some d => String (ascii_of_nat (48 + Z.to_nat d)) (ascii_digits rest)
           | None => "?"
           end
  end.

Definition int_text (s : string) : string :=
  if str_all is_ascii s then s else ascii_digits (code_points s).

Fixpoint int_lstrip (s : string) : string :=
  match s with
  | EmptyString => EmptyString
  | String c r => if is_c_space c then int_lstrip r else s
  end.

Fixpoint int_rstrip (s : string) : string :=
  match s with
  | EmptyString => EmptyString
  | String c r =>
      let r' := int_rstrip r in
      if is_c_space c && is_empty r' then EmptyString else String c r'
  end.

Fixpoint int_digits (acc : Z) (after_digit : bool) (s : string) : option Z :=
  match s with
  | EmptyString => if after_digit then Some acc else None
  | String c r =>
      match digit_of c with
      | Some d => int_digits (10 * acc + d) true r
      | None =>
          if bool_decide (c = "_"%char) && after_digit then int_digits acc false r
          else None
      end
  end.

Definition py_int (s : string) : option Z :=
  match int_rstrip (int_lstrip (int_text s)) with
  | String "-" r => Z.opp <$> int_digits 0 false r
  | String "+" r => int_digits 0 false r
  | t => int_digits 0 false t
  end.

(** ** Ordering of strings and tuples

    [a < b] on [str] compares code points from the left; a proper prefix is
    smaller. *)
Fixpoint str_ltb (a b : string) : bool :=
  match a, b with
  | _, EmptyString => false
  | EmptyString, String _ _ => true
  | String x a', String y b' =>
      (nat_of_ascii x <? nat_of_ascii y)%nat
      || (bool_decide (x = y) && str_ltb a' b')
  end.

(** The sort key of a version: [tuple[int, int, int, str]]. *)
Definition key : Type := Z * Z * Z * string.

(** [k1 < k2] on such tuples: the first differing component decides. *)
Definition key_ltb (k1 k2 : key) : bool :=
  let '(a1, b1, c1, p1) := k1 in
  let '(a2, b2, c2, p2) := k2 in
  if negb (a1 =? a2) then a1 <? a2
  else if negb (b1 =? b2) then b1 <? b2
  else if negb (c1 =? c2) then c1 <? c2
  else str_ltb p1 p2.

(** ** [sorted(xs, key=f)]

    The sort is stable and compares keys with [<] only; on the total
    preorders used here every stable sort returns the same list, so a
    stable insertion sort stands for it.  The elements travel with their
    keys, which are computed once, in order, before sorting. *)
Section Sorted.
Context {A K : Type} (ltb : K -> K -> bool).

(** [x] comes from the left of everything already in [l]: it passes the
    strictly smaller keys and stops in front of the first key that is not
    smaller, so equal keys keep their input order. *)
Fixpoint insert_keyed (x : K * A) (l : list (K * A)) : list (K * A) :=
  match l with
  | [] => [x]
  | y :: l' => if ltb (fst y) (fst x) then y :: insert_keyed x l' else x :: l
  end.

Fixpoint sort_keyed (l : list (K * A)) : list (K * A) :=
  match l with
  | [] => []
  | x :: l' => insert_keyed x (sort_keyed l')
  end.

End Sorted.

(** ** [datetime.date]

    A [date] value of Python always satisfies [valid_date]. *)
Record date : Type := Date { year : Z; month : Z; day : Z }.

Definition is_leap (y : Z) : bool :=
  (y mod 4 =? 0) && (negb (y mod 100 =? 0) || (y mod 400 =? 0)).

Definition days_in_month (y m : Z) : Z :=
  if m =? 2 then (if is_leap y then 29 else 28)
  else if (m =? 4) || (m =? 6) || (m =? 9) || (m =? 11) then 30
  else 31.

Definition valid_dateb (d : date) : bool :=
  (1 <=? year d) && (year d <=? 9999) &&
  (1 <=? month d) && (month d <=? 12) &&
  (1 <=? day d) && (day d <=? days_in_month (year d) (month d)).

Definition valid_date (d : date) : Prop := valid_dateb d = true.

Definition days_before_year (y : Z) : Z :=
  let p := y - 1 in p * 365 + p / 4 - p / 100 + p / 400.

Fixpoint days_before_month_aux (y : Z) (n : nat) : Z :=
  match n with
  | O => 0
  | S n' => days_before_month_aux y n' + days_in_month y (Z.of_nat n)
  end.

Definition days_before_month (y m : Z) : Z :=
  days_before_month_aux y (Z.to_nat (m - 1)).

(** [d.toordinal()] *)
Definition toordinal (d : date) : Z :=
  days_before_year (year d) + days_before_month (year d) (month d) + day d.

(** [(a - b).days] *)
Definition days_between (a b : date) : Z := toordinal a - toordinal b.

Definition digit_char (n : Z) : ascii := ascii_of_nat (48 + Z.to_nat (n mod 10)).

(** ["%02d" % n] and ["%04d" % n] for [0 <= n] below the field's range. *)
Definition fmt02 (n : Z) : string :=
  String (digit_char (n / 10)) (String (digit_char n) EmptyString).

Definition fmt04 (n : Z) : string :=
  String (digit_char (n / 1000)) (String (digit_char (n / 100))
    (String (digit_char (n / 10)) (String (digit_char n) EmptyString))).

(** [d.isoformat()]: YYYY-MM-DD. *)
Definition isoformat (d : date) : string :=
  fmt04 (year d) +:+ "-" +:+ fmt02 (month d) +:+ "-" +:+ fmt02 (day d).

(** A run of decimal digits as a number; [None] when a character is not a
    digit. *)
Fixpoint digits_value (acc : Z) (s : string) : option Z :=
  match s with
  | EmptyString => Some acc
  | String c r =>
      match digit_of c with
      | Some d => digits_value (10 * acc + d) r
      | None => None
      end
  end.

(** [date.fromisoformat(s)] on the format YYYY-MM-DD, the one [isoformat]
    writes; [None] stands for [ValueError] (wrong shape, or no such calendar
    day).  The further ISO 8601 shapes that later versions of Python also
    read are not modelled. *)
Definition fromisoformat (s : string) : option date :=
  match s with
  | String y1 (String y2 (String y3 (String y4 (String "-"
      (String m1 (String m2 (String "-" (String d1 (String d2 EmptyString))))))))) =>
      match digits_value 0 (String y1 (String y2 (String y3 (String y4 EmptyString)))),
            digits_value 0 (String m1 (String m2 EmptyString)),
            digits_value 0 (String d1 (String d2 EmptyString)) with
      | Some y, Some m, Some d =>
          let r := Date y m d in
          if valid_dateb r then Some r else None
      | _, _, _ => None
      end
  | _ => None
  end.

(** ** [json.dumps(obj, indent=2, ensure_ascii=False)] for a flat object *)

Inductive jvalue : Type :=
| JStr (s : string)
| JBool (b : bool).

Definition hex_digit (n : nat) : ascii :=
  if (n <? 10)%nat then ascii_of_nat (48 + n) else ascii_of_nat (87 + n).

(** One character inside a JSON string: the quote, the backslash and the
    control characters are escaped, everything else is kept. *)
Definition json_escape_char (c : ascii) : string :=
  let n := nat_of_ascii c in
  if bool_decide (c = DQ) then String "\" dq
  else if bool_decide (c = "\"%char) then "\\"
  else if (n =? 8)%nat then "\b"
  else if (n =? 12)%nat then "\f"
  else if (n =? 10)%nat then "\n"
  else if (n =? 13)%nat then "\r"
  else if (n =? 9)%nat then "\t"
  else if (n <? 32)%nat then
    "\u00" +:+ String (hex_digit (n / 16)) (String (hex_digit (n mod 16)) EmptyString)
  else String c EmptyString.

Fixpoint json_escape (s : string) : string :=
  match s with
  | EmptyString => EmptyString
  | String c r => json_escape_char c +:+ json_escape r
  end.

Definition json_string (s : string) : string := dq +:+ json_escape s +:+ dq.

Definition json_value (v : jvalue) : string :=
  match v with
  | JStr s => json_string s
  | JBool true => "true"
  | JBool false => "false"
  end.

Definition json_item (kv : string * jvalue) : string :=
  "  " +:+ json_string (fst kv) +:+ ": " +:+ json_value (snd kv).

Definition json_dumps (obj : list (string * jvalue)) : string :=
  match obj with
  | [] => "{}"
  | _ => "{" +:+ nl +:+ join ("," +:+ nl) (map json_item obj) +:+ nl +:+ "}"
  end.

(** ** The world of the script *)

(** A path below ROOT, as its components. *)
Abbreviation path := (list string).

Inductive node : Type :=
| File (text : string)
| Dir.

Inductive exn : Type :=
| RuntimeError (msg : string)
| ValueError (msg : string)
| KeyError (msg : string)
| IndexError (msg : string)
| OSError (msg : string)
| OtherError (msg : string).

(** What [urlopen(...).read()] does for a URL: a body, a
    [urllib.error.URLError] with its text, or an exception of another
    class. *)
Inductive fetch : Type :=
| Fetched (body : string)
| UrlError (msg : string)
| FetchRaises (e : exn).

Record world : Type := World {
  root : string;                (* str(ROOT) *)
  fs : gmap path node;          (* files and directories below ROOT *)
  today : date;                 (* dt.date.today() *)
  net : string -> fetch;        (* the network, by URL *)
  stdout : list string          (* lines printed so far *)
}.

Inductive result (A : Type) : Type :=
| Ok (a : A)
| Raise (e : exn).
Arguments Ok {A} a.
Arguments Raise {A} e.

(** Computations: a result or an exception, and the world they leave. *)
Definition M (A : Type) : Type := world -> result A * world.

Definition ret {A} (a : A) : M A := fun w => (Ok a, w).
Definition raise {A} (e : exn) : M A := fun w => (Raise e, w).
Definition bind {A B} (m : M A) (k : A -> M B) : M B :=
  fun w => match m w with
           | (Ok a, w') => k a w'
           | (Raise e, w') => (Raise e, w')
           end.
Definition lift {A} (r : result A) : M A := fun w => (r, w).

Notation "'let!' x ':=' m 'in' k" := (bind m (fun x => k))
  (at level 10, x pattern, m at level 100, k at level 200).

(** [for x in xs: body(x)] *)
Fixpoint for_each {A} (xs : list A) (body : A -> M unit) : M unit :=
  match xs with
  | [] => ret tt
  | x :: rest => let! _ := body x in for_each rest body
  end.

(** [[f(x) for x in xs]] built by appending in a loop. *)
Fixpoint for_collect {A B} (xs : list A) (body : A -> M B) : M (list B) :=
  match xs with
  | [] => ret []
  | x :: rest => let! y := body x in let! ys := for_collect rest body in ret (y :: ys)
  end.

(** *** File system primitives *)

Definition set_fs (m : gmap path node) (w : world) : world :=
  World (root w) m (today w) (net w) (stdout w).

(** [str(ROOT / p)] and [str((ROOT / p).relative_to(ROOT))] *)
Definition rel_str (p : path) : string := join "/" p.
Definition abs_str (w : world) (p : path) : string := root w +:+ "/" +:+ rel_str p.

(** [p.exists()] *)
Definition path_exists (p : path) : M bool :=
  fun w => (Ok (bool_decide (is_Some (fs w !! p))), w).

(** [p.read_text(encoding="utf-8")] *)
Definition read_text (p : path) : M string :=
  fun w => match fs w !! p with
           | Some (File t) => (Ok t, w)
           | Some Dir => (Raise (OSError "IsADirectoryError"), w)
           | None => (Raise (OSError "FileNotFoundError"), w)
           end.

(** [mkdir(parents=True, exist_ok=True)]: every missing directory on the
    way is created; a regular file on the way is an error. *)
Fixpoint mkdir_from (above todo : path) (m : gmap path node) : option (gmap path node) :=
  match todo with
  | [] => Some m
  | c :: rest =>
      let q := above ++ [c] in
      match m !! q with
      | Some (File _) => None
      | Some Dir => mkdir_from q rest m
      | None => mkdir_from q rest (<[q := Dir]> m)
      end
  end.

Definition mkdir_parents (p : path) : M unit :=
  fun w => match mkdir_from [] p (fs w) with
           | Some m => (Ok tt, set_fs m w)
           | None => (Raise (OSError "FileExistsError"), w)
           end.

(** [p.write_text(text, encoding="utf-8")], the directory being there. *)
Definition path_write_text (p : path) (text : string) : M unit :=
  fun w => match fs w !! p with
           | Some Dir => (Raise (OSError "IsADirectoryError"), w)
           | _ => (Ok tt, set_fs (<[p := File text]> (fs w)) w)
           end.

(** [p.parent] *)
Definition parent (p : path) : path := removelast p.

(** [print(line)] *)
Definition print (line : string) : M unit :=
  fun w => (Ok tt, World (root w) (fs w) (today w) (net w) (stdout w ++ [line])).

(** [dt.date.today()] *)
Definition date_today : M date := fun w => (Ok (today w), w).

(** [urlopen(req, timeout=...).read().decode(...)] *)
Definition urlopen_read (url : string) : M fetch := fun w => (Ok (net w url), w).

(** * The script *)

Definition WARNING_DAYS : Z := 30.
Definition FAIL_DAYS : Z := 60.

Definition SNAPSHOT_DIR : path := ["apps"; "server"; "docs"; "upstream-libraries"].
Definition VERSION_FILE : path := SNAPSHOT_DIR ++ ["VERSION"].
Definition INDEX_FILE : path := SNAPSHOT_DIR ++ ["README.md"].
Definition CARGO_LOCK : path := ["Cargo.lock"].

Record Library : Type := mkLibrary {
  slug : string;
  crate : string;
  rustdoc_path : string
}.

Definition LIBRARIES : list Library := [
  mkLibrary "loco-rs" "loco-rs" "loco_rs";
  mkLibrary "axum" "axum" "axum";
  mkLibrary "sea-orm" "sea-orm" "sea_orm";
  mkLibrary "async-graphql" "async-graphql" "async_graphql";
  mkLibrary "tokio" "tokio" "tokio";
  mkLibrary "serde" "serde" "serde";
  mkLibrary "tracing" "tracing" "tracing";
  mkLibrary "utoipa" "utoipa" "utoipa"
].

Definition write_text (p : path) (text : string) : M unit :=
  let! _ := mkdir_parents (parent p) in
  path_write_text p text.

(** ** semver_key *)

(** [[int(p) for p in parts]]; the first part that is no integer raises. *)
Fixpoint ints_of (parts : list string) : result (list Z) :=
  match parts with
  | [] => Ok []
  | p :: rest =>
      match py_int p with
      | None => Raise (ValueError ("invalid literal for int() with base 10: " +:+ p))
      | Some n =>
          match ints_of rest with
          | Ok ns => Ok (n :: ns)
          | Raise e => Raise e
          end
      end
  end.

(** [while len(parts) < 3: parts.append(0)] *)
Definition pad3 (parts : list Z) : list Z :=
  parts ++ repeat 0 (3 - length parts)%nat.

(** [parts[i]] *)
Definition subscript (parts : list Z) (i : nat) : result Z :=
  match parts !! i with
  | Some x => Ok x
  | None => Raise (IndexError "list index out of range")
  end.

Definition semver_key (version : string) : result key :=
  let '(main, suffix) := split_once "-" version in
  match ints_of (split_all "." main) with
  | Raise e => Raise e
  | Ok parts =>
      let parts := pad3 parts in
      let pre := match suffix with Some s => s | None => EmptyString end in
      match subscript parts 0 with
      | Raise e => Raise e
      | Ok major =>
          match subscript parts 1 with
          | Raise e => Raise e
          | Ok minor =>
              match subscript parts 2 with
              | Raise e => Raise e
              | Ok patch => Ok (major, minor, patch, pre)
              end
          end
      end
  end.

(** ** parse_cargo_lock_versions *)

(** [prefix] matched literally at the start of [s]; the rest of [s]. *)
Fixpoint match_literal (prefix s : string) : option string :=
  match prefix with
  | EmptyString => Some s
  | String a prefix' =>
      match s with
      | EmptyString => None
      | String b s' => if bool_decide (a = b) then match_literal prefix' s' else None
      end
  end.

(** The longest run of characters other than the double quote at the start
    of [s], and the rest of [s]. *)
Fixpoint span_not_quote (s : string) : string * string :=
  match s with
  | EmptyString => (EmptyString, EmptyString)
  | String c r =>
      if bool_decide (c = DQ) then (EmptyString, s)
      else let '(h, t) := span_not_quote r in (String c h, t)
  end.

Definition PACKAGE_HEAD : string := "[[package]]" +:+ nl +:+ "name = " +:+ dq.
Definition PACKAGE_MID : string := dq +:+ nl +:+ "version = " +:+ dq.

(** The pattern matched at the start of [s]: the groups [name] and [version]
    and the text after the match.  Each group takes its longest run; a
    shorter run would be followed by a character that is no double quote, so
    giving characters back never helps the pattern. *)
Definition match_package (s : string) : option (string * string * string) :=
  match match_literal PACKAGE_HEAD s with
  | None => None
  | Some s1 =>
      let '(name, s2) := span_not_quote s1 in
      if is_empty name then None else
      match match_literal PACKAGE_MID s2 with
      | None => None
      | Some s3 =>
          let '(version, s4) := span_not_quote s3 in
          if is_empty version then None else
          match match_literal dq s4 with
          | None => None
          | Some s5 => Some (name, version, s5)
          end
      end
  end.

(** [pattern.finditer(text)]: the matches from left to right, without
    overlap.  The fuel bounds the number of start positions tried. *)
Fixpoint finditer_fuel (fuel : nat) (s : string) : list (string * string) :=
  match fuel with
  | O => []
  | S fuel' =>
      match match_package s with
      | Some (name, version, rest) => (name, version) :: finditer_fuel fuel' rest
      | None =>
          match s with
          | EmptyString => []
          | String _ r => finditer_fuel fuel' r
          end
      end
  end.

Definition finditer (text : string) : list (string * string) :=
  finditer_fuel (S (String.length text)) text.

(** [versions.setdefault(name, []).append(version)] *)
Definition add_version (versions : gmap string (list string)) (nv : string * string)
  : gmap string (list string) :=
  <[fst nv := default [] (versions !! fst nv) ++ [snd nv]]> versions.

Definition collect_versions (text : string) : gmap string (list string) :=
  foldl add_version ∅ (finditer text).

(** [[(semver_key(v), v) for v in candidates]] *)
Fixpoint with_keys (candidates : list string) : result (list (key * string)) :=
  match candidates with
  | [] => Ok []
  | v :: rest =>
      match semver_key v with
      | Raise e => Raise e
      | Ok k =>
          match with_keys rest with
          | Ok ks => Ok ((k, v) :: ks)
          | Raise e => Raise e
          end
      end
  end.

(** [sorted(candidates, key=semver_key)] *)
Definition sorted_by_semver_key (candidates : list string) : result (list string) :=
  match with_keys candidates with
  | Raise e => Raise e
  | Ok ks => Ok (map snd (sort_keyed key_ltb ks))
  end.

(** [xs[-1]] *)
Definition last_item (xs : list string) : result string :=
  match last xs with
  | Some x => Ok x
  | None => Raise (IndexError "list index out of range")
  end.

(** The second loop of parse_cargo_lock_versions. *)
Fixpoint select_versions (libs : list Library) (versions : gmap string (list string))
  (acc : gmap string string) : result (gmap string string) :=
  match libs with
  | [] => Ok acc
  | lib :: rest =>
      let candidates := default [] (versions !! crate lib) in
      match candidates with
      | [] => Raise (RuntimeError ("Crate " +:+ crate lib +:+ " was not found in Cargo.lock"))
      | _ =>
          match sorted_by_semver_key candidates with
          | Raise e => Raise e
          | Ok sorted =>
              match last_item sorted with
              | Raise e => Raise e
              | Ok v => select_versions rest versions (<[crate lib := v]> acc)
              end
          end
      end
  end.

Definition parse_cargo_lock_versions : M (gmap string string) :=
  let! present := path_exists CARGO_LOCK in
  if negb present then
    fun w => raise (RuntimeError ("Cargo.lock not found: " +:+ abs_str w CARGO_LOCK)) w
  else
    let! text := read_text CARGO_LOCK in
    lift (select_versions LIBRARIES (collect_versions text) ∅).

(** ** try_download *)

Definition try_download (url : string) : M (bool * string) :=
  let! r := urlopen_read url in
  match r with
  | Fetched body => ret (true, body)
  | UrlError msg => ret (false, msg)
  | FetchRaises e => raise e
  end.

(** ** sync_library *)

(** The record returned for the index. *)
Record row : Type := mkRow {
  row_slug : string;
  row_crate : string;
  row_version : string;
  row_docs_rs_crate : string;
  row_docs_rs_rustdoc : string
}.

Definition docs_rs_crate_url (lib : Library) (version : string) : string :=
  "https://docs.rs/crate/" +:+ crate lib +:+ "/" +:+ version.

Definition docs_rs_rustdoc_url (lib : Library) (version : string) : string :=
  "https://docs.rs/" +:+ crate lib +:+ "/" +:+ version +:+ "/" +:+ rustdoc_path lib +:+ "/".

Definition lib_dir (lib : Library) : path := SNAPSHOT_DIR ++ [slug lib].

Definition download_status_text (ok_crate : bool) (crate_body : string)
  (ok_rustdoc : bool) (rustdoc_body : string) : string :=
  "Unable to download docs.rs pages in this environment." +:+ nl +:+
  "crate_page=" +:+ (if negb ok_crate then crate_body else "ok") +:+ nl +:+
  "rustdoc_page=" +:+ (if negb ok_rustdoc then rustdoc_body else "ok") +:+ nl.

(** The [if download_html:] block; it yields the metadata with the
    [downloaded] entry added. *)
Definition download_pages (lib : Library) (version : string)
  (metadata : list (string * jvalue)) : M (list (string * jvalue)) :=
  let! (ok_crate, crate_body) := try_download (docs_rs_crate_url lib version) in
  let! (ok_rustdoc, rustdoc_body) := try_download (docs_rs_rustdoc_url lib version) in
  let metadata := metadata ++ [("downloaded", JBool (ok_crate && ok_rustdoc))] in
  let! _ := if ok_crate then write_text (lib_dir lib ++ ["docsrs-crate.html"]) crate_body
            else ret tt in
  let! _ := if ok_rustdoc then write_text (lib_dir lib ++ ["docsrs-rustdoc.html"]) rustdoc_body
            else ret tt in
  let! _ := if negb (ok_crate && ok_rustdoc) then
              write_text (lib_dir lib ++ ["DOWNLOAD_STATUS.txt"])
                (download_status_text ok_crate crate_body ok_rustdoc rustdoc_body)
            else ret tt in
  ret metadata.

Definition sync_library (lib : Library) (version : string) (download_html : bool) : M row :=
  let docs_rs_crate := docs_rs_crate_url lib version in
  let docs_rs_rustdoc := docs_rs_rustdoc_url lib version in
  let! _ := mkdir_parents (lib_dir lib) in
  let metadata := [
    ("crate", JStr (crate lib));
    ("version", JStr version);
    ("docs_rs_crate", JStr docs_rs_crate);
    ("docs_rs_rustdoc", JStr docs_rs_rustdoc)
  ] in
  let! metadata := if download_html then download_pages lib version metadata
                   else ret metadata in
  let! _ := write_text (lib_dir lib ++ ["metadata.json"]) (json_dumps metadata +:+ nl) in
  ret (mkRow (slug lib) (crate lib) version docs_rs_crate docs_rs_rustdoc).

(** ** write_version *)

Definition mode_name (download_html : bool) : string :=
  if download_html then "docsrs-html" else "docsrs-links".

Definition version_text (snapshot_date : date) (download_html : bool) : string :=
  join nl [
    "# Server library upstream docs snapshot metadata";
    "snapshot_date=" +:+ isoformat snapshot_date;
    "source=" +:+ mode_name download_html;
    EmptyString
  ].

Definition write_version (snapshot_date : date) (download_html : bool) : M unit :=
  write_text VERSION_FILE (version_text snapshot_date download_html).

(** ** write_index *)

Definition index_row (r : row) : string :=
  "| `" +:+ row_crate r +:+ "` | `" +:+ row_version r +:+ "` | [crate](" +:+
  row_docs_rs_crate r +:+ ") | [rustdoc](" +:+ row_docs_rs_rustdoc r +:+
  ") | `apps/server/docs/upstream-libraries/" +:+ row_slug r +:+ "/metadata.json` |".

Definition mode_note (download_html : bool) : string :=
  if download_html
  then "Снапшот включает HTML-копии `docsrs-*.html` (если сеть доступна)."
  else "Снапшот содержит актуальные версии и прямые ссылки на docs.rs без скачивания HTML.".

Definition index_text (snapshot_date : date) (records : list row) (download_html : bool)
  : string :=
  let rows := join nl (map index_row records) in
  "# Upstream snapshots for server core libraries" +:+ nl +:+
  nl +:+
  "Этот каталог фиксирует **свежие ссылки на документацию** по ключевым библиотекам сервера." +:+ nl +:+
  nl +:+
  "- Источник версий: `Cargo.lock`" +:+ nl +:+
  "- Дата snapshot: `" +:+ isoformat snapshot_date +:+ "`" +:+ nl +:+
  "- Обновление: `make docs-sync-server-libs`" +:+ nl +:+
  "- Проверка свежести: `make docs-check-server-libs`" +:+ nl +:+
  "- Режим: `" +:+ mode_note download_html +:+ "`" +:+ nl +:+
  nl +:+
  "## Текущие версии и ссылки" +:+ nl +:+
  nl +:+
  "| Crate | Version (`Cargo.lock`) | Docs.rs crate page | Rustdoc index | Local metadata |" +:+ nl +:+
  "|---|---:|---|---|---|" +:+ nl +:+
  rows +:+ nl +:+
  nl +:+
  "Для попытки скачать HTML-копии docs.rs используйте:" +:+ nl +:+
  nl +:+
  "```bash" +:+ nl +:+
  "python3 scripts/server_library_docs_sync.py sync --download-html" +:+ nl +:+
  "```" +:+ nl.

Definition write_index (snapshot_date : date) (records : list row) (download_html : bool)
  : M unit :=
  write_text INDEX_FILE (index_text snapshot_date records download_html).

(** ** parse_snapshot_date *)

(** The loop over the lines: [Some] is the [return] (or the exception) of
    the first line that carries the key, [None] is the loop running out. *)
Fixpoint scan_snapshot_date (lines : list string) : option (result date) :=
  match lines with
  | [] => None
  | line :: rest =>
      let line := strip line in
      if startswith "snapshot_date=" line then
        match split_once "=" line with
        | (_, Some value) =>
            match fromisoformat (strip value) with
            | Some d => Some (Ok d)
            | None => Some (Raise (ValueError ("Invalid isoformat string: " +:+ strip value)))
            end
        | (_, None) => Some (Raise (ValueError "not enough values to unpack"))
        end
      else scan_snapshot_date rest
  end.

Definition parse_snapshot_date : M date :=
  let! present := path_exists VERSION_FILE in
  if negb present then
    fun w => raise (RuntimeError ("Missing snapshot metadata file: " +:+ abs_str w VERSION_FILE)) w
  else
    let! raw := read_text VERSION_FILE in
    match scan_snapshot_date (splitlines raw) with
    | Some r => lift r
    | None =>
        fun w => raise (RuntimeError ("snapshot_date key not found in " +:+ abs_str w VERSION_FILE)) w
    end.

(** ** check_snapshot *)

Definition metadata_path (lib : Library) : path := SNAPSHOT_DIR ++ [slug lib; "metadata.json"].

(** The loop that collects the missing metadata files. *)
Fixpoint collect_missing (libs : list Library) (missing : list string) : M (list string) :=
  match libs with
  | [] => ret missing
  | lib :: rest =>
      let p := metadata_path lib in
      let! present := path_exists p in
      if negb present then collect_missing rest (missing ++ [rel_str p])
      else collect_missing rest missing
  end.

Definition FAIL_LINE : string :=
  "::error::Server library docs snapshot is older than " +:+ str_of_int FAIL_DAYS +:+
  " days. Run `make docs-sync-server-libs`.".

Definition WARNING_LINE : string :=
  "::warning::Server library docs snapshot is older than " +:+ str_of_int WARNING_DAYS +:+
  " days. Please refresh with `make docs-sync-server-libs`.".

Definition check_snapshot : M Z :=
  let! snapshot_date := parse_snapshot_date in
  let! today := date_today in
  let age_days := days_between today snapshot_date in
  let! missing := collect_missing LIBRARIES [] in
  match missing with
  | _ :: _ =>
      let! _ := print "::error::Missing server library snapshot files:" in
      let! _ := for_each missing (fun item => print (" - " +:+ item)) in
      ret 1
  | [] =>
      let! _ := print ("Server library docs snapshot date: " +:+ isoformat snapshot_date) in
      let! _ := print ("Snapshot age: " +:+ str_of_int age_days +:+ " day(s)") in
      if FAIL_DAYS <? age_days then
        let! _ := print FAIL_LINE in
        ret 1
      else
        let! _ := if WARNING_DAYS <? age_days then print WARNING_LINE else ret tt in
        ret 0
  end.

(** ** sync_snapshot *)

(** [versions[name]] *)
Definition dict_get (versions : gmap string string) (name : string) : M string :=
  match versions !! name with
  | Some v => ret v
  | None => raise (KeyError name)
  end.

Definition sync_snapshot (download_html : bool) : M Z :=
  let! snapshot_date := date_today in
  let! versions := parse_cargo_lock_versions in
  let! records := for_collect LIBRARIES (fun lib =>
                    let! version := dict_get versions (crate lib) in
                    sync_library lib version download_html) in
  let! _ := write_version snapshot_date download_html in
  let! _ := write_index snapshot_date records download_html in
  let! _ := print ("Done. Snapshot saved to " +:+ rel_str SNAPSHOT_DIR) in
  ret 0.

(** ** main *)

(** What parse_args accepts. *)
Inductive command : Type :=
| CmdSync (download_html : bool)
| CmdCheck.

Definition main (args : command) : M Z :=
  match args with
  | CmdSync download_html => sync_snapshot download_html
  | CmdCheck => check_snapshot
  end.

(** [sys.exit(main())]: the status of the process.  An exception that
    nobody catches ends the interpreter with status 1. *)
Definition exit_code (args : command) (w : world) : Z :=
  match fst (main args w) with
  | Ok n => n
  | Raise _ => 1
  end.

(** * Specification-side definitions *)

(** A decimal integer as the specification means it: one or more of the
    digits 0-9. *)
Definition decimal (s : string) : bool := negb (is_empty s) && str_all is_digit s.

(** The number a decimal integer denotes. *)
Definition decimal_value (s : string) : Z := default 0 (digits_value 0 s).

(** The [i]-th dot-separated component of a version, 0 when it is missing. *)
Definition component (parts : list string) (i : nat) : Z :=
  match parts !! i with
  | Some p => decimal_value p
  | None => 0
  end.

(** The text after the first hyphen of a version, empty when there is none. *)
Definition pre_release (version : string) : string :=
  match snd (split_once "-" version) with
  | Some s => s
  | None => EmptyString
  end.

(** The library has its metadata artifact. *)
Definition has_metadata (w : world) (lib : Library) : bool :=
  bool_decide (is_Some (fs w !! metadata_path lib)).

(** The paths check_snapshot reports, in catalog order. *)
Definition missing_of (w : world) (libs : list Library) : list string :=
  map (fun lib => rel_str (metadata_path lib))
      (List.filter (fun lib => negb (has_metadata w lib)) libs).

(** The world after [lines] have been printed. *)
Definition printed (lines : list string) (w : world) : world :=
  World (root w) (fs w) (today w) (net w) (stdout w ++ lines).

(** A line of the workflow-command kind [::warning::]. *)
Definition is_warning (line : string) : bool := startswith "::warning::" line.

(** Some printed line is a warning. *)
Definition warned (lines : list string) : bool := existsb is_warning lines.

(** ** Frames *)

(** From [m] to [m'] nothing changed outside [S], except that missing
    directories on the way to a path of [S] may have been made. *)
Definition touches (S : path -> Prop) (m m' : gmap path node) : Prop :=
  forall q, ~ S q ->
    m' !! q = m !! q \/
    (m !! q = None /\ m' !! q = Some Dir /\ exists p, S p /\ q `prefix_of` p).

(** [w'] has the clock, the network, the root and the output of [w], and
    its file system differs inside [S] only. *)
Definition step (S : path -> Prop) (w w' : world) : Prop :=
  root w' = root w /\ today w' = today w /\ net w' = net w /\ stdout w' = stdout w /\
  touches S (fs w) (fs w').

(** [q] is an entry of the directory [d]. *)
Definition in_dir (d q : path) : Prop := exists name, q = d ++ [name].

(** Every directory from the top down to [p] is there. *)
Definition dirs_ready (p : path) (m : gmap path node) : Prop :=
  forall k, (1 <= k <= length p)%nat -> m !! take k p = Some Dir.

(** No regular file is in the way of making the directory [p]. *)
Definition dirs_clear (p : path) (m : gmap path node) : Prop :=
  forall k t, (1 <= k <= length p)%nat -> m !! take k p <> Some (File t).

(** ** Downloads *)

(** The fetch failed with [urllib.error.URLError]. *)
Definition is_url_error (f : fetch) : bool :=
  match f with UrlError _ => true | _ => false end.

(** The fetch returned a body. *)
Definition is_fetched (f : fetch) : bool :=
  match f with Fetched _ => true | _ => false end.

(** What DOWNLOAD_STATUS.txt says about a page: the text of the error, or
    [ok]. *)
Definition page_status (f : fetch) : string :=
  match f with UrlError msg => msg | _ => "ok" end.

(** The fetch raised an exception that try_download does not catch. *)
Definition fetch_raises (f : fetch) : bool :=
  match f with FetchRaises _ => true | _ => false end.

(** The text of DOWNLOAD_STATUS.txt for the outcomes of the two pages. *)
Definition status_text (c r : fetch) : string :=
  "Unable to download docs.rs pages in this environment." +:+ nl +:+
  "crate_page=" +:+ page_status c +:+ nl +:+
  "rustdoc_page=" +:+ page_status r +:+ nl.

(** The files sync_library may write into a library's directory. *)
Definition LIB_FILES : list string :=
  ["docsrs-crate.html"; "docsrs-rustdoc.html"; "DOWNLOAD_STATUS.txt"; "metadata.json"].

(** The file system lets sync_library write: no regular file is in the
    way of the library's directory, and none of its files is a directory. *)
Definition lib_dir_writable (lib : Library) (w : world) : Prop :=
  dirs_clear (lib_dir lib) (fs w) /\
  forall f, In f LIB_FILES -> fs w !! (lib_dir lib ++ [f]) <> Some Dir.

(** The directory is in place and its files can be written. *)
Definition lib_dir_ready (lib : Library) (w : world) : Prop :=
  dirs_ready (lib_dir lib) (fs w) /\
  forall f, In f LIB_FILES -> fs w !! (lib_dir lib ++ [f]) <> Some Dir.

(** The metadata sync_library builds for a library. *)
Definition base_metadata (lib : Library) (version : string) : list (string * jvalue) :=
  [("crate", JStr (crate lib));
   ("version", JStr version);
   ("docs_rs_crate", JStr (docs_rs_crate_url lib version));
   ("docs_rs_rustdoc", JStr (docs_rs_rustdoc_url lib version))].

(** The metadata with the download outcome. *)
Definition full_metadata (lib : Library) (version : string) (downloaded : bool)
  : list (string * jvalue) :=
  base_metadata lib version ++ [("downloaded", JBool downloaded)].

Definition row_of (lib : Library) (version : string) : row :=
  mkRow (slug lib) (crate lib) version
        (docs_rs_crate_url lib version) (docs_rs_rustdoc_url lib version).

(** The versions recorded for a crate, in the order of the lockfile. *)
Definition versions_of (name : string) (matches : list (string * string)) : list string :=
  map snd (List.filter (fun nv => bool_decide (fst nv = name)) matches).

(** ** Semantic-version precedence

    Precedence as the specification means it (Semantic Versioning 2.0.0,
    item 11): build metadata is ignored; major, minor and patch compare as
    numbers; with these equal a pre-release version is lower than the
    release; two pre-releases compare their dot-separated identifiers from
    the left, numeric ones as numbers, the others as ASCII text, a numeric
    one below a non-numeric one, and a longer list above its prefix. *)

Record semver : Type := SemVer {
  sv_major : Z;
  sv_minor : Z;
  sv_patch : Z;
  sv_pre : list string      (* pre-release identifiers, none for a release *)
}.

Definition parse_semver (version : string) : option semver :=
  let core_pre := fst (split_once "+" version) in
  let '(core, pre) := split_once "-" core_pre in
  match split_all "." core with
  | [a; b; c] =>
      if decimal a && decimal b && decimal c then
        Some (SemVer (decimal_value a) (decimal_value b) (decimal_value c)
                (match pre with Some p => split_all "." p | None => [] end))
      else None
  | _ => None
  end.

Definition ident_ltb (a b : string) : bool :=
  match decimal a, decimal b with
  | true, true => decimal_value a <? decimal_value b
  | true, false => true
  | false, true => false
  | false, false => str_ltb a b
  end.

Fixpoint idents_ltb (a b : list string) : bool :=
  match a, b with
  | _, [] => false
  | [], _ :: _ => true
  | x :: a', y :: b' => ident_ltb x y || (bool_decide (x = y) && idents_ltb a' b')
  end.

Definition pre_ltb (a b : list string) : bool :=
  match a, b with
  | [], _ => false
  | _ :: _, [] => true
  | _ :: _, _ :: _ => idents_ltb a b
  end.

Definition semver_ltb (a b : semver) : bool :=
  if negb (sv_major a =? sv_major b) then sv_major a <? sv_major b
  else if negb (sv_minor a =? sv_minor b) then sv_minor a <? sv_minor b
  else if negb (sv_patch a =? sv_patch b) then sv_patch a <? sv_patch b
  else pre_ltb (sv_pre a) (sv_pre b).

(** [a] has lower precedence than [b]. *)
Definition semver_precedes (a b : string) : bool :=
  match parse_semver a, parse_semver b with
  | Some x, Some y => semver_ltb x y
  | _, _ => false
  end.

(** [v] is a maximum of [versions] under semantic-version precedence. *)
Definition semver_maximum (versions : list string) (v : string) : Prop :=
  In v versions /\ forall u, In u versions -> semver_precedes v u = false.

(** The version parse_cargo_lock_versions returns for a crate. *)
Definition selected_version (w : world) (name : string) : result (option string) :=
  match fst (parse_cargo_lock_versions w) with
  | Ok versions => Ok (versions !! name)
  | Raise e => Raise e
  end.

(** The characters of an ISO date. *)
Definition is_date_char (c : ascii) : bool := is_digit c || bool_decide (c = "-"%char).

(** The metadata sync_library writes, by mode: with the download outcome
    exactly when downloading is enabled. *)
Definition metadata_of (lib : Library) (version : string) (download_html : bool)
  (network : string -> fetch) : list (string * jvalue) :=
  if download_html then
    full_metadata lib version
      (is_fetched (network (docs_rs_crate_url lib version)) &&
       is_fetched (network (docs_rs_rustdoc_url lib version)))
  else base_metadata lib version.

(** The text of metadata.json. *)
Definition metadata_text (lib : Library) (version : string) (download_html : bool)
  (network : string -> fetch) : string :=
  json_dumps (metadata_of lib version download_html network) +:+ nl.

(** The body of the loop of sync_snapshot. *)
Definition sync_one (versions : gmap string string) (download_html : bool) (lib : Library)
  : M row :=
  let! version := dict_get versions (crate lib) in
  sync_library lib version download_html.

(** The paths inside the directories of the libraries [libs]. *)
Definition in_lib_dirs (libs : list Library) (q : path) : Prop :=
  exists lib, In lib libs /\ in_dir (lib_dir lib) q.

(** [needle] occurs in [s]. *)
Definition occurs_in (needle s : string) : Prop :=
  exists before after, s = before +:+ needle +:+ after.

(** The paths a sync may write. *)
Definition sync_paths (q : path) : Prop :=
  q = VERSION_FILE \/ q = INDEX_FILE \/ in_lib_dirs LIBRARIES q.

(** ** Characters of versions *)

(** The ASCII characters an integer literal may hold: digits, the
    underscore, the signs and the white space of the C locale. *)
Definition int_char (c : ascii) : bool :=
  is_digit c || is_c_space c || bool_decide (c = "_"%char) ||
  bool_decide (c = "+"%char) || bool_decide (c = "-"%char).

(** The ASCII characters the text before the first hyphen of a version
    may hold for semver_key to accept it. *)
Definition version_char (c : ascii) : bool := int_char c || bool_decide (c = "."%char).

(** The byte is outside ASCII, or it is one of the characters [P]. *)
Definition ascii_within (P : ascii -> bool) (c : ascii) : bool := negb (is_ascii c) || P c.

Definition not_quote (c : ascii) : bool := negb (bool_decide (c = DQ)).

(** The candidates of a crate in a lockfile text. *)
Definition candidates_of (name text : string) : list string :=
  versions_of name (finditer text).

(** A plain release: three dot-separated decimal integers, nothing else. *)
Definition is_release (version : string) : bool :=
  match split_once "-" version with
  | (main, None) =>
      match split_all "." main with
      | [a; b; c] => decimal a && decimal b && decimal c
      | _ => false
      end
  | (_, Some _) => false
  end.

(** What the loop of parse_cargo_lock_versions picks among candidates:
    the last of the sorted list. *)
Definition choose (candidates : list string) : result string :=
  match sorted_by_semver_key candidates with
  | Raise e => Raise e
  | Ok sorted => last_item sorted
  end.

(** [x] may stand in front of [y] in a list sorted by [ltb]. *)
Definition in_order {A K : Type} (ltb : K -> K -> bool) (x y : K * A) : Prop :=
  ltb (fst y) (fst x) = false.

(** The line does not carry the key of the snapshot date. *)
Definition no_date_key (line : string) : bool :=
  negb (startswith "snapshot_date=" (strip line)).

(** Whatever the computation returns or raises, it leaves the file system
    as it found it outside [S], except for directories it made on the way
    to a path of [S]. *)
Definition frames {A} (S : path -> Prop) (m : M A) : Prop :=
  forall w r w', m w = (r, w') ->
    touches S (fs w) (fs w') /\ today w' = today w /\ net w' = net w /\ root w' = root w.

(** The paths a sync in link mode may write. *)
Definition link_sync_paths (q : path) : Prop :=
  q = VERSION_FILE \/ q = INDEX_FILE \/ exists lib, In lib LIBRARIES /\ q = metadata_path lib.

(** ** Sample worlds *)

Definition package_entry (name version source : string) : string :=
  "[[package]]" +:+ nl +:+
  "name = " +:+ dq +:+ name +:+ dq +:+ nl +:+
  "version = " +:+ dq +:+ version +:+ dq +:+ nl +:+
  "source = " +:+ dq +:+ source +:+ dq +:+ nl +:+ nl.

Definition REGISTRY : string := "registry+https://github.com/rust-lang/crates.io-index".

(** A lockfile with every tracked crate; axum is there twice. *)
Definition sample_lock : string :=
  "# This file is automatically @generated by Cargo." +:+ nl +:+
  "version = 3" +:+ nl +:+ nl +:+
  package_entry "async-graphql" "7.0.3" REGISTRY +:+
  package_entry "axum" "0.6.20" REGISTRY +:+
  package_entry "axum" "0.7.5" REGISTRY +:+
  package_entry "loco-rs" "0.12.0" REGISTRY +:+
  package_entry "sea-orm" "1.0.0" REGISTRY +:+
  package_entry "serde" "1.0.200" REGISTRY +:+
  package_entry "tokio" "1.38.0" REGISTRY +:+
  package_entry "tracing" "0.1.40" REGISTRY +:+
  package_entry "utoipa" "4.2.0" REGISTRY.

Definition UNREACHABLE : string := "<urlopen error [Errno 101] Network is unreachable>".

(** A lockfile that pins tokio twice: the release 1.0.0 from the registry
    and the pre-release 1.0.0-alpha from a git repository. *)
Definition prerelease_lock : string :=
  "# This file is automatically @generated by Cargo." +:+ nl +:+
  "version = 3" +:+ nl +:+ nl +:+
  package_entry "async-graphql" "7.0.3" REGISTRY +:+
  package_entry "axum" "0.7.5" REGISTRY +:+
  package_entry "loco-rs" "0.12.0" REGISTRY +:+
  package_entry "sea-orm" "1.0.0" REGISTRY +:+
  package_entry "serde" "1.0.200" REGISTRY +:+
  package_entry "tokio" "1.0.0" REGISTRY +:+
  package_entry "tokio" "1.0.0-alpha" "git+https://github.com/tokio-rs/tokio#0123abc" +:+
  package_entry "tracing" "0.1.40" REGISTRY +:+
  package_entry "utoipa" "4.2.0" REGISTRY.

(** A checkout with the lockfile and nothing else, and no network. *)
Definition fresh_world (lock : string) (day : date) : world :=
  World "/repo" {[ CARGO_LOCK := File lock ]} day (fun _ => UrlError UNREACHABLE) [].

Definition with_today (day : date) (w : world) : world :=
  World (root w) (fs w) day (net w) (stdout w).

Definition sample_world : world := fresh_world sample_lock (Date 2026 11 4).

Definition prerelease_world : world := fresh_world prerelease_lock (Date 2026 11 4).

(** The sample checkout after [sync] in link mode. *)
Definition synced_world : world := snd (sync_snapshot false sample_world).

(** A marker written by hand: a comment, the date line indented and
    padded, and a second date line. *)
Definition handwritten_marker : string :=
  "# note" +:+ nl +:+ "  snapshot_date= 2024-02-29 " +:+ nl +:+
  "snapshot_date=2020-01-01" +:+ nl.

(** The sample checkout after a sync with downloading enabled and no
    network: every library directory holds a DOWNLOAD_STATUS.txt. *)
Definition offline_world : world := snd (sync_snapshot true sample_world).

(** The offline sample checkout when the network is back: every fetch
    returns a page. *)
Definition online_world : world :=
  World (root offline_world) (fs offline_world) (today offline_world)
        (fun _ => Fetched "<html></html>") (stdout offline_world).

(** What a read that runs into the timeout raises: [TimeoutError], a
    subclass of [OSError] and no [urllib.error.URLError]. *)
Definition READ_TIMEOUT : exn := OSError "TimeoutError: The read operation timed out".

(** The sample checkout on a network that accepts every connection and
    then stalls. *)
Definition stalled_world : world :=
  World (root sample_world) (fs sample_world) (today sample_world)
        (fun _ => FetchRaises READ_TIMEOUT) (stdout sample_world).

(** The rows of the index for the versions chosen. *)
Definition rows_of (versions : gmap string string) (libs : list Library) : list row :=
  map (fun lib => row_of lib (default EmptyString (versions !! crate lib))) libs.

(** * Properties *)

(** ** Strings *)

Lemma str_all_app P a b : str_all P (a +:+ b) = str_all P a && str_all P b.
Proof.
  induction a as [|c a IH]; simpl; [reflexivity|].
  rewrite IH. apply andb_assoc.
Qed.

Lemma str_all_impl (P Q : ascii -> bool) s :
  (forall c, P c = true -> Q c = true) -> str_all P s = true -> str_all Q s = true.
Proof.
  intros HPQ. induction s as [|c s IH]; simpl; [reflexivity|].
  intros [Hc Hs]%andb_prop. rewrite (HPQ _ Hc), (IH Hs). reflexivity.
Qed.

Lemma digit_of_range c d : digit_of c = Some d -> 0 <= d <= 9.
Proof.
  unfold digit_of.
  destruct (_ && _) eqn:E; [|discriminate].
  intros [= <-]. apply andb_prop in E as [E1 E2].
  apply Nat.leb_le in E1, E2. lia.
Qed.

Lemma digit_not_space c : is_digit c = true -> is_space c = false.
Proof.
  unfold is_digit, digit_of, is_space.
  destruct (_ && _) eqn:E; [|discriminate]. intros _.
  apply andb_prop in E as [E1 E2]. apply Nat.leb_le in E1, E2.
  apply orb_false_iff; split; apply andb_false_iff.
  - right. apply Nat.leb_gt. lia.
  - right. apply Nat.leb_gt. lia.
Qed.

Lemma lstrip_no_space s : str_all (fun c => negb (is_space c)) s = true -> lstrip s = s.
Proof.
  destruct s as [|c s]; simpl; [reflexivity|].
  intros [Hc _]%andb_prop. apply negb_true_iff in Hc. rewrite Hc. reflexivity.
Qed.

Lemma rstrip_no_space s : str_all (fun c => negb (is_space c)) s = true -> rstrip s = s.
Proof.
  induction s as [|c s IH]; simpl; [reflexivity|].
  intros [Hc Hs]%andb_prop. apply negb_true_iff in Hc. rewrite Hc, (IH Hs). reflexivity.
Qed.

Lemma strip_no_space s : str_all (fun c => negb (is_space c)) s = true -> strip s = s.
Proof.
  intros H. unfold strip. rewrite (lstrip_no_space _ H). apply rstrip_no_space, H.
Qed.

Lemma digits_no_space s : str_all is_digit s = true -> str_all (fun c => negb (is_space c)) s = true.
Proof.
  apply str_all_impl. intros c Hc. rewrite (digit_not_space _ Hc). reflexivity.
Qed.

(** On a run of digits [int_digits] is the plain positional value. *)
Lemma int_digits_all_digits s : forall acc b,
  str_all is_digit s = true -> (b = true \/ s <> EmptyString) ->
  int_digits acc b s = digits_value acc s.
Proof.
  induction s as [|c s IH]; simpl; intros acc b Hs Hb.
  - destruct Hb as [-> | Hne]; [reflexivity | congruence].
  - apply andb_prop in Hs as [Hc Hs]. unfold is_digit in Hc.
    destruct (digit_of c) as [d|]; [|discriminate].
    apply IH; [exact Hs | left; reflexivity].
Qed.

Lemma digits_value_all_digits s : forall acc,
  str_all is_digit s = true -> exists n, digits_value acc s = Some n.
Proof.
  induction s as [|c s IH]; simpl; intros acc Hs; [eauto|].
  apply andb_prop in Hs as [Hc Hs]. unfold is_digit in Hc.
  destruct (digit_of c) as [d|]; [|discriminate]. apply IH, Hs.
Qed.

Lemma digit_bounds c : is_digit c = true -> (48 <= nat_of_ascii c <= 57)%nat.
Proof.
  unfold is_digit, digit_of. destruct (_ && _) eqn:E; [|discriminate]. intros _.
  apply andb_prop in E as [E1 E2]. apply Nat.leb_le in E1, E2. lia.
Qed.

Lemma digit_is_ascii c : is_digit c = true -> is_ascii c = true.
Proof. intros H. apply digit_bounds in H. unfold is_ascii. apply Nat.ltb_lt. lia. Qed.

Lemma digit_not_c_space c : is_digit c = true -> is_c_space c = false.
Proof.
  intros H. apply digit_bounds in H. unfold is_c_space.
  apply orb_false_iff; split.
  - apply andb_false_iff. right. apply Nat.leb_gt. lia.
  - apply Nat.eqb_neq. lia.
Qed.

Lemma int_lstrip_no_space s :
  str_all (fun c => negb (is_c_space c)) s = true -> int_lstrip s = s.
Proof.
  destruct s as [|c s]; simpl; [reflexivity|].
  intros [Hc _]%andb_prop. apply negb_true_iff in Hc. rewrite Hc. reflexivity.
Qed.

Lemma int_rstrip_no_space s :
  str_all (fun c => negb (is_c_space c)) s = true -> int_rstrip s = s.
Proof.
  induction s as [|c s IH]; simpl; [reflexivity|].
  intros [Hc Hs]%andb_prop. apply negb_true_iff in Hc. rewrite Hc, (IH Hs). reflexivity.
Qed.

(** On plain ASCII text without white space at its ends [int] reads the
    text as it stands. *)
Lemma int_text_digits s :
  str_all is_digit s = true -> int_rstrip (int_lstrip (int_text s)) = s.
Proof.
  intros Hs. unfold int_text.
  rewrite (str_all_impl is_digit is_ascii s digit_is_ascii Hs).
  assert (Hsp : str_all (fun c => negb (is_c_space c)) s = true).
  { eapply str_all_impl; [|exact Hs]. intros c Hc. rewrite (digit_not_c_space _ Hc). reflexivity. }
  rewrite (int_lstrip_no_space _ Hsp). apply int_rstrip_no_space, Hsp.
Qed.

(** [int] of a decimal integer is the number it denotes. *)
Lemma py_int_decimal s : decimal s = true -> py_int s = Some (decimal_value s).
Proof.
  unfold decimal. intros [Hne Hs]%andb_prop.
  unfold py_int. rewrite (int_text_digits _ Hs).
  destruct s as [|c s]; [discriminate|].
  assert (Hint : int_digits 0 false (String c s) = Some (decimal_value (String c s))).
  { rewrite int_digits_all_digits by (auto; right; discriminate).
    unfold decimal_value. destruct (digits_value_all_digits (String c s) 0 Hs) as [n ->].
    reflexivity. }
  simpl in Hs. apply andb_prop in Hs as [Hc _].
  destruct (ascii_dec c "-") as [->|Hm]; [discriminate Hc|].
  destruct (ascii_dec c "+") as [->|Hp]; [discriminate Hc|].
  destruct c as [[] [] [] [] [] [] [] []]; try exact Hint; congruence.
Qed.

(** ** semver_key *)

Lemma ints_of_decimal parts :
  Forall (fun p => decimal p = true) parts -> ints_of parts = Ok (map decimal_value parts).
Proof.
  induction 1 as [|p parts Hp _ IH]; simpl; [reflexivity|].
  rewrite (py_int_decimal _ Hp), IH. reflexivity.
Qed.

Lemma split_all_nonempty sep s : split_all sep s <> [].
Proof.
  destruct s as [|c s]; simpl; [discriminate|].
  destruct (bool_decide (c = sep)); [discriminate|].
  destruct (split_all sep s); discriminate.
Qed.

(** C9. semver_key zero-pads short versions: when the part of [version]
    before the first hyphen is one, two or three dot-separated decimal
    integers, the key holds their values in order, 0 for each missing
    component, and the text after the first hyphen. *)
Theorem semver_key_zero_pads (version : string) :
  let parts := split_all "." (fst (split_once "-" version)) in
  (length parts <= 3)%nat ->
  Forall (fun p => decimal p = true) parts ->
  semver_key version =
    Ok (component parts 0, component parts 1, component parts 2, pre_release version).
Proof.
  intros parts Hlen Hdec. unfold semver_key, pre_release.
  destruct (split_once "-" version) as [main suffix] eqn:Hsplit. simpl in parts.
  fold parts. rewrite (ints_of_decimal _ Hdec). simpl snd.
  destruct parts as [|a [|b [|c [|d rest]]]]; simpl in Hlen; try lia; reflexivity.
Qed.

(** Witness for C9: "1.2" and "1.2.0" receive the same key. *)
Lemma semver_key_zero_pads_witness :
  semver_key "1.2" = Ok (1, 2, 0, EmptyString) /\
  semver_key "1.2.0" = Ok (1, 2, 0, EmptyString) /\
  semver_key "1.2" = semver_key "1.2.0".
Proof.
  assert (H2 : semver_key "1.2" = Ok (1, 2, 0, EmptyString)).
  { apply (semver_key_zero_pads "1.2"); [simpl; lia | repeat constructor]. }
  assert (H3 : semver_key "1.2.0" = Ok (1, 2, 0, EmptyString)).
  { apply (semver_key_zero_pads "1.2.0"); [simpl; lia | repeat constructor]. }
  split; [exact H2 | split; [exact H3 | rewrite H2, H3; reflexivity]].
Defined.

(** ** The monad *)

Lemma bind_ok {A B} (m : M A) (k : A -> M B) w a w' :
  m w = (Ok a, w') -> bind m k w = k a w'.
Proof. unfold bind. intros ->. reflexivity. Qed.

Lemma bind_raise {A B} (m : M A) (k : A -> M B) w e w' :
  m w = (Raise e, w') -> bind m k w = (Raise e, w').
Proof. unfold bind. intros ->. reflexivity. Qed.

Lemma bind_inv {A B} (m : M A) (k : A -> M B) w b w2 :
  bind m k w = (Ok b, w2) -> exists a w1, m w = (Ok a, w1) /\ k a w1 = (Ok b, w2).
Proof.
  unfold bind. destruct (m w) as [[a|e] w1]; [eauto | discriminate].
Qed.

Lemma printed_nil w : printed [] w = w.
Proof. destruct w. unfold printed. simpl. rewrite app_nil_r. reflexivity. Qed.

Lemma printed_printed a b w : printed b (printed a w) = printed (a ++ b) w.
Proof. unfold printed. simpl. rewrite app_assoc. reflexivity. Qed.

Lemma print_printed line w : print line w = (Ok tt, printed [line] w).
Proof. reflexivity. Qed.

Lemma fs_printed lines w : fs (printed lines w) = fs w.
Proof. reflexivity. Qed.

Lemma for_each_print (f : string -> string) items w :
  for_each items (fun item => print (f item)) w = (Ok tt, printed (map f items) w).
Proof.
  revert w. induction items as [|x items IH]; intros w; simpl.
  - rewrite printed_nil. reflexivity.
  - rewrite (bind_ok _ _ _ _ _ (print_printed _ _)), IH, printed_printed. reflexivity.
Qed.

(** ** check_snapshot *)

Lemma path_exists_eq p w : path_exists p w = (Ok (bool_decide (is_Some (fs w !! p))), w).
Proof. reflexivity. Qed.

(** parse_snapshot_date only reads: it leaves the world as it found it. *)
Lemma parse_snapshot_date_world w : snd (parse_snapshot_date w) = w.
Proof.
  unfold parse_snapshot_date.
  rewrite (bind_ok _ _ _ _ _ (path_exists_eq _ _)).
  destruct (bool_decide _); simpl; [|reflexivity].
  unfold bind, read_text.
  destruct (fs w !! VERSION_FILE) as [[t|]|]; simpl; try reflexivity.
  destruct (scan_snapshot_date (splitlines t)) as [r|]; reflexivity.
Qed.

Lemma parse_snapshot_date_eq w r :
  fst (parse_snapshot_date w) = r -> parse_snapshot_date w = (r, w).
Proof.
  intros <-. rewrite <- (parse_snapshot_date_world w) at 3. apply surjective_pairing.
Qed.

Lemma collect_missing_eq libs : forall missing w,
  collect_missing libs missing w = (Ok (missing ++ missing_of w libs), w).
Proof.
  induction libs as [|lib libs IH]; intros missing w; simpl.
  - unfold missing_of. simpl. rewrite app_nil_r. reflexivity.
  - rewrite (bind_ok _ _ _ _ _ (path_exists_eq _ _)).
    unfold missing_of. simpl. unfold has_metadata at 1.
    destruct (bool_decide _); simpl; rewrite IH; unfold missing_of.
    + reflexivity.
    + rewrite <- app_assoc. reflexivity.
Qed.

Lemma missing_of_nil w libs :
  missing_of w libs = [] <-> Forall (fun lib => has_metadata w lib = true) libs.
Proof.
  unfold missing_of. induction libs as [|lib libs IH]; simpl.
  - split; [constructor | reflexivity].
  - destruct (has_metadata w lib) eqn:E; simpl.
    + rewrite IH. split; [intros H; constructor; assumption | intros H; inversion H; assumption].
    + split; [discriminate | intros H; inversion H; congruence].
Qed.

(** What check_snapshot does, case by case. *)
Lemma check_snapshot_raises w e :
  fst (parse_snapshot_date w) = Raise e -> check_snapshot w = (Raise e, w).
Proof.
  intros H. unfold check_snapshot. apply bind_raise, parse_snapshot_date_eq, H.
Qed.

Lemma check_snapshot_missing w d x xs :
  fst (parse_snapshot_date w) = Ok d ->
  missing_of w LIBRARIES = x :: xs ->
  check_snapshot w =
    (Ok 1, printed ("::error::Missing server library snapshot files:"
                    :: map (fun item => " - " +:+ item) (x :: xs)) w).
Proof.
  intros Hd Hm. unfold check_snapshot.
  pose proof (parse_snapshot_date_eq _ _ Hd) as Hp.
  rewrite (bind_ok _ _ _ _ _ Hp).
  unfold date_today at 1. unfold bind at 1.
  rewrite (bind_ok _ _ _ _ _ (collect_missing_eq _ _ _)).
  rewrite app_nil_l, Hm.
  rewrite (bind_ok _ _ _ _ _ (print_printed _ _)).
  rewrite (bind_ok _ _ _ _ _ (for_each_print _ _ _)).
  unfold ret. rewrite printed_printed. reflexivity.
Qed.

Lemma check_snapshot_present w d :
  fst (parse_snapshot_date w) = Ok d ->
  missing_of w LIBRARIES = [] ->
  let age_days := days_between (today w) d in
  let head := ["Server library docs snapshot date: " +:+ isoformat d;
               "Snapshot age: " +:+ str_of_int age_days +:+ " day(s)"] in
  check_snapshot w =
    if FAIL_DAYS <? age_days then (Ok 1, printed (head ++ [FAIL_LINE]) w)
    else if WARNING_DAYS <? age_days then (Ok 0, printed (head ++ [WARNING_LINE]) w)
    else (Ok 0, printed head w).
Proof.
  intros Hd Hm age_days head. unfold check_snapshot.
  pose proof (parse_snapshot_date_eq _ _ Hd) as Hp.
  rewrite (bind_ok _ _ _ _ _ Hp).
  unfold date_today at 1. unfold bind at 1.
  rewrite (bind_ok _ _ _ _ _ (collect_missing_eq _ _ _)).
  rewrite app_nil_l, Hm.
  rewrite (bind_ok _ _ _ _ _ (print_printed _ _)).
  rewrite (bind_ok _ _ _ _ _ (print_printed _ _)).
  rewrite printed_printed. fold age_days.
  destruct (FAIL_DAYS <? age_days).
  - rewrite (bind_ok _ _ _ _ _ (print_printed _ _)), printed_printed. reflexivity.
  - destruct (WARNING_DAYS <? age_days).
    + rewrite (bind_ok _ _ _ _ _ (print_printed _ _)), printed_printed. reflexivity.
    + unfold bind, ret. reflexivity.
Qed.

(** C10. The check command is read-only: whatever it returns or raises, the
    world it leaves differs from the one it found only by the lines
    printed; in particular every file and directory is as before.  The
    same holds for parse_snapshot_date, which changes nothing at all. *)
Theorem check_is_read_only (w : world) :
  snd (parse_snapshot_date w) = w /\
  (exists lines, snd (check_snapshot w) = printed lines w) /\
  fs (snd (check_snapshot w)) = fs w /\
  fs (snd (main CmdCheck w)) = fs w.
Proof.
  assert (H : exists lines, snd (check_snapshot w) = printed lines w).
  { destruct (fst (parse_snapshot_date w)) as [d|e] eqn:Hd.
    - destruct (missing_of w LIBRARIES) as [|x xs] eqn:Hm.
      + rewrite (check_snapshot_present w d Hd Hm).
        destruct (FAIL_DAYS <? _); [|destruct (WARNING_DAYS <? _)]; eexists; reflexivity.
      + rewrite (check_snapshot_missing w d x xs Hd Hm). eexists; reflexivity.
    - rewrite (check_snapshot_raises w e Hd). exists []. rewrite printed_nil. reflexivity. }
  split; [apply parse_snapshot_date_world|].
  split; [exact H|].
  destruct H as [lines H]. simpl. rewrite H. split; apply fs_printed.
Qed.

(** C2. The check command exits with 0 only if every tracked library has
    its metadata.json; if the file of some tracked library is missing the
    exit status is 1, and check_snapshot itself returns 1 whenever the
    snapshot date could be read. *)
Theorem check_requires_metadata (w : world) :
  (exit_code CmdCheck w = 0 ->
   Forall (fun lib => has_metadata w lib = true) LIBRARIES) /\
  (Exists (fun lib => has_metadata w lib = false) LIBRARIES ->
   exit_code CmdCheck w = 1 /\
   forall d, fst (parse_snapshot_date w) = Ok d -> fst (check_snapshot w) = Ok 1).
Proof.
  assert (Hmiss : Exists (fun lib => has_metadata w lib = false) LIBRARIES ->
                  exists x xs, missing_of w LIBRARIES = x :: xs).
  { intros Hex. destruct (missing_of w LIBRARIES) as [|x xs] eqn:Hm; [|eauto].
    apply missing_of_nil in Hm. apply Exists_exists in Hex as (lib & Hin & Hlib).
    rewrite Forall_forall in Hm. specialize (Hm lib Hin). congruence. }
  assert (Hone : Exists (fun lib => has_metadata w lib = false) LIBRARIES ->
                 exit_code CmdCheck w = 1).
  { intros Hex. destruct (Hmiss Hex) as (x & xs & Hm).
    unfold exit_code. simpl main.
    destruct (fst (parse_snapshot_date w)) as [d|e] eqn:Hd.
    - rewrite (check_snapshot_missing w d x xs Hd Hm). reflexivity.
    - rewrite (check_snapshot_raises w e Hd). reflexivity. }
  split.
  - intros Hzero. apply Forall_forall. intros lib Hin.
    destruct (has_metadata w lib) eqn:E; [reflexivity|].
    assert (Hex : Exists (fun lib => has_metadata w lib = false) LIBRARIES)
      by (apply Exists_exists; eauto).
    rewrite (Hone Hex) in Hzero. discriminate.
  - intros Hex. split; [exact (Hone Hex)|].
    intros d Hd. destruct (Hmiss Hex) as (x & xs & Hm).
    rewrite (check_snapshot_missing w d x xs Hd Hm). reflexivity.
Qed.

Lemma all_metadata_forallb w :
  forallb (has_metadata w) LIBRARIES = true ->
  Forall (fun lib => has_metadata w lib = true) LIBRARIES.
Proof. intros H. apply Forall_forall. intros lib Hin. apply (proj1 (forallb_forall _ _) H), list_elem_of_In, Hin. Qed.

(** Witness for C2: after a sync the check passes and all metadata files are
    there; in a fresh checkout the check exits with 1. *)
Lemma check_requires_metadata_witness :
  Forall (fun lib => has_metadata synced_world lib = true) LIBRARIES /\
  exit_code CmdCheck sample_world = 1.
Proof.
  split.
  - apply (proj1 (check_requires_metadata synced_world)). vm_compute. reflexivity.
  - apply (proj2 (check_requires_metadata sample_world)).
    apply Exists_cons_hd. vm_compute. reflexivity.
Defined.

Lemma head_not_warned a b :
  warned ["Server library docs snapshot date: " +:+ a; "Snapshot age: " +:+ b] = false.
Proof. reflexivity. Qed.

(** C3. With a readable snapshot date and all metadata files present, the
    age in days decides: above 60 check_snapshot returns 1; above 30 and at
    most 60 it returns 0 and prints the warning line; at most 30 it returns
    0 and prints no warning. *)
Theorem check_age_thresholds (w : world) (d : date) :
  fst (parse_snapshot_date w) = Ok d ->
  Forall (fun lib => has_metadata w lib = true) LIBRARIES ->
  let age_days := days_between (today w) d in
  exists lines,
    snd (check_snapshot w) = printed lines w /\
    (60 < age_days -> fst (check_snapshot w) = Ok 1) /\
    (30 < age_days <= 60 ->
       fst (check_snapshot w) = Ok 0 /\ In WARNING_LINE lines /\ warned lines = true) /\
    (age_days <= 30 -> fst (check_snapshot w) = Ok 0 /\ warned lines = false).
Proof.
  intros Hd Hall age_days. apply missing_of_nil in Hall.
  pose proof (check_snapshot_present w d Hd Hall) as H. cbv zeta in H.
  fold age_days in H. unfold FAIL_DAYS, WARNING_DAYS in H.
  destruct (60 <? age_days) eqn:E60; [|destruct (30 <? age_days) eqn:E30];
    rewrite H; eexists; (split; [reflexivity|]).
  - apply Z.ltb_lt in E60. repeat split; try reflexivity; intros; lia.
  - apply Z.ltb_ge in E60. apply Z.ltb_lt in E30.
    split; [intros; lia|]. split; [|intros; lia].
    intros _. split; [reflexivity|]. split; [simpl; auto|].
    unfold warned. rewrite existsb_app. apply orb_true_iff. right. reflexivity.
  - apply Z.ltb_ge in E60, E30.
    split; [intros; lia|]. split; [intros; lia|].
    intros _. split; [reflexivity | apply head_not_warned].
Qed.

(** Witness for C3: the synced sample checked 46 days later. *)
Lemma check_age_thresholds_witness :
  exists lines,
    snd (check_snapshot (with_today (Date 2026 12 20) synced_world))
      = printed lines (with_today (Date 2026 12 20) synced_world) /\
    fst (check_snapshot (with_today (Date 2026 12 20) synced_world)) = Ok 0 /\
    warned lines = true.
Proof.
  destruct (check_age_thresholds (with_today (Date 2026 12 20) synced_world)
              (Date 2026 11 4)) as (lines & Hw & _ & Hwarn & _).
  - vm_compute. reflexivity.
  - apply all_metadata_forallb. vm_compute. reflexivity.
  - assert (Hage : 30 < days_between (Date 2026 12 20) (Date 2026 11 4) <= 60)
      by (vm_compute; split; [reflexivity | discriminate]).
    destruct (Hwarn Hage) as (Hr & _ & Hl).
    exists lines. split; [exact Hw | split; assumption].
Defined.

(** ** Dates as text *)

Lemma digit_of_digit_char n : digit_of (digit_char n) = Some (n mod 10).
Proof.
  unfold digit_char. pose proof (Z.mod_pos_bound n 10 eq_refl) as Hk.
  set (k := n mod 10) in *.
  assert (Hcases : k = 0 \/ k = 1 \/ k = 2 \/ k = 3 \/ k = 4 \/
                   k = 5 \/ k = 6 \/ k = 7 \/ k = 8 \/ k = 9) by lia.
  repeat (destruct Hcases as [-> | Hcases]; [reflexivity|]).
  subst k. rewrite Hcases. reflexivity.
Qed.

Lemma is_digit_digit_char n : is_digit (digit_char n) = true.
Proof. unfold is_digit. rewrite digit_of_digit_char. reflexivity. Qed.

Lemma four_digits y :
  0 <= y <= 9999 ->
  10 * (10 * (10 * (10 * 0 + (y / 1000) mod 10) + (y / 100) mod 10) + (y / 10) mod 10)
    + y mod 10 = y.
Proof. intros Hy. Z.div_mod_to_equations. lia. Qed.

Lemma two_digits n :
  0 <= n <= 99 -> 10 * (10 * 0 + (n / 10) mod 10) + n mod 10 = n.
Proof. intros Hn. Z.div_mod_to_equations. lia. Qed.

Lemma isoformat_chars d :
  isoformat d =
    String (digit_char (year d / 1000)) (String (digit_char (year d / 100))
    (String (digit_char (year d / 10)) (String (digit_char (year d))
    (String "-" (String (digit_char (month d / 10)) (String (digit_char (month d))
    (String "-" (String (digit_char (day d / 10)) (String (digit_char (day d))
    EmptyString))))))))).
Proof. reflexivity. Qed.

Lemma valid_date_bounds d :
  valid_date d -> 1 <= year d <= 9999 /\ 1 <= month d <= 12 /\ 1 <= day d <= 31.
Proof.
  unfold valid_date, valid_dateb. intros H.
  repeat (apply andb_prop in H as [H ?]).
  repeat match goal with
         | Hle : (_ <=? _) = true |- _ => apply Z.leb_le in Hle
         end.
  assert (days_in_month (year d) (month d) <= 31).
  { unfold days_in_month.
    destruct (month d =? 2); [destruct (is_leap _); lia|].
    destruct (_ || _); lia. }
  lia.
Qed.

(** isoformat and fromisoformat are inverse on the dates of the calendar. *)
Lemma fromisoformat_isoformat d : valid_date d -> fromisoformat (isoformat d) = Some d.
Proof.
  intros Hv. destruct (valid_date_bounds d Hv) as (Hy & Hm & Hd).
  rewrite isoformat_chars. unfold fromisoformat. cbn [digits_value].
  rewrite !digit_of_digit_char.
  rewrite four_digits by lia. rewrite !two_digits by lia.
  destruct d as [y m dd]. simpl. unfold valid_date in Hv. rewrite Hv. reflexivity.
Qed.

Lemma isoformat_date_chars d : str_all is_date_char (isoformat d) = true.
Proof.
  rewrite isoformat_chars. unfold is_date_char. cbn [str_all].
  rewrite !is_digit_digit_char. reflexivity.
Qed.

Lemma date_char_not_space c : is_date_char c = true -> negb (is_space c) = true.
Proof.
  unfold is_date_char. intros [H | H]%orb_prop.
  - rewrite (digit_not_space _ H). reflexivity.
  - apply bool_decide_eq_true in H. subst c. reflexivity.
Qed.

Lemma date_char_not_linebreak c : is_date_char c = true -> negb (is_linebreak c) = true.
Proof.
  unfold is_date_char. intros [H | H]%orb_prop.
  - unfold is_digit, digit_of in H. unfold is_linebreak.
    destruct (_ && _) eqn:E in H; [|discriminate].
    apply andb_prop in E as [E1 E2]. apply Nat.leb_le in E1, E2.
    apply negb_true_iff, orb_false_iff; split; apply andb_false_iff; right;
      apply Nat.leb_gt; lia.
  - apply bool_decide_eq_true in H. subst c. reflexivity.
Qed.

(** A line without line boundaries in front of a line feed is the first
    line. *)
Lemma splitlines_line l rest :
  str_all (fun c => negb (is_linebreak c)) l = true ->
  splitlines (l +:+ nl +:+ rest) = l :: splitlines rest.
Proof.
  induction l as [|c l IH]; intros Hl.
  - reflexivity.
  - simpl in Hl. apply andb_prop in Hl as [Hc Hl]. apply negb_true_iff in Hc.
    change (String c l +:+ nl +:+ rest) with (String c (l +:+ nl +:+ rest)).
    cbn [splitlines]. rewrite Hc, (IH Hl). reflexivity.
Qed.

(** ** parse_snapshot_date on a marker *)

Lemma scan_snapshot_date_skip line rest :
  startswith "snapshot_date=" (strip line) = false ->
  scan_snapshot_date (line :: rest) = scan_snapshot_date rest.
Proof. intros H. cbn [scan_snapshot_date]. rewrite H. reflexivity. Qed.

Lemma scan_snapshot_date_hit line rest value d :
  strip line = "snapshot_date=" +:+ value ->
  fromisoformat (strip value) = Some d ->
  scan_snapshot_date (line :: rest) = Some (Ok d).
Proof.
  intros Hl Hv. cbn [scan_snapshot_date]. rewrite Hl.
  change (startswith "snapshot_date=" ("snapshot_date=" +:+ value)) with true.
  change (split_once "=" ("snapshot_date=" +:+ value)) with ("snapshot_date", Some value).
  cbv iota beta. rewrite Hv. reflexivity.
Qed.

Lemma scan_version_text d download_html :
  valid_date d ->
  scan_snapshot_date (splitlines (version_text d download_html)) = Some (Ok d).
Proof.
  intros Hv.
  pose proof (isoformat_date_chars d) as Hchars.
  assert (Hsp : str_all (fun c => negb (is_space c)) (isoformat d) = true)
    by (eapply str_all_impl; [apply date_char_not_space | exact Hchars]).
  assert (Hlb : str_all (fun c => negb (is_linebreak c)) (isoformat d) = true)
    by (eapply str_all_impl; [apply date_char_not_linebreak | exact Hchars]).
  change (version_text d download_html) with
    ("# Server library upstream docs snapshot metadata" +:+ nl +:+
     ("snapshot_date=" +:+ isoformat d) +:+ nl +:+
     ("source=" +:+ mode_name download_html) +:+ nl +:+ EmptyString).
  rewrite splitlines_line by reflexivity.
  rewrite splitlines_line by (rewrite str_all_app, Hlb; reflexivity).
  rewrite scan_snapshot_date_skip by reflexivity.
  apply scan_snapshot_date_hit with (value := isoformat d).
  - apply strip_no_space. rewrite str_all_app, Hsp. reflexivity.
  - rewrite (strip_no_space _ Hsp). apply fromisoformat_isoformat, Hv.
Qed.

(** ** The file system *)

Lemma set_fs_same w : set_fs (fs w) w = w.
Proof. destruct w. reflexivity. Qed.

Lemma touches_refl S m : touches S m m.
Proof. intros q _. left. reflexivity. Qed.

Lemma touches_trans S m1 m2 m3 : touches S m1 m2 -> touches S m2 m3 -> touches S m1 m3.
Proof.
  intros H12 H23 q Hq.
  destruct (H12 q Hq) as [E12 | (N1 & D2 & P2)], (H23 q Hq) as [E23 | (N2 & D3 & P3)].
  - left. congruence.
  - right. repeat split; [congruence | congruence | exact P3].
  - right. repeat split; [congruence | congruence | exact P2].
  - congruence.
Qed.

Lemma touches_mono (S S' : path -> Prop) m m' :
  (forall q, S q -> S' q) -> touches S m m' -> touches S' m m'.
Proof.
  intros HS H q Hq.
  destruct (H q (fun HSq => Hq (HS q HSq))) as [E | (N & D & p & Hp & Hpre)]; [left; exact E|].
  right. repeat split; [exact N | exact D|]. exists p. split; [apply HS, Hp | exact Hpre].
Qed.

Lemma touches_file S m m' q t :
  touches S m m' -> ~ S q -> m !! q = Some (File t) -> m' !! q = Some (File t).
Proof. intros H Hq Hf. destruct (H q Hq) as [E | [N _]]; congruence. Qed.

Lemma step_refl S w : step S w w.
Proof. repeat split. apply touches_refl. Qed.

Lemma step_trans S w1 w2 w3 : step S w1 w2 -> step S w2 w3 -> step S w1 w3.
Proof.
  intros (R1 & T1 & N1 & O1 & F1) (R2 & T2 & N2 & O2 & F2).
  repeat split; try congruence. eapply touches_trans; eassumption.
Qed.

Lemma step_mono (S S' : path -> Prop) w w' :
  (forall q, S q -> S' q) -> step S w w' -> step S' w w'.
Proof.
  intros HS (R & T & N & O & F). repeat split; try assumption.
  eapply touches_mono; eassumption.
Qed.

(** mkdir only adds directories, those on the way, and all of the way is
    there afterwards. *)
Lemma mkdir_from_inv todo : forall above m m',
  mkdir_from above todo m = Some m' ->
  (forall q, m' !! q = m !! q \/
             (m !! q = None /\ m' !! q = Some Dir /\
              exists k, (1 <= k <= length todo)%nat /\ q = above ++ take k todo)) /\
  forall k, (1 <= k <= length todo)%nat -> m' !! (above ++ take k todo) = Some Dir.
Proof.
  induction todo as [|c rest IH]; intros above m m' H; simpl in H.
  - injection H as <-. split; [intros q; left; reflexivity | simpl; intros; lia].
  - assert (Hrec : exists m1, mkdir_from (above ++ [c]) rest m1 = Some m' /\
                     (forall q, m1 !! q = m !! q \/
                                (m !! q = None /\ m1 !! q = Some Dir /\ q = above ++ [c])) /\
                     m1 !! (above ++ [c]) = Some Dir).
    { destruct (m !! (above ++ [c])) as [[t|]|] eqn:E; [discriminate| |].
      - exists m. split; [exact H|]. split; [intros q; left; reflexivity | exact E].
      - exists (<[above ++ [c] := Dir]> m). split; [exact H|]. split.
        + intros q. destruct (decide (q = above ++ [c])) as [->|Hne].
          * right. repeat split; [exact E | apply lookup_insert_eq].
          * left. apply lookup_insert_ne. congruence.
        + apply lookup_insert_eq. }
    destruct Hrec as (m1 & Hm1 & Ht1 & Hd1).
    destruct (IH _ _ _ Hm1) as [Ht Hd]. split.
    + intros q.
      destruct (Ht1 q) as [E1 | (N1 & D1 & Hq1)], (Ht q) as [E2 | (N2 & D2 & k & Hk & Hq)].
      * left. congruence.
      * right. repeat split; [congruence | exact D2|].
        exists (S k). split; [simpl; lia|]. rewrite Hq, <- app_assoc. reflexivity.
      * right. repeat split; [exact N1 | congruence|].
        exists 1%nat. split; [simpl; lia | exact Hq1].
      * congruence.
    + intros k Hk. destruct k as [|k]; [lia|]. simpl.
      destruct k as [|k].
      * rewrite take_0. destruct (Ht (above ++ [c])) as [E | (N & _)]; congruence.
      * replace (above ++ c :: take (S k) rest) with ((above ++ [c]) ++ take (S k) rest)
          by (rewrite <- app_assoc; reflexivity).
        apply Hd. simpl in Hk. lia.
Qed.

(** mkdir succeeds when no regular file is in the way. *)
Lemma mkdir_from_ok todo : forall above m,
  (forall k t, (1 <= k <= length todo)%nat -> m !! (above ++ take k todo) <> Some (File t)) ->
  exists m', mkdir_from above todo m = Some m'.
Proof.
  induction todo as [|c rest IH]; intros above m Hclear; simpl.
  - eauto.
  - assert (Hc : forall t, m !! (above ++ [c]) <> Some (File t)).
    { intros t. apply (Hclear 1%nat t). simpl. lia. }
    assert (Hnext : forall m1,
              (forall q, m1 !! q = m !! q \/ m1 !! q = Some Dir) ->
              exists m', mkdir_from (above ++ [c]) rest m1 = Some m').
    { intros m1 Hm1. apply IH. intros k t Hk.
      rewrite <- app_assoc. change ([c] ++ take k rest) with (take (S k) (c :: rest)).
      destruct (Hm1 (above ++ take (S k) (c :: rest))) as [-> | ->]; [|discriminate].
      apply Hclear. simpl. lia. }
    destruct (m !! (above ++ [c])) as [[t|]|] eqn:E.
    + exfalso. exact (Hc t eq_refl).
    + apply Hnext. auto.
    + apply Hnext. intros q. destruct (decide (q = above ++ [c])) as [->|Hne].
      * right. apply lookup_insert_eq.
      * left. apply lookup_insert_ne. congruence.
Qed.

(** mkdir changes nothing when the directories are there. *)
Lemma mkdir_from_ready todo : forall above m,
  (forall k, (1 <= k <= length todo)%nat -> m !! (above ++ take k todo) = Some Dir) ->
  mkdir_from above todo m = Some m.
Proof.
  induction todo as [|c rest IH]; intros above m Hready; simpl; [reflexivity|].
  pose proof (Hready 1%nat ltac:(simpl; lia)) as H1.
  change (take 1 (c :: rest)) with [c] in H1. rewrite H1.
  apply IH. intros k Hk. rewrite <- app_assoc.
  apply (Hready (S k)). simpl. lia.
Qed.

Lemma mkdir_parents_inv d w w' :
  mkdir_parents d w = (Ok tt, w') ->
  (forall (S : path -> Prop) p, S p -> d `prefix_of` p -> step S w w') /\
  dirs_ready d (fs w').
Proof.
  unfold mkdir_parents. destruct (mkdir_from [] d (fs w)) as [m|] eqn:E; [|discriminate].
  intros [= <-]. destruct (mkdir_from_inv _ _ _ _ E) as [Ht Hd].
  split; [|exact Hd]. intros S p Hp Hpre. repeat split. intros q _.
  destruct (Ht q) as [Eq | (N & D & k & _ & ->)]; [left; exact Eq|].
  right. repeat split; [exact N | exact D|]. exists p. split; [exact Hp|].
  etransitivity; [apply prefix_take | exact Hpre].
Qed.

Lemma parent_prefix (p : path) : parent p `prefix_of` p.
Proof.
  destruct (decide (p = [])) as [->|Hp]; [reflexivity|].
  destruct (exists_last Hp) as (d & name & ->).
  unfold parent. rewrite removelast_last. apply prefix_app_r. reflexivity.
Qed.

Lemma mkdir_parents_ok p w :
  dirs_clear p (fs w) -> exists w', mkdir_parents p w = (Ok tt, w').
Proof.
  intros Hclear. unfold mkdir_parents.
  destruct (mkdir_from_ok p [] (fs w)) as [m ->]; [|eauto].
  intros k t Hk. apply Hclear, Hk.
Qed.

Lemma mkdir_parents_ready p w : dirs_ready p (fs w) -> mkdir_parents p w = (Ok tt, w).
Proof.
  intros Hready. unfold mkdir_parents.
  rewrite (mkdir_from_ready p [] (fs w)) by exact Hready.
  rewrite set_fs_same. reflexivity.
Qed.

(** A successful write_text leaves the text at [p] and touches no other
    file. *)
Lemma write_text_inv p text w w' :
  write_text p text w = (Ok tt, w') ->
  step (eq p) w w' /\ fs w' !! p = Some (File text).
Proof.
  unfold write_text. intros H. apply bind_inv in H as ([] & w1 & Hmk & Hwr).
  apply mkdir_parents_inv in Hmk as [Hstep _].
  unfold path_write_text in Hwr.
  assert (Hw' : w' = set_fs (<[p := File text]> (fs w1)) w1)
    by (destruct (fs w1 !! p) as [[t|]|]; congruence).
  subst w'. split; [|apply lookup_insert_eq].
  eapply step_trans; [exact (Hstep (eq p) p eq_refl (parent_prefix p))|].
  repeat split. intros q Hq. left. apply lookup_insert_ne. exact Hq.
Qed.

(** With its directory in place and no directory at [p], write_text
    succeeds and stores the text. *)
Lemma write_text_ready p text w :
  dirs_ready (parent p) (fs w) -> fs w !! p <> Some Dir ->
  write_text p text w = (Ok tt, set_fs (<[p := File text]> (fs w)) w).
Proof.
  intros Hready Hp. unfold write_text.
  rewrite (bind_ok _ _ _ _ _ (mkdir_parents_ready _ _ Hready)).
  unfold path_write_text. destruct (fs w !! p) as [[t|]|]; congruence.
Qed.

(** C8. Round trip of the snapshot marker: once write_version has written
    the date [d] of the calendar, in either mode, parse_snapshot_date
    returns exactly [d]. *)
Theorem snapshot_marker_round_trip (d : date) (download_html : bool) (w w' : world) :
  valid_date d ->
  write_version d download_html w = (Ok tt, w') ->
  parse_snapshot_date w' = (Ok d, w').
Proof.
  intros Hv Hw. apply write_text_inv in Hw as [_ Hfile].
  unfold parse_snapshot_date.
  rewrite (bind_ok _ _ _ _ _ (path_exists_eq _ _)).
  rewrite Hfile. rewrite bool_decide_eq_true_2 by eauto. cbn [negb].
  assert (Hread : read_text VERSION_FILE w' = (Ok (version_text d download_html), w'))
    by (unfold read_text; rewrite Hfile; reflexivity).
  rewrite (bind_ok _ _ _ _ _ Hread).
  rewrite (scan_version_text d download_html Hv). reflexivity.
Qed.

(** Witness for C8: a leap day written into the sample checkout. *)
Lemma snapshot_marker_round_trip_witness :
  parse_snapshot_date (snd (write_version (Date 2024 2 29) true sample_world))
  = (Ok (Date 2024 2 29), snd (write_version (Date 2024 2 29) true sample_world)).
Proof.
  apply (snapshot_marker_round_trip (Date 2024 2 29) true sample_world).
  - reflexivity.
  - vm_compute. reflexivity.
Defined.

(** ** sync_library *)

Lemma mkdir_from_deeper todo : forall above m m' q,
  mkdir_from above todo m = Some m' ->
  (length above + length todo < length q)%nat ->
  m' !! q = m !! q.
Proof.
  induction todo as [|c rest IH]; intros above m m' q H Hlen; simpl in H.
  - congruence.
  - assert (Hq : above ++ [c] <> q).
    { intros <-. rewrite length_app in Hlen. simpl in Hlen. lia. }
    assert (Hlen' : (length (above ++ [c]) + length rest < length q)%nat).
    { rewrite length_app. simpl in *. lia. }
    destruct (m !! (above ++ [c])) as [[t|]|]; [discriminate| |].
    + eapply IH; eassumption.
    + rewrite (IH _ _ _ _ H Hlen'). apply lookup_insert_ne, Hq.
Qed.

Lemma parent_in_dir d name : parent (d ++ [name]) = d.
Proof. apply removelast_last. Qed.

(** Making the directory of a writable library makes it ready. *)
Lemma mkdir_lib_dir lib w :
  lib_dir_writable lib w ->
  exists w1, mkdir_parents (lib_dir lib) w = (Ok tt, w1) /\
             lib_dir_ready lib w1 /\ net w1 = net w.
Proof.
  intros [Hclear Hfiles].
  destruct (mkdir_parents_ok _ _ Hclear) as [w1 Hmk].
  exists w1. split; [exact Hmk|].
  destruct (mkdir_parents_inv _ _ _ Hmk) as [Hstep Hready].
  destruct (Hstep (eq (lib_dir lib)) _ eq_refl (reflexivity _)) as (_ & _ & Hnet & _).
  split; [split; [exact Hready|] | exact Hnet].
  intros f Hf. unfold mkdir_parents in Hmk.
  destruct (mkdir_from [] (lib_dir lib) (fs w)) as [m|] eqn:E; [|discriminate].
  injection Hmk as <-. unfold set_fs. cbn [fs].
  rewrite (mkdir_from_deeper _ _ _ _ (lib_dir lib ++ [f]) E).
  - apply Hfiles, Hf.
  - rewrite length_app. simpl. lia.
Qed.

(** Writing one of the files of a ready library. *)
Lemma write_lib_file lib f text w :
  lib_dir_ready lib w -> In f LIB_FILES ->
  exists w', write_text (lib_dir lib ++ [f]) text w = (Ok tt, w') /\
             lib_dir_ready lib w' /\ net w' = net w /\
             fs w' !! (lib_dir lib ++ [f]) = Some (File text) /\
             forall g, g <> f -> fs w' !! (lib_dir lib ++ [g]) = fs w !! (lib_dir lib ++ [g]).
Proof.
  intros [Hready Hfiles] Hf.
  eexists. split.
  - apply write_text_ready; [rewrite parent_in_dir; exact Hready | apply Hfiles, Hf].
  - unfold lib_dir_ready, dirs_ready, set_fs. cbn [fs net]. split; [split|].
    + intros k Hk. rewrite lookup_insert_ne; [apply Hready, Hk|].
      intros Heq. apply (f_equal length) in Heq.
      rewrite length_app, length_take in Heq. simpl in Heq. lia.
    + intros g Hg. destruct (decide (g = f)) as [->|Hne].
      * rewrite lookup_insert_eq. discriminate.
      * rewrite lookup_insert_ne; [apply Hfiles, Hg|].
        intros Heq. apply app_inv_head in Heq. congruence.
    + split; [reflexivity|]. split; [apply lookup_insert_eq|].
      intros g Hne. apply lookup_insert_ne.
      intros Heq. apply app_inv_head in Heq. congruence.
Qed.

Lemma try_download_eq url w :
  try_download url w =
    match net w url with
    | Fetched body => (Ok (true, body), w)
    | UrlError msg => (Ok (false, msg), w)
    | FetchRaises e => (Raise e, w)
    end.
Proof. unfold try_download, bind, urlopen_read. destruct (net w url); reflexivity. Qed.

Ltac write_lib_step lib f text Hready :=
  let w' := fresh "w" in
  let Hwr := fresh "Hwr" in
  let Hready' := fresh "Hready" in
  let Hnet' := fresh "Hnet" in
  let Hfile' := fresh "Hfile" in
  let Hother' := fresh "Hother" in
  destruct (write_lib_file lib f text _ Hready ltac:(simpl; tauto))
    as (w' & Hwr & Hready' & Hnet' & Hfile' & Hother');
  rewrite (bind_ok _ _ _ _ _ Hwr).

(** The download block on a ready library: it raises nothing as long as
    the fetches raise nothing but URLError, and records what failed. *)
Lemma download_pages_ok lib version metadata w :
  lib_dir_ready lib w ->
  fetch_raises (net w (docs_rs_crate_url lib version)) = false ->
  fetch_raises (net w (docs_rs_rustdoc_url lib version)) = false ->
  let c := net w (docs_rs_crate_url lib version) in
  let r := net w (docs_rs_rustdoc_url lib version) in
  exists w',
    download_pages lib version metadata w
      = (Ok (metadata ++ [("downloaded", JBool (is_fetched c && is_fetched r))]), w') /\
    lib_dir_ready lib w' /\ net w' = net w /\
    (is_fetched c && is_fetched r = false ->
     fs w' !! (lib_dir lib ++ ["DOWNLOAD_STATUS.txt"]) = Some (File (status_text c r))).
Proof.
  intros Hready Hc Hr c r. unfold download_pages.
  pose proof (try_download_eq (docs_rs_crate_url lib version) w) as Hd1.
  pose proof (try_download_eq (docs_rs_rustdoc_url lib version) w) as Hd2.
  fold c in Hd1, Hc. fold r in Hd2, Hr.
  destruct c as [cb|cm|ce]; [| |discriminate Hc];
    destruct r as [rb|rm|re]; try discriminate Hr;
    rewrite (bind_ok _ _ _ _ _ Hd1); cbv beta iota;
    rewrite (bind_ok _ _ _ _ _ Hd2); cbv beta iota.
  - write_lib_step lib "docsrs-crate.html" cb Hready.
    assert (Hd : net w0 (docs_rs_rustdoc_url lib version) = net w (docs_rs_rustdoc_url lib version))
      by (rewrite Hnet; reflexivity).
    write_lib_step lib "docsrs-rustdoc.html" rb Hready0.
    eexists. split; [reflexivity|]. split; [exact Hready1|].
    split; [congruence | discriminate].
  - write_lib_step lib "docsrs-crate.html" cb Hready.
    rewrite (bind_ok _ _ _ _ _ (eq_refl : ret tt w0 = (Ok tt, w0))).
    write_lib_step lib "DOWNLOAD_STATUS.txt"
      (download_status_text true cb false rm) Hready0.
    eexists. split; [reflexivity|]. split; [exact Hready1|].
    split; [congruence | intros _; exact Hfile0].
  - rewrite (bind_ok _ _ _ _ _ (eq_refl : ret tt w = (Ok tt, w))).
    write_lib_step lib "docsrs-rustdoc.html" rb Hready.
    write_lib_step lib "DOWNLOAD_STATUS.txt"
      (download_status_text false cm true rb) Hready0.
    eexists. split; [reflexivity|]. split; [exact Hready1|].
    split; [congruence | intros _; exact Hfile0].
  - rewrite (bind_ok _ _ _ _ _ (eq_refl : ret tt w = (Ok tt, w))).
    rewrite (bind_ok _ _ _ _ _ (eq_refl : ret tt w = (Ok tt, w))).
    write_lib_step lib "DOWNLOAD_STATUS.txt"
      (download_status_text false cm false rm) Hready.
    eexists. split; [reflexivity|]. split; [exact Hready0|].
    split; [congruence | intros _; exact Hfile].
Qed.

(** Making a directory leaves its entries as they were. *)
Lemma mkdir_parents_entries d f w w' :
  mkdir_parents d w = (Ok tt, w') -> fs w' !! (d ++ [f]) = fs w !! (d ++ [f]).
Proof.
  unfold mkdir_parents. destruct (mkdir_from [] d (fs w)) as [m|] eqn:E; [|discriminate].
  intros [= <-]. unfold set_fs. cbn [fs].
  apply (mkdir_from_deeper _ _ _ _ _ E). rewrite length_app. simpl. lia.
Qed.

(** Counterexample to C4 as stated: the connection is made and the read
    of the response runs into the timeout.  The exception is no URLError,
    try_download does not catch it, and sync_library raises it; neither
    DOWNLOAD_STATUS.txt nor metadata.json is written, and the whole sync
    raises as well. *)
Lemma read_timeout_escapes_sync_library :
  fst (try_download "https://docs.rs/crate/tokio/1.38.0" stalled_world) = Raise READ_TIMEOUT /\
  fst (sync_library (mkLibrary "tokio" "tokio" "tokio") "1.38.0" true stalled_world)
    = Raise READ_TIMEOUT /\
  fs (snd (sync_library (mkLibrary "tokio" "tokio" "tokio") "1.38.0" true stalled_world))
    !! (lib_dir (mkLibrary "tokio" "tokio" "tokio") ++ ["DOWNLOAD_STATUS.txt"]) = None /\
  fs (snd (sync_library (mkLibrary "tokio" "tokio" "tokio") "1.38.0" true stalled_world))
    !! metadata_path (mkLibrary "tokio" "tokio" "tokio") = None /\
  fst (sync_snapshot true stalled_world) = Raise READ_TIMEOUT.
Proof.
  split; [vm_compute; reflexivity|].
  split; [vm_compute; reflexivity|].
  split; [vm_compute; reflexivity|].
  split; vm_compute; reflexivity.
Qed.

(** C4, amended. With downloading enabled and the library's directory
    writable:
    - a fetch that fails with URLError makes try_download return the text
      of the error and raise nothing;
    - when each page is either fetched or fails with URLError, and at least
      one fails, sync_library raises nothing: DOWNLOAD_STATUS.txt holds the
      text of the error for each failed page (and [ok] for a fetched one),
      and metadata.json is written, with [downloaded] false;
    - when a fetch raises an exception of another class, sync_library
      raises that exception (the one of the crate page when both raise),
      and no entry of the library's directory is written: no page, no
      DOWNLOAD_STATUS.txt and no metadata.json. *)
Theorem sync_library_records_network_failure (lib : Library) (version : string) (w : world) :
  lib_dir_writable lib w ->
  let c := net w (docs_rs_crate_url lib version) in
  let r := net w (docs_rs_rustdoc_url lib version) in
  (forall url msg, net w url = UrlError msg -> try_download url w = (Ok (false, msg), w)) /\
  (fetch_raises c = false -> fetch_raises r = false ->
   is_url_error c || is_url_error r = true ->
   exists w',
     sync_library lib version true w = (Ok (row_of lib version), w') /\
     fs w' !! (lib_dir lib ++ ["DOWNLOAD_STATUS.txt"]) = Some (File (status_text c r)) /\
     fs w' !! metadata_path lib
       = Some (File (json_dumps (full_metadata lib version false) +:+ nl))) /\
  (forall e,
     c = FetchRaises e \/ (fetch_raises c = false /\ r = FetchRaises e) ->
     exists w',
       sync_library lib version true w = (Raise e, w') /\
       forall name, fs w' !! (lib_dir lib ++ [name]) = fs w !! (lib_dir lib ++ [name])).
Proof.
  intros Hw c r. split; [|split].
  { intros url msg Hurl. rewrite try_download_eq, Hurl. reflexivity. }
  - intros Hc Hr Herr.
    destruct (mkdir_lib_dir lib w Hw) as (w1 & Hmk & Hready1 & Hnet1).
    assert (Hfail : is_fetched c && is_fetched r = false)
      by (destruct c, r; try reflexivity; discriminate).
    destruct (download_pages_ok lib version (base_metadata lib version) w1 Hready1)
      as (w2 & Hdl & Hready2 & Hnet2 & Hstatus).
    { rewrite Hnet1. exact Hc. }
    { rewrite Hnet1. exact Hr. }
    rewrite Hnet1 in Hdl, Hstatus. fold c r in Hdl, Hstatus. rewrite Hfail in Hdl.
    specialize (Hstatus Hfail).
    unfold sync_library. cbv zeta.
    rewrite (bind_ok _ _ _ _ _ Hmk).
    fold (base_metadata lib version). cbv iota.
    rewrite (bind_ok _ _ _ _ _ Hdl).
    write_lib_step lib "metadata.json"
      (json_dumps (base_metadata lib version ++ [("downloaded", JBool false)]) +:+ nl) Hready2.
    exists w0. split; [reflexivity|]. split.
    + rewrite Hother by discriminate. exact Hstatus.
    + exact Hfile.
  - intros e He.
    destruct (mkdir_lib_dir lib w Hw) as (w1 & Hmk & _ & Hnet1).
    exists w1. split; [|intros name; exact (mkdir_parents_entries _ _ _ _ Hmk)].
    unfold sync_library. cbv zeta.
    rewrite (bind_ok _ _ _ _ _ Hmk). cbv iota.
    apply bind_raise. unfold download_pages.
    pose proof (try_download_eq (docs_rs_crate_url lib version) w1) as Hd1.
    pose proof (try_download_eq (docs_rs_rustdoc_url lib version) w1) as Hd2.
    rewrite Hnet1 in Hd1, Hd2. fold c in Hd1. fold r in Hd2.
    destruct He as [Hc | [Hc Hr]].
    + rewrite Hc in Hd1. apply bind_raise, Hd1.
    + rewrite Hr in Hd2.
      destruct c as [cb|cm|ce]; [| |discriminate Hc];
        rewrite (bind_ok _ _ _ _ _ Hd1); apply bind_raise, Hd2.
Qed.

(** Witness for C4, amended: the sample checkout has no network at all,
    and on the stalled network the timeout of the read comes out of
    sync_library. *)
Lemma sync_library_records_network_failure_witness :
  (exists w',
     sync_library (mkLibrary "tokio" "tokio" "tokio") "1.38.0" true sample_world
       = (Ok (row_of (mkLibrary "tokio" "tokio" "tokio") "1.38.0"), w') /\
     fs w' !! (lib_dir (mkLibrary "tokio" "tokio" "tokio") ++ ["DOWNLOAD_STATUS.txt"])
       = Some (File (status_text (UrlError UNREACHABLE) (UrlError UNREACHABLE))) /\
     fs w' !! metadata_path (mkLibrary "tokio" "tokio" "tokio")
       = Some (File (json_dumps (full_metadata (mkLibrary "tokio" "tokio" "tokio") "1.38.0" false)
                     +:+ nl))) /\
  (exists w',
     sync_library (mkLibrary "tokio" "tokio" "tokio") "1.38.0" true stalled_world
       = (Raise READ_TIMEOUT, w') /\
     fs w' !! (lib_dir (mkLibrary "tokio" "tokio" "tokio") ++ ["metadata.json"]) = None).
Proof.
  assert (Hw : forall network,
            lib_dir_writable (mkLibrary "tokio" "tokio" "tokio")
              (World (root sample_world) (fs sample_world) (today sample_world) network
                     (stdout sample_world))).
  { intros network. split.
    - intros k t Hk. simpl in Hk.
      assert (Hcases : (k = 1 \/ k = 2 \/ k = 3 \/ k = 4 \/ k = 5)%nat) by lia.
      destruct Hcases as [-> | [-> | [-> | [-> | ->]]]]; vm_compute; discriminate.
    - intros f Hf. simpl in Hf.
      destruct Hf as [<- | [<- | [<- | [<- | []]]]]; vm_compute; discriminate. }
  split.
  - apply (proj1 (proj2 (sync_library_records_network_failure
                           (mkLibrary "tokio" "tokio" "tokio") "1.38.0" sample_world
                           (Hw (net sample_world)))));
      reflexivity.
  - destruct (proj2 (proj2 (sync_library_records_network_failure
                              (mkLibrary "tokio" "tokio" "tokio") "1.38.0" stalled_world
                              (Hw (net stalled_world)))) READ_TIMEOUT)
      as (w' & Hraise & Hsame); [left; reflexivity|].
    exists w'. split; [exact Hraise|]. rewrite Hsame. reflexivity.
Defined.

(** ** Matching the lockfile *)

Lemma str_app_cons x (a b : string) : String x a +:+ b = String x (a +:+ b).
Proof. reflexivity. Qed.

Lemma str_app_assoc (a b c : string) : (a +:+ b) +:+ c = a +:+ b +:+ c.
Proof.
  induction a as [|x a IH]; [reflexivity|].
  rewrite !str_app_cons, IH. reflexivity.
Qed.

Lemma str_length_app (a b : string) :
  String.length (a +:+ b) = (String.length a + String.length b)%nat.
Proof.
  induction a as [|x a IH]; [reflexivity|].
  rewrite str_app_cons. simpl. rewrite IH. reflexivity.
Qed.

Lemma match_literal_app p : forall s r, match_literal p s = Some r -> s = p +:+ r.
Proof.
  induction p as [|a p IH]; intros s r H; simpl in H.
  - injection H as <-. reflexivity.
  - destruct s as [|b s]; [discriminate|].
    destruct (bool_decide (a = b)) eqn:E; [|discriminate].
    apply bool_decide_eq_true in E. subst b. rewrite str_app_cons. f_equal. apply IH, H.
Qed.

Lemma span_not_quote_app s : forall h t, span_not_quote s = (h, t) -> s = h +:+ t.
Proof.
  induction s as [|c s IH]; intros h t H; simpl in H.
  - injection H as <- <-. reflexivity.
  - destruct (bool_decide (c = DQ)).
    + injection H as <- <-. reflexivity.
    + destruct (span_not_quote s) as [h' t']. injection H as <- <-.
      rewrite str_app_cons. f_equal. apply IH. reflexivity.
Qed.

(** A match of the pattern is the text of a package entry. *)
Lemma match_package_text s name version rest :
  match_package s = Some (name, version, rest) ->
  s = PACKAGE_HEAD +:+ name +:+ PACKAGE_MID +:+ version +:+ dq +:+ rest.
Proof.
  unfold match_package.
  destruct (match_literal PACKAGE_HEAD s) as [s1|] eqn:E1; [|discriminate].
  destruct (span_not_quote s1) as [n s2] eqn:E2.
  destruct (is_empty n); [discriminate|].
  destruct (match_literal PACKAGE_MID s2) as [s3|] eqn:E3; [|discriminate].
  destruct (span_not_quote s3) as [v s4] eqn:E4.
  destruct (is_empty v); [discriminate|].
  destruct (match_literal dq s4) as [s5|] eqn:E5; [|discriminate].
  intros [= <- <- <-].
  apply match_literal_app in E1, E3, E5. apply span_not_quote_app in E2, E4.
  congruence.
Qed.

Lemma match_package_shorter s name version rest :
  match_package s = Some (name, version, rest) ->
  (String.length rest < String.length s)%nat.
Proof.
  intros H. apply match_package_text in H. subst s.
  rewrite !str_length_app. change (String.length dq) with 1%nat. lia.
Qed.


(** The fuel of finditer is enough: more of it finds the same matches. *)
Lemma finditer_fuel_enough fuel : forall s fuel',
  (String.length s < fuel)%nat -> (String.length s < fuel')%nat ->
  finditer_fuel fuel s = finditer_fuel fuel' s.
Proof.
  induction fuel as [|fuel IH]; intros s fuel' H H'; [lia|].
  destruct fuel' as [|fuel']; [lia|]. simpl.
  destruct (match_package s) as [[[n v] rest]|] eqn:E.
  - apply match_package_shorter in E. f_equal. apply IH; lia.
  - destruct s as [|c s]; [reflexivity|]. simpl in H, H'. apply IH; lia.
Qed.

(** ** Collecting and selecting versions *)

Lemma foldl_add_version matches : forall versions name,
  default [] (foldl add_version versions matches !! name)
  = default [] (versions !! name) ++ versions_of name matches.
Proof.
  induction matches as [|[n v] matches IH]; intros versions name; simpl.
  - unfold versions_of. simpl. rewrite app_nil_r. reflexivity.
  - rewrite IH. unfold add_version, versions_of. simpl.
    destruct (bool_decide (n = name)) eqn:E.
    + apply bool_decide_eq_true in E. subst n.
      rewrite lookup_insert_eq. simpl. rewrite <- app_assoc. reflexivity.
    + apply bool_decide_eq_false in E.
      rewrite lookup_insert_ne by exact E. reflexivity.
Qed.

Lemma collect_versions_lookup text name :
  default [] (collect_versions text !! name) = versions_of name (finditer text).
Proof. unfold collect_versions. rewrite foldl_add_version, lookup_empty. reflexivity. Qed.

Lemma versions_of_In name version matches :
  In version (versions_of name matches) <-> In (name, version) matches.
Proof.
  unfold versions_of. rewrite in_map_iff. split.
  - intros ([n v] & <- & Hin). apply filter_In in Hin as [Hin E].
    apply bool_decide_eq_true in E. simpl in E. subst n. exact Hin.
  - intros Hin. exists (name, version). split; [reflexivity|].
    apply filter_In. split; [exact Hin|]. apply bool_decide_eq_true. reflexivity.
Qed.

Lemma insert_keyed_In {A K} (ltb : K -> K -> bool) (x : K * A) l y :
  In y (insert_keyed ltb x l) <-> y = x \/ In y l.
Proof.
  induction l as [|z l IH]; simpl; [intuition congruence|].
  destruct (ltb (fst z) (fst x)); simpl; [rewrite IH|]; intuition congruence.
Qed.

Lemma sort_keyed_In {A K} (ltb : K -> K -> bool) (l : list (K * A)) y :
  In y (sort_keyed ltb l) <-> In y l.
Proof.
  induction l as [|x l IH]; simpl; [reflexivity|].
  rewrite insert_keyed_In, IH. intuition congruence.
Qed.

Lemma with_keys_snd candidates : forall ks,
  with_keys candidates = Ok ks -> map snd ks = candidates.
Proof.
  induction candidates as [|v rest IH]; intros ks H; simpl in H.
  - injection H as <-. reflexivity.
  - destruct (semver_key v) as [k|e]; [|discriminate].
    destruct (with_keys rest) as [ks'|e]; [|discriminate].
    injection H as <-. simpl. f_equal. apply IH. reflexivity.
Qed.




(** ** parse_cargo_lock_versions *)

(** parse_cargo_lock_versions only reads. *)
Lemma parse_cargo_lock_versions_world w : snd (parse_cargo_lock_versions w) = w.
Proof.
  unfold parse_cargo_lock_versions.
  rewrite (bind_ok _ _ _ _ _ (path_exists_eq _ _)).
  destruct (bool_decide _); simpl; [|reflexivity].
  unfold bind, read_text, lift.
  destruct (fs w !! CARGO_LOCK) as [[t|]|]; reflexivity.
Qed.

Lemma parse_cargo_lock_versions_inv w result w' :
  parse_cargo_lock_versions w = (Ok result, w') ->
  w' = w /\
  exists text, fs w !! CARGO_LOCK = Some (File text) /\
               select_versions LIBRARIES (collect_versions text) ∅ = Ok result.
Proof.
  intros H. split.
  - rewrite <- (parse_cargo_lock_versions_world w), H. reflexivity.
  - revert H. unfold parse_cargo_lock_versions.
    rewrite (bind_ok _ _ _ _ _ (path_exists_eq _ _)).
    destruct (bool_decide _); simpl; [|discriminate].
    unfold bind, read_text, lift.
    destruct (fs w !! CARGO_LOCK) as [[t|]|]; try discriminate.
    intros [= Hsel _]. eauto.
Qed.



(** C1 (the code departs from the claim). In a lockfile that pins tokio
    1.0.0 and tokio 1.0.0-alpha, parse_cargo_lock_versions selects
    1.0.0-alpha: semver_key gives the release the empty pre-release text,
    which sorts below every other text, so the release is ordered below its
    pre-release.  Under semantic-version precedence 1.0.0-alpha is lower
    than 1.0.0, and 1.0.0 is the maximum. *)
Theorem prerelease_selected_over_release :
  versions_of "tokio" (finditer prerelease_lock) = ["1.0.0"; "1.0.0-alpha"] /\
  selected_version prerelease_world "tokio" = Ok (Some "1.0.0-alpha") /\
  semver_key "1.0.0" = Ok (1, 0, 0, EmptyString) /\
  semver_key "1.0.0-alpha" = Ok (1, 0, 0, "alpha") /\
  key_ltb (1, 0, 0, EmptyString) (1, 0, 0, "alpha") = true /\
  semver_precedes "1.0.0-alpha" "1.0.0" = true /\
  semver_maximum ["1.0.0"; "1.0.0-alpha"] "1.0.0" /\
  ~ semver_maximum ["1.0.0"; "1.0.0-alpha"] "1.0.0-alpha".
Proof.
  split; [vm_compute; reflexivity|].
  split; [vm_compute; reflexivity|].
  split; [vm_compute; reflexivity|].
  split; [vm_compute; reflexivity|].
  split; [vm_compute; reflexivity|].
  split; [vm_compute; reflexivity|].
  split.
  - split; [simpl; tauto|].
    intros u [<- | [<- | []]]; vm_compute; reflexivity.
  - intros [_ Hmax]. specialize (Hmax "1.0.0" ltac:(simpl; tauto)).
    vm_compute in Hmax. discriminate Hmax.
Qed.

(** ** sync_library, from its result *)

Lemma try_download_inv url w ok body w' :
  try_download url w = (Ok (ok, body), w') ->
  w' = w /\ ok = is_fetched (net w url) /\ fetch_raises (net w url) = false.
Proof.
  rewrite try_download_eq. destruct (net w url); intros [= <- <- <-]; auto; discriminate.
Qed.

Lemma cond_write_inv (b : bool) p text w u w' :
  (if b then write_text p text else ret tt) w = (Ok u, w') -> step (eq p) w w'.
Proof.
  destruct b.
  - destruct u. intros H. apply write_text_inv in H as [H _]. exact H.
  - intros [= _ <-]. apply step_refl.
Qed.

Lemma step_in_dir d name w w' : step (eq (d ++ [name])) w w' -> step (in_dir d) w w'.
Proof. apply step_mono. intros q <-. exists name. reflexivity. Qed.

Lemma download_pages_inv lib version metadata w metadata' w' :
  download_pages lib version metadata w = (Ok metadata', w') ->
  step (in_dir (lib_dir lib)) w w' /\
  metadata' = metadata ++
    [("downloaded", JBool (is_fetched (net w (docs_rs_crate_url lib version)) &&
                           is_fetched (net w (docs_rs_rustdoc_url lib version))))].
Proof.
  unfold download_pages. intros H.
  apply bind_inv in H as ([ok_crate crate_body] & w1 & H1 & H).
  apply try_download_inv in H1 as (-> & -> & _).
  apply bind_inv in H as ([ok_rustdoc rustdoc_body] & w2 & H2 & H).
  apply try_download_inv in H2 as (-> & -> & _).
  apply bind_inv in H as (u1 & w3 & H3 & H).
  apply bind_inv in H as (u2 & w4 & H4 & H).
  apply bind_inv in H as (u3 & w5 & H5 & H).
  injection H as <- <-.
  apply cond_write_inv, step_in_dir in H3, H4, H5.
  split; [|reflexivity].
  eapply step_trans; [exact H3|]. eapply step_trans; eassumption.
Qed.

Lemma sync_library_inv lib version download_html w r w' :
  sync_library lib version download_html w = (Ok r, w') ->
  r = row_of lib version /\
  step (in_dir (lib_dir lib)) w w' /\
  fs w' !! metadata_path lib = Some (File (metadata_text lib version download_html (net w))).
Proof.
  unfold sync_library. cbv zeta. intros H.
  apply bind_inv in H as ([] & w1 & Hmk & H).
  apply mkdir_parents_inv in Hmk as [Hstep1 _].
  apply bind_inv in H as (metadata & w2 & Hmd & H).
  apply bind_inv in H as ([] & w3 & Hwr & H).
  injection H as <- <-.
  apply write_text_inv in Hwr as [Hstep3 Hfile].
  assert (Hstep1' : step (in_dir (lib_dir lib)) w w1).
  { apply (Hstep1 _ (lib_dir lib ++ ["metadata.json"])).
    - exists "metadata.json". reflexivity.
    - apply prefix_app_r. reflexivity. }
  assert (Hmid : step (in_dir (lib_dir lib)) w1 w2 /\
                 metadata = metadata_of lib version download_html (net w)).
  { destruct Hstep1' as (_ & _ & Hnet & _). unfold metadata_of. rewrite <- Hnet.
    destruct download_html.
    - apply download_pages_inv in Hmd as [Hs ->]. split; [exact Hs | reflexivity].
    - injection Hmd as <- <-. split; [apply step_refl | reflexivity]. }
  destruct Hmid as [Hstep2 ->].
  split; [reflexivity|]. split; [|exact Hfile].
  eapply step_trans; [exact Hstep1'|]. eapply step_trans; [exact Hstep2|].
  exact (step_in_dir _ "metadata.json" _ _ Hstep3).
Qed.

(** The metadata file of one library is outside the directory of a library
    with another slug. *)
Lemma metadata_path_outside lib lib' :
  slug lib <> slug lib' -> ~ in_dir (lib_dir lib') (metadata_path lib).
Proof.
  intros Hne [name Heq]. unfold metadata_path, lib_dir in Heq.
  rewrite <- app_assoc in Heq. apply app_inv_head in Heq.
  injection Heq as Hs _. exact (Hne Hs).
Qed.

(** The loop of sync_snapshot: it works inside the directories of the
    libraries only, returns their rows in order, and leaves a metadata file
    for each. *)
Lemma sync_all_inv versions download_html libs : forall w records w',
  NoDup (map slug libs) ->
  for_collect libs (sync_one versions download_html) w = (Ok records, w') ->
  step (in_lib_dirs libs) w w' /\
  Forall2 (fun lib r => exists v, versions !! crate lib = Some v /\ r = row_of lib v)
          libs records /\
  forall lib, In lib libs ->
    exists v, versions !! crate lib = Some v /\
              fs w' !! metadata_path lib
                = Some (File (metadata_text lib v download_html (net w))).
Proof.
  induction libs as [|lib libs IH]; intros w records w' Hnd H; simpl in H.
  - injection H as <- <-. split; [apply step_refl|]. split; [constructor | intros lib []].
  - apply NoDup_cons in Hnd as [Hfresh Hnd].
    apply bind_inv in H as (r & w1 & Hone & H).
    apply bind_inv in H as (rs & w2 & Hrest & H).
    injection H as <- <-.
    unfold sync_one in Hone. apply bind_inv in Hone as (v & w0 & Hget & Hone).
    assert (Hv : versions !! crate lib = Some v /\ w0 = w).
    { unfold dict_get in Hget. destruct (versions !! crate lib) as [v'|]; [|discriminate].
      injection Hget as <- <-. auto. }
    destruct Hv as [Hv ->].
    apply sync_library_inv in Hone as (-> & Hstep1 & Hfile).
    destruct (IH _ _ _ Hnd Hrest) as (Hstep2 & Hrows & Hfiles).
    assert (Hnet : net w1 = net w) by apply Hstep1.
    split; [|split].
    + eapply step_trans.
      * eapply step_mono; [|exact Hstep1]. intros q Hq. exists lib. split; [left; reflexivity | exact Hq].
      * eapply step_mono; [|exact Hstep2]. intros q (lib' & Hin & Hq). exists lib'. split; [right; exact Hin | exact Hq].
    + constructor; [eauto | exact Hrows].
    + intros lib' [<- | Hin].
      * exists v. split; [exact Hv|].
        destruct Hstep2 as (_ & _ & _ & _ & Ht).
        eapply touches_file; [exact Ht | | exact Hfile].
        intros (lib' & Hin & Hq). revert Hq. apply metadata_path_outside.
        intros Heq. apply Hfresh. rewrite Heq. apply list_elem_of_In, in_map, Hin.
      * destruct (Hfiles lib' Hin) as (v' & Hv' & Hfile'). exists v'.
        rewrite <- Hnet. auto.
Qed.

(** ** sync_snapshot, from its result *)

Lemma slugs_distinct : NoDup (map slug LIBRARIES).
Proof. apply (bool_decide_unpack _). vm_compute. exact I. Qed.

Lemma metadata_path_not_status lib :
  metadata_path lib <> VERSION_FILE /\ metadata_path lib <> INDEX_FILE.
Proof. split; intros H; apply (f_equal length) in H; discriminate H. Qed.

Lemma status_not_in_lib_dirs libs :
  ~ in_lib_dirs libs VERSION_FILE /\ ~ in_lib_dirs libs INDEX_FILE.
Proof.
  split; intros (lib & _ & name & H); apply (f_equal length) in H;
    unfold lib_dir in H; rewrite !length_app in H; discriminate H.
Qed.

Lemma sync_snapshot_inv download_html w n w' :
  sync_snapshot download_html w = (Ok n, w') ->
  exists versions records,
    n = 0 /\
    fst (parse_cargo_lock_versions w) = Ok versions /\
    Forall2 (fun lib r => exists v, versions !! crate lib = Some v /\ r = row_of lib v)
            LIBRARIES records /\
    (forall lib, In lib LIBRARIES ->
       exists v, versions !! crate lib = Some v /\
                 fs w' !! metadata_path lib
                   = Some (File (metadata_text lib v download_html (net w)))) /\
    fs w' !! VERSION_FILE = Some (File (version_text (today w) download_html)) /\
    fs w' !! INDEX_FILE = Some (File (index_text (today w) records download_html)) /\
    touches sync_paths (fs w) (fs w').
Proof.
  unfold sync_snapshot. intros H.
  apply bind_inv in H as (day & w0 & Hday & H). injection Hday as <- <-.
  apply bind_inv in H as (versions & w1 & Hparse & H).
  pose proof (parse_cargo_lock_versions_inv _ _ _ Hparse) as [-> _].
  apply bind_inv in H as (records & w2 & Hloop & H).
  apply bind_inv in H as ([] & w3 & Hver & H).
  apply bind_inv in H as ([] & w4 & Hidx & H).
  apply bind_inv in H as ([] & w5 & Hpr & H).
  injection H as <- <-. rewrite print_printed in Hpr. injection Hpr as <-.
  fold (sync_one versions download_html) in Hloop.
  destruct (sync_all_inv _ _ _ _ _ _ slugs_distinct Hloop) as (Hstep2 & Hrows & Hfiles).
  apply write_text_inv in Hver as [Hstep3 Hverfile].
  apply write_text_inv in Hidx as [Hstep4 Hidxfile].
  exists versions, records.
  split; [reflexivity|]. split; [rewrite Hparse; reflexivity|]. split; [exact Hrows|].
  pose proof (proj2 (proj2 (proj2 (proj2 Hstep3)))) as Ht3.
  pose proof (proj2 (proj2 (proj2 (proj2 Hstep4)))) as Ht4.
  split; [|split; [|split]].
  - intros lib Hlib. destruct (Hfiles lib Hlib) as (v & Hv & Hfile).
    exists v. split; [exact Hv|]. rewrite fs_printed.
    destruct (metadata_path_not_status lib) as [Hnv Hni].
    eapply touches_file; [exact Ht4 | congruence |].
    eapply touches_file; [exact Ht3 | congruence | exact Hfile].
  - rewrite fs_printed. eapply touches_file; [exact Ht4 | | exact Hverfile].
    intros Heq. apply (f_equal (fun p => last p)) in Heq. discriminate Heq.
  - rewrite fs_printed. exact Hidxfile.
  - rewrite fs_printed.
    eapply touches_trans; [|eapply touches_trans].
    + eapply touches_mono; [|apply Hstep2]. intros q Hq. right. right. exact Hq.
    + eapply touches_mono; [|exact Ht3]. intros q <-. left. reflexivity.
    + eapply touches_mono; [|exact Ht4]. intros q <-. right. left. reflexivity.
Qed.

(** The sync of the sample checkout in link mode succeeds. *)
Lemma sample_sync : sync_snapshot false sample_world = (Ok 0, synced_world).
Proof.
  unfold synced_world.
  assert (H : fst (sync_snapshot false sample_world) = Ok 0) by (vm_compute; reflexivity).
  destruct (sync_snapshot false sample_world) as [r w']. simpl in H. subst r. reflexivity.
Qed.

(** Counterexample to C5 as stated: in link mode, the default, the sync of
    the sample checkout succeeds and the metadata record of tokio holds the
    package identifier, the version and the two URLs, but no download
    outcome. *)
Lemma metadata_without_download_outcome :
  fst (sync_snapshot false sample_world) = Ok 0 /\
  fs synced_world !! metadata_path (mkLibrary "tokio" "tokio" "tokio")
    = Some (File (json_dumps (base_metadata (mkLibrary "tokio" "tokio" "tokio") "1.38.0")
                  +:+ nl)) /\
  contains "downloaded"
    (json_dumps (base_metadata (mkLibrary "tokio" "tokio" "tokio") "1.38.0") +:+ nl) = false.
Proof.
  split; [vm_compute; reflexivity|].
  split; vm_compute; reflexivity.
Qed.

(** C5, amended. After a successful sync every tracked library has a
    metadata.json whose record holds the package identifier, the version
    chosen from the lockfile and the two docs.rs URLs; the download outcome
    is part of the record exactly when downloading is enabled. *)
Theorem sync_writes_metadata (download_html : bool) (w : world) (n : Z) (w' : world) :
  sync_snapshot download_html w = (Ok n, w') ->
  exists versions,
    fst (parse_cargo_lock_versions w) = Ok versions /\
    forall lib, In lib LIBRARIES ->
      exists version,
        versions !! crate lib = Some version /\
        fs w' !! metadata_path lib =
          Some (File (json_dumps (
            [("crate", JStr (crate lib));
             ("version", JStr version);
             ("docs_rs_crate", JStr (docs_rs_crate_url lib version));
             ("docs_rs_rustdoc", JStr (docs_rs_rustdoc_url lib version))] ++
            (if download_html then
               [("downloaded",
                 JBool (is_fetched (net w (docs_rs_crate_url lib version)) &&
                        is_fetched (net w (docs_rs_rustdoc_url lib version))))]
             else [])) +:+ nl)).
Proof.
  intros H. apply sync_snapshot_inv in H as (versions & records & _ & Hparse & _ & Hfiles & _).
  exists versions. split; [exact Hparse|]. intros lib Hlib.
  destruct (Hfiles lib Hlib) as (v & Hv & Hfile). exists v. split; [exact Hv|].
  rewrite Hfile. destruct download_html; reflexivity.
Qed.

(** Witness for C5, amended: the sample checkout in link mode. *)
Lemma sync_writes_metadata_witness :
  exists versions,
    fst (parse_cargo_lock_versions sample_world) = Ok versions /\
    forall lib, In lib LIBRARIES ->
      exists version,
        versions !! crate lib = Some version /\
        fs synced_world !! metadata_path lib =
          Some (File (json_dumps (base_metadata lib version ++ []) +:+ nl)).
Proof.
  apply (sync_writes_metadata false sample_world 0 synced_world).
  exact sample_sync.
Defined.

(** ** The index *)

Lemma str_app_nil_r (s : string) : s +:+ EmptyString = s.
Proof.
  induction s as [|c s IH]; [reflexivity|].
  rewrite str_app_cons, IH. reflexivity.
Qed.

Lemma occurs_in_refl s : occurs_in s s.
Proof.
  exists EmptyString, EmptyString. rewrite str_app_nil_r. reflexivity.
Qed.

Lemma occurs_in_app_r a p s : occurs_in a s -> occurs_in a (p +:+ s).
Proof.
  intros (before & after & ->). exists (p +:+ before), after.
  rewrite str_app_assoc. reflexivity.
Qed.

Lemma occurs_in_app_l a p s : occurs_in a s -> occurs_in a (s +:+ p).
Proof.
  intros (before & after & ->). exists before, (after +:+ p).
  rewrite !str_app_assoc. reflexivity.
Qed.

Lemma join_occurs sep parts p : In p parts -> occurs_in p (join sep parts).
Proof.
  induction parts as [|x parts IH]; intros Hin; [contradiction|].
  destruct parts as [|y parts].
  - destruct Hin as [<- | []]. apply occurs_in_refl.
  - change (join sep (x :: y :: parts)) with (x +:+ sep +:+ join sep (y :: parts)).
    destruct Hin as [<- | Hin].
    + apply occurs_in_app_l, occurs_in_refl.
    + apply occurs_in_app_r, occurs_in_app_r, IH, Hin.
Qed.

(** A part of a joined text stands between two separators once the text
    is put between separators. *)
Lemma join_line sep parts p :
  In p parts -> occurs_in (sep +:+ p +:+ sep) (sep +:+ join sep parts +:+ sep).
Proof.
  induction parts as [|x parts IH]; intros Hin; [contradiction|].
  destruct parts as [|y parts].
  - destruct Hin as [<- | []]. apply occurs_in_refl.
  - change (join sep (x :: y :: parts)) with (x +:+ sep +:+ join sep (y :: parts)).
    destruct Hin as [<- | Hin].
    + exists EmptyString, (join sep (y :: parts) +:+ sep).
      rewrite !str_app_assoc. reflexivity.
    + replace (sep +:+ (x +:+ sep +:+ join sep (y :: parts)) +:+ sep)
        with ((sep +:+ x) +:+ sep +:+ join sep (y :: parts) +:+ sep)
        by (rewrite !str_app_assoc; reflexivity).
      apply occurs_in_app_r, IH, Hin.
Qed.

(** Every row handed to write_index is a line of the index. *)
Lemma index_text_rows snapshot_date records download_html r :
  In r records ->
  occurs_in (nl +:+ index_row r +:+ nl) (index_text snapshot_date records download_html).
Proof.
  intros Hin. unfold index_text. cbv zeta.
  do 27 apply occurs_in_app_r.
  match goal with
  | |- occurs_in _ (nl +:+ ?rows +:+ nl +:+ ?rest) =>
      replace (nl +:+ rows +:+ nl +:+ rest) with ((nl +:+ rows +:+ nl) +:+ rest)
        by (rewrite !str_app_assoc; reflexivity)
  end.
  apply occurs_in_app_l, join_line, in_map, Hin.
Qed.

(** The line of the index that carries the snapshot date. *)
Lemma index_text_date snapshot_date records download_html :
  occurs_in (nl +:+ "- Дата snapshot: `" +:+ isoformat snapshot_date +:+ "`" +:+ nl)
            (index_text snapshot_date records download_html).
Proof.
  unfold index_text. cbv zeta.
  do 7 apply occurs_in_app_r.
  match goal with
  | |- occurs_in ?line (nl +:+ ?a +:+ ?d +:+ ?b +:+ nl +:+ ?rest) =>
      exists EmptyString, rest
  end.
  rewrite !str_app_assoc. reflexivity.
Qed.

(** The line of the index that tells the mode. *)
Lemma index_text_mode snapshot_date records download_html :
  occurs_in (nl +:+ "- Режим: `" +:+ mode_note download_html +:+ "`" +:+ nl)
            (index_text snapshot_date records download_html).
Proof.
  unfold index_text. cbv zeta.
  do 15 apply occurs_in_app_r.
  match goal with
  | |- occurs_in ?line (nl +:+ ?a +:+ ?d +:+ ?b +:+ nl +:+ ?rest) =>
      exists EmptyString, rest
  end.
  rewrite !str_app_assoc. reflexivity.
Qed.

Lemma Forall2_In_l {A B} (P : A -> B -> Prop) xs ys x :
  Forall2 P xs ys -> In x xs -> exists y, In y ys /\ P x y.
Proof.
  induction 1 as [|x' y' xs ys Hp _ IH]; intros Hin; [contradiction|].
  destruct Hin as [<- | Hin].
  - exists y'. split; [left; reflexivity | exact Hp].
  - destruct (IH Hin) as (y & Hy & Hpy). exists y. split; [right; exact Hy | exact Hpy].
Qed.

(** A path on the way to an entry of [d] is the entry or on the way to
    [d]. *)
Lemma prefix_of_entry (q d : path) (name : string) :
  q `prefix_of` d ++ [name] -> q = d ++ [name] \/ q `prefix_of` d.
Proof.
  intros [k Hk]. destruct (decide (k = [])) as [->|Hne].
  - left. rewrite app_nil_r in Hk. congruence.
  - right. destruct (exists_last Hne) as (k' & y & ->).
    rewrite app_assoc in Hk. apply app_inj_tail in Hk as [-> _].
    exists k'. reflexivity.
Qed.

(** What a sync may make outside the paths it writes: the snapshot
    directory, the directories above it and the directories of the
    libraries. *)
Lemma on_the_way_to_sync_paths (q p : path) :
  ~ sync_paths q -> sync_paths p -> q `prefix_of` p ->
  q `prefix_of` SNAPSHOT_DIR \/ exists lib, In lib LIBRARIES /\ q = lib_dir lib.
Proof.
  intros Hq Hp Hpre. destruct Hp as [-> | [-> | (lib & Hlib & name & ->)]].
  - apply prefix_of_entry in Hpre as [-> | Hpre]; [|left; exact Hpre].
    exfalso. apply Hq. left. reflexivity.
  - apply prefix_of_entry in Hpre as [-> | Hpre]; [|left; exact Hpre].
    exfalso. apply Hq. right. left. reflexivity.
  - apply prefix_of_entry in Hpre as [-> | Hpre].
    + exfalso. apply Hq. right. right. exists lib. split; [exact Hlib|]. exists name. reflexivity.
    + apply prefix_of_entry in Hpre as [-> | Hpre]; [right; eauto | left; exact Hpre].
Qed.

(** C6. A successful sync leaves two status artifacts.  The marker VERSION
    holds the heading, the line [snapshot_date=] with the date of the day
    and the line [source=] with the mode, docsrs-html or docsrs-links.  The
    index README.md holds the line with the date of the day, the line that
    tells the mode and, for every tracked library, the table line with its
    crate, the version chosen from the lockfile, the link to its docs.rs
    crate page, the link to its rustdoc index and the path of its metadata
    file.  Apart from these two
    files and the entries of the libraries' directories no path has
    changed, except that the snapshot directory, the directories above it
    and the directories of the libraries were made where they were
    missing. *)
Theorem sync_writes_status_artifacts (download_html : bool) (w : world) (n : Z) (w' : world) :
  sync_snapshot download_html w = (Ok n, w') ->
  exists versions index,
    fst (parse_cargo_lock_versions w) = Ok versions /\
    fs w' !! VERSION_FILE =
      Some (File ("# Server library upstream docs snapshot metadata" +:+ nl +:+
                  "snapshot_date=" +:+ isoformat (today w) +:+ nl +:+
                  (if download_html then "source=docsrs-html" else "source=docsrs-links")
                  +:+ nl)) /\
    fs w' !! INDEX_FILE = Some (File index) /\
    occurs_in (nl +:+ "- Дата snapshot: `" +:+ isoformat (today w) +:+ "`" +:+ nl) index /\
    occurs_in
      (nl +:+ "- Режим: `" +:+
       (if download_html
        then "Снапшот включает HTML-копии `docsrs-*.html` (если сеть доступна)."
        else "Снапшот содержит актуальные версии и прямые ссылки на docs.rs без скачивания HTML.")
       +:+ "`" +:+ nl)
      index /\
    (forall lib, In lib LIBRARIES ->
       exists version,
         versions !! crate lib = Some version /\
         occurs_in
           (nl +:+ "| `" +:+ crate lib +:+ "` | `" +:+ version +:+
            "` | [crate](https://docs.rs/crate/" +:+ crate lib +:+ "/" +:+ version +:+
            ") | [rustdoc](https://docs.rs/" +:+ crate lib +:+ "/" +:+ version +:+ "/" +:+
            rustdoc_path lib +:+ "/) | `apps/server/docs/upstream-libraries/" +:+
            slug lib +:+ "/metadata.json` |" +:+ nl)
           index) /\
    (forall q, q <> VERSION_FILE -> q <> INDEX_FILE -> ~ in_lib_dirs LIBRARIES q ->
       fs w' !! q = fs w !! q \/
       (fs w !! q = None /\ fs w' !! q = Some Dir /\
        (q `prefix_of` SNAPSHOT_DIR \/ exists lib, In lib LIBRARIES /\ q = lib_dir lib))).
Proof.
  intros H.
  apply sync_snapshot_inv in H
    as (versions & records & _ & Hparse & Hrows & _ & Hver & Hidx & Htouch).
  exists versions, (index_text (today w) records download_html).
  split; [exact Hparse|]. split; [|split; [exact Hidx|]]; [|split; [|split; [|split]]].
  - rewrite Hver. destruct download_html; reflexivity.
  - apply index_text_date.
  - pose proof (index_text_mode (today w) records download_html) as Hmode.
    destruct download_html; exact Hmode.
  - intros lib Hlib. destruct (Forall2_In_l _ _ _ _ Hrows Hlib) as (r & Hr & v & Hv & ->).
    exists v. split; [exact Hv|].
    pose proof (index_text_rows (today w) records download_html _ Hr) as Hrow.
    unfold index_row, row_of, docs_rs_crate_url, docs_rs_rustdoc_url in Hrow.
    cbn [row_slug row_crate row_version row_docs_rs_crate row_docs_rs_rustdoc] in Hrow.
    rewrite !str_app_assoc in Hrow. exact Hrow.
  - intros q Hv Hi Hl.
    assert (Hq : ~ sync_paths q) by (unfold sync_paths; tauto).
    destruct (Htouch q Hq) as [E | (N & D & p & Hp & Hpre)]; [left; exact E|].
    right. split; [exact N|]. split; [exact D|].
    exact (on_the_way_to_sync_paths q p Hq Hp Hpre).
Qed.

(** Witness for C6: the sample checkout in link mode; the line of tokio. *)
Lemma sync_writes_status_artifacts_witness :
  exists index,
    fs synced_world !! VERSION_FILE =
      Some (File ("# Server library upstream docs snapshot metadata" +:+ nl +:+
                  "snapshot_date=2026-11-04" +:+ nl +:+ "source=docsrs-links" +:+ nl)) /\
    fs synced_world !! INDEX_FILE = Some (File index) /\
    occurs_in (nl +:+ "- Дата snapshot: `2026-11-04`" +:+ nl) index /\
    occurs_in
      (nl +:+ "| `tokio` | `1.38.0` | [crate](https://docs.rs/crate/tokio/1.38.0) | " +:+
       "[rustdoc](https://docs.rs/tokio/1.38.0/tokio/) | " +:+
       "`apps/server/docs/upstream-libraries/tokio/metadata.json` |" +:+ nl)
      index.
Proof.
  destruct (sync_writes_status_artifacts false sample_world 0 synced_world)
    as (versions & index & Hparse & Hver & Hidx & Hdate & _ & Hrows & _).
  - exact sample_sync.
  - exists index. split; [exact Hver|]. split; [exact Hidx|]. split; [exact Hdate|].
    destruct (Hrows (mkLibrary "tokio" "tokio" "tokio")) as (version & Hv & Hrow);
      [simpl; tauto|].
    assert (Hsel : selected_version sample_world "tokio" = Ok (Some "1.38.0"))
      by (vm_compute; reflexivity).
    unfold selected_version in Hsel. rewrite Hparse in Hsel.
    cbn [crate] in Hv. rewrite Hv in Hsel. injection Hsel as ->.
    exact Hrow.
Defined.

(** * Further properties of the code *)

(** ** What semver_key rejects *)

Lemma str_all_int_lstrip P s :
  (forall c, is_c_space c = true -> P c = true) ->
  str_all P (int_lstrip s) = true -> str_all P s = true.
Proof.
  intros Hsp. induction s as [|c s IH]; simpl; [reflexivity|].
  destruct (is_c_space c) eqn:E.
  - intros H. rewrite (Hsp c E), (IH H). reflexivity.
  - simpl. auto.
Qed.

Lemma str_all_int_rstrip P s :
  (forall c, is_c_space c = true -> P c = true) ->
  str_all P (int_rstrip s) = true -> str_all P s = true.
Proof.
  intros Hsp. induction s as [|c s IH]; simpl; [reflexivity|].
  destruct (is_c_space c && is_empty (int_rstrip s)) eqn:E.
  - intros _. apply andb_prop in E as [Ec Ee]. rewrite (Hsp c Ec). simpl.
    apply IH. destruct (int_rstrip s); [reflexivity | discriminate].
  - simpl. intros [Hc Hs]%andb_prop. rewrite Hc, (IH Hs). reflexivity.
Qed.

Lemma int_digits_chars s : forall acc b n,
  int_digits acc b s = Some n -> str_all int_char s = true.
Proof.
  induction s as [|c s IH]; intros acc b n H; simpl in *; [reflexivity|].
  unfold int_char at 1. unfold is_digit.
  destruct (digit_of c) as [d|].
  - simpl. eapply IH, H.
  - destruct (bool_decide (c = "_"%char)) eqn:E; [|discriminate].
    destruct b; [|discriminate]. simpl in H.
    rewrite orb_true_r. simpl. eapply IH, H.
Qed.

(** What [int] reads after the rewriting holds nothing but digits,
    underscores, signs and white space. *)
Lemma py_int_text_chars s n : py_int s = Some n -> str_all int_char (int_text s) = true.
Proof.
  unfold py_int. intros H.
  assert (Hsp : forall c, is_c_space c = true -> int_char c = true).
  { intros c Hc. unfold int_char. rewrite Hc, orb_true_r. reflexivity. }
  apply str_all_int_lstrip; [exact Hsp|]. apply str_all_int_rstrip; [exact Hsp|].
  assert (Hsign : forall r m, int_digits 0 false r = Some m ->
                    forall c, (c = "-"%char \/ c = "+"%char) ->
                    str_all int_char (String c r) = true).
  { intros r m Hr c Hc. simpl. rewrite (int_digits_chars _ _ _ _ Hr), andb_true_r.
    destruct Hc as [-> | ->]; reflexivity. }
  destruct (int_rstrip (int_lstrip (int_text s))) as [|c r] eqn:Es; [reflexivity|].
  destruct (ascii_dec c "-") as [->|Hm].
  { destruct (int_digits 0 false r) as [m|] eqn:Er; [|discriminate].
    eapply Hsign; eauto. }
  destruct (ascii_dec c "+") as [->|Hp].
  { eapply Hsign; eauto. }
  assert (Hplain : int_digits 0 false (String c r) = Some n).
  { destruct c as [[] [] [] [] [] [] [] []]; try exact H; congruence. }
  eapply int_digits_chars, Hplain.
Qed.

Lemma str_all_false P s :
  str_all P s = false -> exists c, In c (list_ascii_of_string s) /\ P c = false.
Proof.
  induction s as [|c s IH]; simpl; [discriminate|].
  destruct (P c) eqn:E; simpl.
  - intros H. destruct (IH H) as (x & Hx & Hp). eauto.
  - intros _. eauto.
Qed.

Lemma str_all_In P s c :
  str_all P s = true -> In c (list_ascii_of_string s) -> P c = true.
Proof.
  induction s as [|x s IH]; simpl; [intros _ []|].
  intros [Hx Hs]%andb_prop [<- | Hin]; auto.
Qed.

Lemma byte_of_ascii c : is_ascii c = true -> 0 <= byte c < 128.
Proof. unfold is_ascii, byte. intros H%Nat.ltb_lt. lia. Qed.

Lemma continuation_not_ascii b c : is_continuation b = true -> is_ascii c = true -> c <> b.
Proof.
  unfold is_continuation. intros [Hb _]%andb_prop Hc%byte_of_ascii ->.
  apply Z.leb_le in Hb. lia.
Qed.

(** An ASCII byte of a text is one of its code points: it is never part
    of the encoding of another character. *)
Lemma code_points_ascii n : forall s c,
  (String.length s <= n)%nat -> In c (list_ascii_of_string s) -> is_ascii c = true ->
  In (byte c) (code_points s).
Proof.
  induction n as [|n IH]; intros s c Hlen Hin Hc.
  - destruct s; [contradiction | simpl in Hlen; lia].
  - destruct s as [|b0 r0]; [contradiction|].
    assert (Hr0 : In c (list_ascii_of_string r0) -> In (byte c) (code_points r0)).
    { intros H. apply IH; [simpl in Hlen; lia | exact H | exact Hc]. }
    cbn [code_points]. destruct (byte b0 <? 128) eqn:E0.
    { destruct Hin as [<- | Hin]; [left; reflexivity | right; auto]. }
    assert (Hin0 : In c (list_ascii_of_string r0)).
    { destruct Hin as [<- | Hin]; [|exact Hin].
      apply byte_of_ascii in Hc. apply Z.ltb_ge in E0. lia. }
    destruct r0 as [|b1 r1]; [contradiction|].
    destruct (_ && is_continuation b1) eqn:E1.
    { apply andb_prop in E1 as [_ E1]. right. apply IH; [simpl in Hlen; lia| |exact Hc].
      destruct Hin0 as [Hb | Hin1]; [|exact Hin1].
      exfalso. exact (continuation_not_ascii _ _ E1 Hc (eq_sym Hb)). }
    destruct r1 as [|b2 r2]; [right; auto|].
    destruct (_ && is_continuation b2) eqn:E2.
    { apply andb_prop in E2 as [E2 E22]. apply andb_prop in E2 as [_ E21].
      right. apply IH; [simpl in Hlen; lia| |exact Hc].
      destruct Hin0 as [Hb | [Hb | Hin2]]; [| |exact Hin2]; exfalso.
      - exact (continuation_not_ascii _ _ E21 Hc (eq_sym Hb)).
      - exact (continuation_not_ascii _ _ E22 Hc (eq_sym Hb)). }
    destruct r2 as [|b3 r3]; [right; auto|].
    destruct (_ && is_continuation b3) eqn:E3; [|right; auto].
    apply andb_prop in E3 as [E3 E33]. apply andb_prop in E3 as [E3 E32].
    apply andb_prop in E3 as [_ E31].
    right. apply IH; [simpl in Hlen; lia| |exact Hc].
    destruct Hin0 as [Hb | [Hb | [Hb | Hin3]]]; [| | |exact Hin3]; exfalso.
    + exact (continuation_not_ascii _ _ E31 Hc (eq_sym Hb)).
    + exact (continuation_not_ascii _ _ E32 Hc (eq_sym Hb)).
    + exact (continuation_not_ascii _ _ E33 Hc (eq_sym Hb)).
Qed.

(** The rewriting keeps an ASCII character that no integer literal holds,
    or ends on a question mark before it. *)
Lemma ascii_digits_keeps c cps :
  In (byte c) cps -> is_ascii c = true -> int_char c = false ->
  str_all int_char (ascii_digits cps) = false.
Proof.
  intros Hin Hc Hbad. pose proof (byte_of_ascii _ Hc) as Hb.
  induction cps as [|x cps IH]; [contradiction|].
  cbn [ascii_digits]. destruct ((0 <=? x) && (x <? 127)) eqn:E.
  - cbn [str_all]. destruct Hin as [-> | Hin].
    + unfold byte. rewrite Nat2Z.id, ascii_nat_embedding, Hbad. reflexivity.
    + rewrite (IH Hin). apply andb_false_r.
  - destruct Hin as [-> | Hin].
    + assert (H127 : byte c = 127).
      { apply andb_false_iff in E as [E | E]; [apply Z.leb_gt in E | apply Z.ltb_ge in E]; lia. }
      rewrite H127. reflexivity.
    + destruct (is_unicode_space x); [cbn [str_all]; rewrite (IH Hin); apply andb_false_r|].
      destruct (unicode_decimal x) as [d|]; [|reflexivity].
      cbn [str_all]. rewrite (IH Hin). apply andb_false_r.
Qed.

(** An integer literal holds no ASCII character but digits, underscores,
    signs and white space. *)
Lemma py_int_chars s n : py_int s = Some n -> str_all (ascii_within int_char) s = true.
Proof.
  intros H. apply py_int_text_chars in H. unfold int_text in H.
  destruct (str_all is_ascii s) eqn:Ea.
  - eapply str_all_impl; [|exact H]. intros c Hc. unfold ascii_within.
    rewrite Hc. apply orb_true_r.
  - destruct (str_all (ascii_within int_char) s) eqn:Es; [reflexivity|].
    apply str_all_false in Es as (c & Hin & Hc). unfold ascii_within in Hc.
    apply orb_false_iff in Hc as [Hasc Hbad]. apply negb_false_iff in Hasc.
    rewrite (ascii_digits_keeps c (code_points s)) in H; [discriminate| |exact Hasc|exact Hbad].
    apply (code_points_ascii (String.length s)); [lia | exact Hin | exact Hasc].
Qed.

(** The parts of a split hold the characters of the text. *)
Lemma split_all_chars P sep s :
  P sep = true ->
  Forall (fun p => str_all P p = true) (split_all sep s) -> str_all P s = true.
Proof.
  intros Hsep. induction s as [|c s IH]; simpl; [reflexivity|].
  destruct (bool_decide (c = sep)) eqn:E.
  - apply bool_decide_eq_true in E. subst c. intros H. inversion H; subst.
    rewrite Hsep. simpl. auto.
  - destruct (split_all sep s) as [|h t]; intros H; inversion H as [|? ? Hh Ht]; subst.
    + simpl in Hh. apply andb_prop in Hh as [Hc _]. rewrite Hc. simpl.
      apply IH. constructor.
    + simpl in Hh. apply andb_prop in Hh as [Hc Hh]. rewrite Hc. simpl.
      apply IH. constructor; assumption.
Qed.

Lemma ints_of_ok parts ns :
  ints_of parts = Ok ns -> Forall (fun p => is_Some (py_int p)) parts.
Proof.
  revert ns. induction parts as [|p parts IH]; intros ns H; simpl in H; [constructor|].
  destruct (py_int p) as [n|] eqn:E; [|discriminate].
  destruct (ints_of parts) as [ms|e] eqn:Er; [|discriminate].
  constructor; [rewrite E; eauto | eapply IH; reflexivity].
Qed.

Lemma ints_of_raises parts e : ints_of parts = Raise e -> exists msg, e = ValueError msg.
Proof.
  induction parts as [|p parts IH]; simpl; [discriminate|].
  destruct (py_int p) as [n|]; [|intros [= <-]; eauto].
  destruct (ints_of parts) as [ms|e']; [discriminate|].
  intros [= <-]. apply IH. reflexivity.
Qed.

Lemma pad3_subscript ns i : (i < 3)%nat -> exists x, subscript (pad3 ns) i = Ok x.
Proof.
  intros Hi. unfold subscript.
  destruct (pad3 ns !! i) as [x|] eqn:E; [eauto|].
  apply lookup_ge_None in E. unfold pad3 in E.
  rewrite length_app, repeat_length in E. lia.
Qed.

(** X1. semver_key raises nothing but ValueError, and it does raise it
    whenever the text before the first hyphen holds an ASCII character
    other than a digit, a dot, an underscore, a sign or one of TAB, LF, VT,
    FF, CR and SPACE (a letter, as in the build metadata of 1.0.0+build).
    Characters outside ASCII are not judged: the digits and the white space
    of other scripts are read by [int]. *)
Theorem semver_key_rejects_foreign_characters (version : string) :
  (forall e, semver_key version = Raise e -> exists msg, e = ValueError msg) /\
  (str_all (ascii_within version_char) (fst (split_once "-" version)) = false ->
   exists msg, semver_key version = Raise (ValueError msg)).
Proof.
  unfold semver_key. destruct (split_once "-" version) as [main suffix]. simpl fst.
  assert (Hok : forall ns pre, exists k,
            match subscript (pad3 ns) 0 with
            | Raise e => Raise e
            | Ok major =>
                match subscript (pad3 ns) 1 with
                | Raise e => Raise e
                | Ok minor =>
                    match subscript (pad3 ns) 2 with
                    | Raise e => Raise e
                    | Ok patch => Ok (major, minor, patch, pre)
                    end
                end
            end = Ok k :> result key).
  { intros ns pre.
    destruct (pad3_subscript ns 0) as [a ->]; [lia|].
    destruct (pad3_subscript ns 1) as [b ->]; [lia|].
    destruct (pad3_subscript ns 2) as [c ->]; [lia|]. eauto. }
  split.
  - intros e. destruct (ints_of (split_all "." main)) as [ns|e'] eqn:E.
    + destruct (Hok ns (match suffix with Some s => s | None => EmptyString end)) as [k ->].
      discriminate.
    + intros [= <-]. eapply ints_of_raises, E.
  - intros Hchar. destruct (ints_of (split_all "." main)) as [ns|e'] eqn:E.
    + exfalso. apply ints_of_ok in E.
      assert (Hall : str_all (ascii_within version_char) main = true); [|congruence].
      apply (split_all_chars (ascii_within version_char) "."); [reflexivity|].
      eapply Forall_impl; [exact E|]. intros p [n Hn]. simpl.
      eapply str_all_impl; [|exact (py_int_chars _ _ Hn)].
      intros c. unfold ascii_within, version_char.
      destruct (negb (is_ascii c)); [reflexivity|]. simpl. intros ->. reflexivity.
    + destruct (ints_of_raises _ _ E) as [msg ->]. eauto.
Qed.

(** Witness for X1: a version with build metadata. *)
Lemma semver_key_rejects_foreign_characters_witness :
  exists msg, semver_key "1.0.0+build" = Raise (ValueError msg).
Proof.
  apply (proj2 (semver_key_rejects_foreign_characters "1.0.0+build")).
  reflexivity.
Defined.

(** ** The order of keys *)

Lemma ascii_eq_nat (x y : ascii) : bool_decide (x = y) = (nat_of_ascii x =? nat_of_ascii y)%nat.
Proof.
  destruct (Nat.eqb_spec (nat_of_ascii x) (nat_of_ascii y)) as [E | E].
  - apply bool_decide_eq_true. rewrite <- (ascii_nat_embedding x), <- (ascii_nat_embedding y), E.
    reflexivity.
  - apply bool_decide_eq_false. intros ->. apply E. reflexivity.
Qed.

Lemma str_ltb_asym a : forall b, str_ltb a b = true -> str_ltb b a = false.
Proof.
  induction a as [|x a IH]; intros [|y b]; simpl; try reflexivity; try discriminate.
  rewrite !ascii_eq_nat.
  destruct (Nat.ltb_spec (nat_of_ascii x) (nat_of_ascii y)),
           (Nat.ltb_spec (nat_of_ascii y) (nat_of_ascii x)),
           (Nat.eqb_spec (nat_of_ascii x) (nat_of_ascii y)),
           (Nat.eqb_spec (nat_of_ascii y) (nat_of_ascii x));
    simpl; try lia; try discriminate; auto.
Qed.

(** When [a] is not below [b] and [b] not below [c], [a] is not below [c]. *)
Lemma str_ltb_ntrans a : forall b c,
  str_ltb a b = false -> str_ltb b c = false -> str_ltb a c = false.
Proof.
  induction a as [|x a IH]; intros [|y b] [|z c]; simpl; try reflexivity; try discriminate.
  rewrite !ascii_eq_nat.
  destruct (Nat.ltb_spec (nat_of_ascii x) (nat_of_ascii y)),
           (Nat.ltb_spec (nat_of_ascii y) (nat_of_ascii z)),
           (Nat.ltb_spec (nat_of_ascii x) (nat_of_ascii z)),
           (Nat.eqb_spec (nat_of_ascii x) (nat_of_ascii y)),
           (Nat.eqb_spec (nat_of_ascii y) (nat_of_ascii z)),
           (Nat.eqb_spec (nat_of_ascii x) (nat_of_ascii z));
    simpl; try lia; try discriminate; try reflexivity.
  apply IH.
Qed.

Ltac key_cases :=
  repeat match goal with
         | |- context [(?a =? ?b)%Z] => destruct (Z.eqb_spec a b)
         | |- context [(?a <? ?b)%Z] => destruct (Z.ltb_spec a b)
         end;
  simpl; try lia; try discriminate; try reflexivity.

Lemma key_ltb_asym (k1 k2 : key) : key_ltb k1 k2 = true -> key_ltb k2 k1 = false.
Proof.
  destruct k1 as [[[a1 b1] c1] p1], k2 as [[[a2 b2] c2] p2]. unfold key_ltb.
  key_cases. apply str_ltb_asym.
Qed.

Lemma key_ltb_false_iff a1 b1 c1 p1 a2 b2 c2 p2 :
  key_ltb (a1, b1, c1, p1) (a2, b2, c2, p2) = false <->
  a2 < a1 \/ (a1 = a2 /\ (b2 < b1 \/ (b1 = b2 /\ (c2 < c1 \/
    (c1 = c2 /\ str_ltb p1 p2 = false))))).
Proof.
  unfold key_ltb. key_cases; split; intros Hk; try discriminate Hk; try tauto; try lia.
  destruct Hk as [? | [_ [? | [_ [? | [_ ?]]]]]]; try lia; assumption.
Qed.

Lemma key_ltb_ntrans (k1 k2 k3 : key) :
  key_ltb k1 k2 = false -> key_ltb k2 k3 = false -> key_ltb k1 k3 = false.
Proof.
  destruct k1 as [[[a1 b1] c1] p1], k2 as [[[a2 b2] c2] p2], k3 as [[[a3 b3] c3] p3].
  rewrite !key_ltb_false_iff.
  intros [H1 | [E1 [H1 | [F1 [H1 | [G1 H1]]]]]] [H2 | [E2 [H2 | [F2 [H2 | [G2 H2]]]]]];
    try (left; lia); right; (split; [lia|]);
    try (left; lia); right; (split; [lia|]);
    try (left; lia); right; (split; [lia|]).
  eapply str_ltb_ntrans; eassumption.
Qed.

(** ** The sort and its last element *)

Section SortedLast.
Context {A K : Type} (ltb : K -> K -> bool).
Hypothesis ltb_asym : forall a b, ltb a b = true -> ltb b a = false.
Hypothesis ltb_ntrans : forall a b c, ltb a b = false -> ltb b c = false -> ltb a c = false.

Lemma insert_keyed_HdRel (y x : K * A) l :
  (in_order ltb) y x -> HdRel (in_order ltb) y l -> HdRel (in_order ltb) y (insert_keyed ltb x l).
Proof.
  intros Hyx Hl. destruct l as [|z l]; simpl; [constructor; exact Hyx|].
  destruct (ltb (fst z) (fst x)); constructor; [|exact Hyx].
  inversion Hl; assumption.
Qed.

Lemma insert_keyed_Sorted (x : K * A) l :
  Sorted (in_order ltb) l -> Sorted (in_order ltb) (insert_keyed ltb x l).
Proof.
  induction 1 as [|y l Hs IH Hhd]; simpl; [repeat constructor|].
  destruct (ltb (fst y) (fst x)) eqn:E.
  - constructor; [exact IH|]. apply insert_keyed_HdRel; [|exact Hhd].
    apply ltb_asym, E.
  - constructor; [constructor; assumption|]. constructor. exact E.
Qed.

Lemma sort_keyed_Sorted (l : list (K * A)) : Sorted (in_order ltb) (sort_keyed ltb l).
Proof.
  induction l as [|x l IH]; simpl; [constructor | apply insert_keyed_Sorted, IH].
Qed.

Lemma Sorted_last_max (l : list (K * A)) b :
  Sorted (in_order ltb) l -> last l = Some b -> forall y, In y l -> (in_order ltb) y b.
Proof.
  induction 1 as [|x l Hs IH Hhd]; intros Hlast y Hin; [contradiction|].
  destruct l as [|z l].
  - simpl in Hlast. injection Hlast as <-. destruct Hin as [<- | []].
    unfold in_order. destruct (ltb (fst x) (fst x)) eqn:E; [|reflexivity].
    rewrite (ltb_asym _ _ E) in E. discriminate.
  - change (last (x :: z :: l)) with (last (z :: l)) in Hlast.
    destruct Hin as [<- | Hin]; [|apply IH; assumption].
    inversion Hhd as [|? ? Hxz]; subst.
    specialize (IH Hlast z (or_introl eq_refl)).
    unfold in_order in *. eapply ltb_ntrans; eassumption.
Qed.

(** No key of the input is above the key of the last element of the sorted
    list. *)
Lemma sort_keyed_last_max (l : list (K * A)) b :
  last (sort_keyed ltb l) = Some b -> forall y, In y l -> ltb (fst b) (fst y) = false.
Proof.
  intros Hlast y Hin.
  apply (Sorted_last_max _ _ (sort_keyed_Sorted l) Hlast y).
  apply sort_keyed_In, Hin.
Qed.

End SortedLast.

(** ** What parse_cargo_lock_versions picks *)

Lemma select_versions_chosen libs versions : forall acc result,
  select_versions libs versions acc = Ok result ->
  (forall lib, In lib libs ->
     exists v, default [] (versions !! crate lib) <> [] /\
               choose (default [] (versions !! crate lib)) = Ok v /\
               result !! crate lib = Some v) /\
  (forall name, (forall lib, In lib libs -> crate lib <> name) ->
     result !! name = acc !! name).
Proof.
  induction libs as [|lib libs IH]; intros acc result H; simpl in H.
  - injection H as <-. split; [intros lib [] | reflexivity].
  - destruct (default [] (versions !! crate lib)) as [|c cs] eqn:Ec; [discriminate|].
    destruct (sorted_by_semver_key (c :: cs)) as [sorted|e] eqn:Es; [|discriminate].
    destruct (last_item sorted) as [v|e] eqn:El; [|discriminate].
    destruct (IH _ _ H) as [Hin Hout]. split.
    + intros lib' [<- | Hlib']; [|apply Hin, Hlib'].
      destruct (decide (Exists (fun l => crate l = crate lib) libs)) as [Hex | Hno].
      * apply Exists_exists in Hex as (lib2 & Hlib2 & Hcrate).
        apply list_elem_of_In in Hlib2.
        destruct (Hin lib2 Hlib2) as (v2 & Hne & Hch & Hres).
        rewrite Hcrate in Hne, Hch, Hres. eauto.
      * exists v. rewrite Ec. split; [discriminate|]. split.
        { unfold choose. rewrite Es. exact El. }
        rewrite Hout, lookup_insert_eq; [reflexivity|].
        intros lib2 Hlib2 Hcrate. apply Hno, Exists_exists.
        exists lib2. split; [apply list_elem_of_In, Hlib2 | exact Hcrate].
    + intros name Hname. rewrite Hout by (intros; apply Hname; right; assumption).
      apply lookup_insert_ne, Hname. left. reflexivity.
Qed.

(** When parse_cargo_lock_versions returns, each tracked crate is bound to
    what [choose] picks among the candidates of the lockfile. *)
Lemma parse_cargo_lock_versions_chosen w result w' :
  parse_cargo_lock_versions w = (Ok result, w') ->
  exists text,
    fs w !! CARGO_LOCK = Some (File text) /\
    forall lib, In lib LIBRARIES ->
      exists v, candidates_of (crate lib) text <> [] /\
                choose (candidates_of (crate lib) text) = Ok v /\
                result !! crate lib = Some v.
Proof.
  intros H. apply parse_cargo_lock_versions_inv in H as (_ & text & Hfile & Hsel).
  exists text. split; [exact Hfile|]. intros lib Hlib.
  destruct (select_versions_chosen _ _ _ _ Hsel) as [Hin _].
  destruct (Hin lib Hlib) as (v & Hne & Hch & Hres).
  rewrite collect_versions_lookup in Hne, Hch. eauto.
Qed.

Lemma with_keys_In candidates : forall ks u,
  with_keys candidates = Ok ks -> In u candidates -> exists k, semver_key u = Ok k /\ In (k, u) ks.
Proof.
  induction candidates as [|v rest IH]; intros ks u H Hin; [contradiction|].
  simpl in H. destruct (semver_key v) as [k|e] eqn:Ek; [|discriminate].
  destruct (with_keys rest) as [ks'|e] eqn:Er; [|discriminate].
  injection H as <-. destruct Hin as [<- | Hin].
  - exists k. split; [exact Ek | left; reflexivity].
  - destruct (IH _ _ eq_refl Hin) as (k' & Hk' & Hin'). exists k'. split; [exact Hk' | right; exact Hin'].
Qed.

Lemma with_keys_keys candidates : forall ks k u,
  with_keys candidates = Ok ks -> In (k, u) ks -> semver_key u = Ok k.
Proof.
  induction candidates as [|v rest IH]; intros ks k u H Hin; simpl in H.
  - injection H as <-. contradiction.
  - destruct (semver_key v) as [k'|e] eqn:Ek; [|discriminate].
    destruct (with_keys rest) as [ks'|e] eqn:Er; [|discriminate].
    injection H as <-. destruct Hin as [[= <- <-] | Hin]; [exact Ek|].
    eapply IH; [reflexivity | exact Hin].
Qed.

Lemma last_map_Some {A B} (f : A -> B) l x :
  last (map f l) = Some x -> exists y, last l = Some y /\ f y = x.
Proof.
  induction l as [|a l IH]; [discriminate|].
  destruct l as [|b l].
  - simpl. intros [= <-]. eauto.
  - change (last (map f (a :: b :: l))) with (last (map f (b :: l))).
    change (last (a :: b :: l)) with (last (b :: l)). exact IH.
Qed.

(** What [choose] returns is a candidate whose key no candidate's key
    exceeds; every candidate has a key. *)
Lemma choose_max candidates v :
  choose candidates = Ok v ->
  In v candidates /\
  exists kv, semver_key v = Ok kv /\
    forall u, In u candidates ->
      exists ku, semver_key u = Ok ku /\ key_ltb kv ku = false.
Proof.
  unfold choose, sorted_by_semver_key.
  destruct (with_keys candidates) as [ks|e] eqn:E; [|discriminate].
  unfold last_item. destruct (last (map snd (sort_keyed key_ltb ks))) as [x|] eqn:El; [|discriminate].
  intros [= <-]. apply last_map_Some in El as ([kv v] & Elast & <-). simpl.
  assert (Hin : In (kv, v) ks).
  { apply (sort_keyed_In key_ltb ks), list_elem_of_In, last_Some_elem_of, Elast. }
  split.
  - rewrite <- (with_keys_snd _ _ E). apply (in_map snd _ _ Hin).
  - exists kv. split; [eapply with_keys_keys; eassumption|].
    intros u Hu. destruct (with_keys_In _ _ _ E Hu) as (ku & Hku & Hinu).
    exists ku. split; [exact Hku|].
    exact (sort_keyed_last_max key_ltb key_ltb_asym key_ltb_ntrans ks (kv, v) Elast (ku, u) Hinu).
Qed.

(** X2. When parse_cargo_lock_versions returns, the version of every
    tracked crate is one of the crate's candidates in the lockfile, every
    candidate has a key, and no candidate's key is above the key of the
    chosen version in the order of the tuples semver_key returns. *)
Theorem chosen_version_has_greatest_key (w : world) (result : gmap string string) (w' : world) :
  parse_cargo_lock_versions w = (Ok result, w') ->
  exists text,
    fs w !! CARGO_LOCK = Some (File text) /\
    forall lib, In lib LIBRARIES ->
      exists v kv,
        result !! crate lib = Some v /\
        In v (candidates_of (crate lib) text) /\
        semver_key v = Ok kv /\
        forall u, In u (candidates_of (crate lib) text) ->
          exists ku, semver_key u = Ok ku /\ key_ltb kv ku = false.
Proof.
  intros H. apply parse_cargo_lock_versions_chosen in H as (text & Hfile & Hlibs).
  exists text. split; [exact Hfile|]. intros lib Hlib.
  destruct (Hlibs lib Hlib) as (v & _ & Hch & Hres).
  destruct (choose_max _ _ Hch) as (Hin & kv & Hkv & Hmax).
  exists v, kv. auto.
Qed.

Lemma sample_parse_ok :
  exists result, parse_cargo_lock_versions sample_world = (Ok result, sample_world).
Proof.
  assert (Hok : match fst (parse_cargo_lock_versions sample_world) with
                | Ok _ => true
                | Raise _ => false
                end = true) by (vm_compute; reflexivity).
  pose proof (parse_cargo_lock_versions_world sample_world) as Hw.
  destruct (parse_cargo_lock_versions sample_world) as [[result|e] w']; [|discriminate Hok].
  simpl in Hw. subst w'. eauto.
Qed.

(** Witness for X2: the sample lockfile. *)
Lemma chosen_version_has_greatest_key_witness :
  exists text,
    fs sample_world !! CARGO_LOCK = Some (File text) /\
    forall lib, In lib LIBRARIES ->
      exists v kv,
        In v (candidates_of (crate lib) text) /\
        semver_key v = Ok kv /\
        forall u, In u (candidates_of (crate lib) text) ->
          exists ku, semver_key u = Ok ku /\ key_ltb kv ku = false.
Proof.
  destruct sample_parse_ok as [result Hparse].
  destruct (chosen_version_has_greatest_key sample_world result sample_world Hparse)
    as (text & Hfile & Hlibs).
  exists text. split; [exact Hfile|]. intros lib Hlib.
  destruct (Hlibs lib Hlib) as (v & kv & _ & Hin & Hkv & Hmax).
  exists v, kv. auto.
Defined.

(** X3. A candidate semver_key cannot read makes parse_cargo_lock_versions
    raise, also when it is not the version that would be chosen: the key of
    every candidate of a tracked crate is computed before sorting. *)
Theorem unreadable_candidate_fails (w : world) (text : string) (lib : Library)
  (u : string) (e0 : exn) :
  fs w !! CARGO_LOCK = Some (File text) ->
  In lib LIBRARIES ->
  In u (candidates_of (crate lib) text) ->
  semver_key u = Raise e0 ->
  exists e, parse_cargo_lock_versions w = (Raise e, w).
Proof.
  intros Hfile Hlib Hu Hkey.
  pose proof (parse_cargo_lock_versions_world w) as Hw.
  destruct (parse_cargo_lock_versions w) as [[result|e] w'] eqn:H; simpl in Hw; subst w'.
  - exfalso.
    destruct (parse_cargo_lock_versions_chosen _ _ _ H) as (text' & Hfile' & Hlibs).
    rewrite Hfile in Hfile'. injection Hfile' as <-.
    destruct (Hlibs lib Hlib) as (v & _ & Hch & _).
    destruct (choose_max _ _ Hch) as (_ & kv & _ & Hall).
    destruct (Hall u Hu) as (ku & Hku & _). congruence.
  - eauto.
Qed.

(** Witness for X3: axum pinned twice, once with build metadata. *)
Lemma unreadable_candidate_fails_witness :
  exists e,
    parse_cargo_lock_versions
      (fresh_world (sample_lock +:+ package_entry "axum" "0.7.5+patched" REGISTRY)
                   (Date 2026 11 4))
    = (Raise e,
       fresh_world (sample_lock +:+ package_entry "axum" "0.7.5+patched" REGISTRY)
                   (Date 2026 11 4)).
Proof.
  apply (unreadable_candidate_fails _
           (sample_lock +:+ package_entry "axum" "0.7.5+patched" REGISTRY)
           (mkLibrary "axum" "axum" "axum") "0.7.5+patched"
           (ValueError "invalid literal for int() with base 10: 5+patched")).
  - vm_compute. reflexivity.
  - simpl. tauto.
  - vm_compute. tauto.
  - vm_compute. reflexivity.
Defined.

(** ** Releases *)

Lemma split_once_none sep s h : split_once sep s = (h, None) -> h = s.
Proof.
  revert h. induction s as [|c s IH]; intros h; simpl.
  - intros [= <-]. reflexivity.
  - destruct (bool_decide (c = sep)); [discriminate|].
    destruct (split_once sep s) as [h' t']. intros [= <- ->].
    f_equal. apply IH. reflexivity.
Qed.

Lemma split_once_absent sep s :
  str_all (fun c => negb (bool_decide (c = sep))) s = true -> split_once sep s = (s, None).
Proof.
  induction s as [|c s IH]; simpl; [reflexivity|].
  intros [Hc Hs]%andb_prop. apply negb_true_iff in Hc. rewrite Hc, (IH Hs). reflexivity.
Qed.

Lemma decimal_digits s : decimal s = true -> str_all is_digit s = true.
Proof. unfold decimal. intros [_ H]%andb_prop. exact H. Qed.

(** The key and the semantic version of a release are the same three
    numbers. *)
Lemma release_key version :
  is_release version = true ->
  exists a b c,
    semver_key version = Ok (a, b, c, EmptyString) /\
    parse_semver version = Some (SemVer a b c []).
Proof.
  unfold is_release. destruct (split_once "-" version) as [main [suffix|]] eqn:Eh; [discriminate|].
  pose proof (split_once_none _ _ _ Eh) as ->.
  destruct (split_all "." version) as [|a [|b [|c [|d rest]]]] eqn:Es; try discriminate.
  intros H. apply andb_prop in H as [H Hc]. apply andb_prop in H as [Ha Hb].
  exists (decimal_value a), (decimal_value b), (decimal_value c). split.
  - unfold semver_key. rewrite Eh, Es.
    rewrite (ints_of_decimal [a; b; c]) by (repeat constructor; assumption).
    reflexivity.
  - unfold parse_semver.
    assert (Hplus : split_once "+" version = (version, None)).
    { apply split_once_absent.
      apply (split_all_chars _ "."); [reflexivity|]. rewrite Es.
      repeat constructor;
        (eapply str_all_impl; [|apply decimal_digits; eassumption]);
        intros x Hx; apply negb_true_iff, bool_decide_eq_false; intros ->; discriminate Hx. }
    rewrite Hplus. simpl fst. rewrite Eh, Es, Ha, Hb, Hc. reflexivity.
Qed.

Lemma release_order a b c a' b' c' :
  semver_ltb (SemVer a b c []) (SemVer a' b' c' [])
  = key_ltb (a, b, c, EmptyString) (a', b', c', EmptyString).
Proof. reflexivity. Qed.

(** X4. When all candidates of a tracked crate are plain releases
    (three decimal numbers and nothing else), the version
    parse_cargo_lock_versions returns for the crate is a maximum of the
    candidates under semantic-version precedence. *)
Theorem releases_chosen_by_precedence (w : world) (result : gmap string string)
  (w' : world) (text : string) (lib : Library) :
  parse_cargo_lock_versions w = (Ok result, w') ->
  fs w !! CARGO_LOCK = Some (File text) ->
  In lib LIBRARIES ->
  Forall (fun u => is_release u = true) (candidates_of (crate lib) text) ->
  exists v, result !! crate lib = Some v /\
            semver_maximum (candidates_of (crate lib) text) v.
Proof.
  intros H Hfile Hlib Hrel.
  destruct (parse_cargo_lock_versions_chosen _ _ _ H) as (text' & Hfile' & Hlibs).
  rewrite Hfile in Hfile'. injection Hfile' as <-.
  destruct (Hlibs lib Hlib) as (v & _ & Hch & Hres).
  destruct (choose_max _ _ Hch) as (Hin & kv & Hkv & Hmax).
  exists v. split; [exact Hres|]. split; [exact Hin|].
  intros u Hu. rewrite Forall_forall in Hrel.
  destruct (release_key v (Hrel v (proj2 (list_elem_of_In _ _) Hin))) as (a & b & c & Hk & Hp).
  destruct (release_key u (Hrel u (proj2 (list_elem_of_In _ _) Hu))) as (a' & b' & c' & Hk' & Hp').
  destruct (Hmax u Hu) as (ku & Hku & Hle).
  unfold semver_precedes. rewrite Hp, Hp', release_order. congruence.
Qed.

(** Witness for X4: axum in the sample lockfile, pinned at 0.6.20 and
    0.7.5. *)
Lemma releases_chosen_by_precedence_witness :
  exists v, semver_maximum (candidates_of "axum" sample_lock) v.
Proof.
  destruct sample_parse_ok as [result Hparse].
  destruct (releases_chosen_by_precedence sample_world result sample_world sample_lock
              (mkLibrary "axum" "axum" "axum") Hparse) as (v & _ & Hmax).
  - vm_compute. reflexivity.
  - simpl. tauto.
  - vm_compute. repeat constructor.
  - exists v. exact Hmax.
Defined.

(** ** What the pattern captures *)

Lemma span_not_quote_head s : forall h t,
  span_not_quote s = (h, t) -> str_all not_quote h = true.
Proof.
  induction s as [|c s IH]; intros h t; simpl.
  - intros [= <- _]. reflexivity.
  - destruct (bool_decide (c = DQ)) eqn:E.
    + intros [= <- _]. reflexivity.
    + destruct (span_not_quote s) as [h' t']. intros [= <- _]. simpl.
      unfold not_quote at 1. rewrite E. simpl. eapply IH. reflexivity.
Qed.

Lemma match_package_groups s name version rest :
  match_package s = Some (name, version, rest) ->
  name <> EmptyString /\ version <> EmptyString /\
  str_all not_quote name = true /\ str_all not_quote version = true.
Proof.
  unfold match_package.
  destruct (match_literal PACKAGE_HEAD s) as [s1|]; [|discriminate].
  destruct (span_not_quote s1) as [n s2] eqn:E2.
  destruct (is_empty n) eqn:En; [discriminate|].
  destruct (match_literal PACKAGE_MID s2) as [s3|]; [|discriminate].
  destruct (span_not_quote s3) as [v s4] eqn:E4.
  destruct (is_empty v) eqn:Ev; [discriminate|].
  destruct (match_literal dq s4) as [s5|]; [|discriminate].
  intros [= <- <- <-].
  repeat split.
  - intros ->. discriminate En.
  - intros ->. discriminate Ev.
  - eapply span_not_quote_head, E2.
  - eapply span_not_quote_head, E4.
Qed.

Lemma finditer_fuel_groups fuel : forall s name version,
  In (name, version) (finditer_fuel fuel s) ->
  name <> EmptyString /\ version <> EmptyString /\
  str_all not_quote name = true /\ str_all not_quote version = true.
Proof.
  induction fuel as [|fuel IH]; intros s name version Hin; simpl in Hin; [contradiction|].
  destruct (match_package s) as [[[n v] rest]|] eqn:E.
  - destruct Hin as [[= <- <-] | Hin]; [eapply match_package_groups, E | eapply IH, Hin].
  - destruct s as [|c s]; [contradiction | eapply IH, Hin].
Qed.

(** X5. The version parse_cargo_lock_versions returns for a tracked crate
    is never empty and never holds a double quote: the pattern captures one
    or more characters other than the quote. *)
Theorem chosen_version_well_formed (w : world) (result : gmap string string) (w' : world) :
  parse_cargo_lock_versions w = (Ok result, w') ->
  forall lib, In lib LIBRARIES ->
    exists v, result !! crate lib = Some v /\
              v <> EmptyString /\ str_all not_quote v = true.
Proof.
  intros H lib Hlib.
  destruct (parse_cargo_lock_versions_chosen _ _ _ H) as (text & _ & Hlibs).
  destruct (Hlibs lib Hlib) as (v & _ & Hch & Hv).
  destruct (choose_max _ _ Hch) as (Hin & _).
  exists v. split; [exact Hv|].
  apply versions_of_In in Hin.
  destruct (finditer_fuel_groups _ _ _ _ Hin) as (_ & Hne & _ & Hq). auto.
Qed.

(** Witness for X5: the sample lockfile. *)
Lemma chosen_version_well_formed_witness :
  exists (result : gmap string string) v,
    result !! "tokio" = Some v /\ v <> EmptyString /\ str_all not_quote v = true.
Proof.
  destruct sample_parse_ok as [result Hparse].
  destruct (chosen_version_well_formed sample_world result sample_world Hparse
              (mkLibrary "tokio" "tokio" "tokio")) as (v & Hv).
  - simpl. tauto.
  - exists result, v. exact Hv.
Defined.

(** ** When the check passes *)

(** X6. The check command exits with 0 exactly when the snapshot date can
    be read, every tracked library has its metadata.json, and the snapshot
    is at most 60 days old; a date in the future passes. *)
Theorem check_passes_iff (w : world) :
  exit_code CmdCheck w = 0 <->
  exists d,
    fst (parse_snapshot_date w) = Ok d /\
    Forall (fun lib => has_metadata w lib = true) LIBRARIES /\
    days_between (today w) d <= FAIL_DAYS.
Proof.
  unfold exit_code. simpl main. split.
  - intros Hzero.
    destruct (fst (parse_snapshot_date w)) as [d|e] eqn:Hd.
    + exists d. split; [reflexivity|].
      destruct (missing_of w LIBRARIES) as [|x xs] eqn:Hm.
      * split; [apply missing_of_nil, Hm|].
        pose proof (check_snapshot_present w d Hd Hm) as H. cbv zeta in H.
        rewrite H in Hzero.
        destruct (FAIL_DAYS <? days_between (today w) d) eqn:E; [discriminate Hzero|].
        apply Z.ltb_ge, E.
      * rewrite (check_snapshot_missing w d x xs Hd Hm) in Hzero. discriminate Hzero.
    + rewrite (check_snapshot_raises w e Hd) in Hzero. discriminate Hzero.
  - intros (d & Hd & Hall & Hage). apply missing_of_nil in Hall.
    pose proof (check_snapshot_present w d Hd Hall) as H. cbv zeta in H. rewrite H.
    apply Z.ltb_ge in Hage. rewrite Hage.
    destruct (WARNING_DAYS <? days_between (today w) d); reflexivity.
Qed.

(** Witness for X6: the synced sample checked a year before its snapshot
    date. *)
Lemma check_passes_iff_witness :
  exit_code CmdCheck (with_today (Date 2025 11 4) synced_world) = 0.
Proof.
  apply (proj2 (check_passes_iff (with_today (Date 2025 11 4) synced_world))).
  exists (Date 2026 11 4). split; [vm_compute; reflexivity|].
  split; [apply all_metadata_forallb; vm_compute; reflexivity|].
  vm_compute. discriminate.
Defined.

(** ** Reading the marker *)

Lemma scan_snapshot_date_first before : forall line after,
  Forall (fun l => no_date_key l = true) before ->
  scan_snapshot_date (before ++ line :: after) = scan_snapshot_date (line :: after).
Proof.
  induction before as [|l before IH]; intros line after Hb; [reflexivity|].
  inversion Hb as [|? ? Hl Hrest]; subst.
  change ((l :: before) ++ line :: after) with (l :: (before ++ line :: after)).
  rewrite scan_snapshot_date_skip by (apply negb_true_iff, Hl).
  apply IH, Hrest.
Qed.

Lemma scan_snapshot_date_none lines :
  Forall (fun l => no_date_key l = true) lines -> scan_snapshot_date lines = None.
Proof.
  induction 1 as [|l lines Hl _ IH]; [reflexivity|].
  rewrite scan_snapshot_date_skip by (apply negb_true_iff, Hl). exact IH.
Qed.

Lemma parse_snapshot_date_file w raw :
  fs w !! VERSION_FILE = Some (File raw) ->
  parse_snapshot_date w =
    match scan_snapshot_date (splitlines raw) with
    | Some r => (r, w)
    | None => (Raise (RuntimeError ("snapshot_date key not found in " +:+ abs_str w VERSION_FILE)), w)
    end.
Proof.
  intros Hfile. unfold parse_snapshot_date.
  rewrite (bind_ok _ _ _ _ _ (path_exists_eq _ _)).
  rewrite Hfile, bool_decide_eq_true_2 by eauto. cbn [negb].
  assert (Hread : read_text VERSION_FILE w = (Ok raw, w))
    by (unfold read_text; rewrite Hfile; reflexivity).
  rewrite (bind_ok _ _ _ _ _ Hread).
  destruct (scan_snapshot_date (splitlines raw)); reflexivity.
Qed.

(** X7. parse_snapshot_date reads the first line that carries the key
    [snapshot_date=] once white space around the line is dropped; white
    space around the value is dropped too, later lines are not looked at,
    and a value that is no ISO date raises ValueError. *)
Theorem parse_snapshot_date_first_key_line (w : world) (raw : string)
  (before : list string) (line : string) (after : list string) (value : string) :
  fs w !! VERSION_FILE = Some (File raw) ->
  splitlines raw = before ++ line :: after ->
  Forall (fun l => no_date_key l = true) before ->
  strip line = "snapshot_date=" +:+ value ->
  parse_snapshot_date w =
    (match fromisoformat (strip value) with
     | Some d => Ok d
     | None => Raise (ValueError ("Invalid isoformat string: " +:+ strip value))
     end, w).
Proof.
  intros Hfile Hlines Hbefore Hline.
  rewrite (parse_snapshot_date_file w raw Hfile), Hlines.
  rewrite (scan_snapshot_date_first before line after Hbefore).
  cbn [scan_snapshot_date]. rewrite Hline.
  change (startswith "snapshot_date=" ("snapshot_date=" +:+ value)) with true.
  change (split_once "=" ("snapshot_date=" +:+ value)) with ("snapshot_date", Some value).
  cbv iota beta. destruct (fromisoformat (strip value)); reflexivity.
Qed.

(** Witness for X7. *)
Lemma parse_snapshot_date_first_key_line_witness :
  parse_snapshot_date
    (World "/repo" {[ VERSION_FILE := File handwritten_marker ]} (Date 2026 11 4)
           (fun _ => UrlError UNREACHABLE) [])
  = (Ok (Date 2024 2 29),
     World "/repo" {[ VERSION_FILE := File handwritten_marker ]} (Date 2026 11 4)
           (fun _ => UrlError UNREACHABLE) []).
Proof.
  apply (parse_snapshot_date_first_key_line _ handwritten_marker
           ["# note"] "  snapshot_date= 2024-02-29 " ["snapshot_date=2020-01-01"]
           " 2024-02-29").
  - vm_compute. reflexivity.
  - vm_compute. reflexivity.
  - repeat constructor.
  - vm_compute. reflexivity.
Defined.

(** X8. Without the marker file, or with a marker none of whose lines
    carries the key, parse_snapshot_date raises RuntimeError and the check
    command exits with 1, whatever else is in the snapshot directory. *)
Theorem check_fails_without_snapshot_date (w : world) :
  (fs w !! VERSION_FILE = None \/
   exists raw, fs w !! VERSION_FILE = Some (File raw) /\
               Forall (fun l => no_date_key l = true) (splitlines raw)) ->
  (exists msg, parse_snapshot_date w = (Raise (RuntimeError msg), w)) /\
  exit_code CmdCheck w = 1.
Proof.
  intros Hcase.
  assert (H : exists msg, parse_snapshot_date w = (Raise (RuntimeError msg), w)).
  { destruct Hcase as [Hnone | (raw & Hfile & Hlines)].
    - unfold parse_snapshot_date.
      rewrite (bind_ok _ _ _ _ _ (path_exists_eq _ _)), Hnone.
      rewrite bool_decide_eq_false_2 by (intros [x Hx]; discriminate Hx).
      eexists. reflexivity.
    - rewrite (parse_snapshot_date_file w raw Hfile), (scan_snapshot_date_none _ Hlines).
      eexists. reflexivity. }
  split; [exact H|]. destruct H as [msg H].
  unfold exit_code. simpl main.
  rewrite (check_snapshot_raises w (RuntimeError msg)); [reflexivity|].
  rewrite H. reflexivity.
Qed.

(** Witness for X8: the fresh sample checkout has no marker. *)
Lemma check_fails_without_snapshot_date_witness :
  exit_code CmdCheck sample_world = 1.
Proof.
  apply (check_fails_without_snapshot_date sample_world).
  left. vm_compute. reflexivity.
Defined.

(** ** Frames of the computations *)

Lemma frames_same {A} S (m : M A) :
  (forall w, snd (m w) = w) -> frames S m.
Proof.
  intros Hm w r w' H. pose proof (Hm w) as Hw. rewrite H in Hw. simpl in Hw. subst w'.
  split; [apply touches_refl | auto].
Qed.

Lemma frames_ret {A} S (a : A) : frames S (ret a).
Proof. apply frames_same. reflexivity. Qed.

Lemma frames_raise {A} S e : frames S (raise (A := A) e).
Proof. apply frames_same. reflexivity. Qed.

Lemma frames_lift {A} S (r : result A) : frames S (lift r).
Proof. apply frames_same. reflexivity. Qed.

Lemma frames_mono {A} (S S' : path -> Prop) (m : M A) :
  (forall q, S q -> S' q) -> frames S m -> frames S' m.
Proof.
  intros HS Hm w r w' H. destruct (Hm w r w' H) as (Ht & Hrest).
  split; [eapply touches_mono; eassumption | exact Hrest].
Qed.

Lemma frames_bind {A B} S (m : M A) (k : A -> M B) :
  frames S m -> (forall a, frames S (k a)) -> frames S (bind m k).
Proof.
  intros Hm Hk w r w' H. unfold bind in H.
  destruct (m w) as [[a|e] w1] eqn:E.
  - destruct (Hm _ _ _ E) as (Ht1 & Hd1 & Hn1 & Hr1).
    destruct (Hk a _ _ _ H) as (Ht2 & Hd2 & Hn2 & Hr2).
    split; [eapply touches_trans; eassumption|]. repeat split; congruence.
  - injection H as <- <-. exact (Hm _ _ _ E).
Qed.

Lemma frames_print S line : frames S (print line).
Proof.
  intros w r w' H. rewrite print_printed in H. injection H as <- <-.
  split; [apply touches_refl | auto].
Qed.

Lemma frames_mkdir_parents (S : path -> Prop) d p :
  S p -> d `prefix_of` p -> frames S (mkdir_parents d).
Proof.
  intros Hp Hpre w r w' H. destruct r as [[]|e].
  - apply mkdir_parents_inv in H as [Hstep _].
    destruct (Hstep S p Hp Hpre) as (Hr & Hd & Hn & _ & Ht). auto.
  - unfold mkdir_parents in H. destruct (mkdir_from [] d (fs w)); [discriminate|].
    injection H as _ <-. split; [apply touches_refl | auto].
Qed.

Lemma frames_path_write_text p text : frames (eq p) (path_write_text p text).
Proof.
  intros w r w' H. unfold path_write_text in H.
  assert (Hcases : w' = w \/ w' = set_fs (<[p := File text]> (fs w)) w).
  { destruct (fs w !! p) as [[t|]|]; injection H as _ <-; auto. }
  destruct Hcases as [-> | ->]; (split; [|auto]).
  - apply touches_refl.
  - intros q Hq. left. apply lookup_insert_ne. exact Hq.
Qed.

Lemma frames_write_text p text : frames (eq p) (write_text p text).
Proof.
  unfold write_text.
  apply frames_bind; [exact (frames_mkdir_parents _ _ p eq_refl (parent_prefix p))|].
  intros _. apply frames_path_write_text.
Qed.

Lemma frames_try_download S url : frames S (try_download url).
Proof.
  apply frames_same. intros w. rewrite try_download_eq. destruct (net w url); reflexivity.
Qed.

Lemma frames_for_collect {A B} S (body : A -> M B) xs :
  (forall x, In x xs -> frames S (body x)) -> frames S (for_collect xs body).
Proof.
  induction xs as [|x xs IH]; intros Hbody; simpl; [apply frames_ret|].
  apply frames_bind; [apply Hbody; left; reflexivity|]. intros y.
  apply frames_bind; [apply IH; intros; apply Hbody; right; assumption|].
  intros ys. apply frames_ret.
Qed.

Lemma frames_in_lib_dir lib name text :
  frames (in_dir (lib_dir lib)) (write_text (lib_dir lib ++ [name]) text).
Proof.
  eapply frames_mono; [|apply frames_write_text]. intros q <-. exists name. reflexivity.
Qed.

Lemma frames_download_pages lib version metadata :
  frames (in_dir (lib_dir lib)) (download_pages lib version metadata).
Proof.
  unfold download_pages.
  apply frames_bind; [apply frames_try_download|]. intros [ok_crate crate_body].
  apply frames_bind; [apply frames_try_download|]. intros [ok_rustdoc rustdoc_body].
  apply frames_bind; [destruct ok_crate; [apply frames_in_lib_dir | apply frames_ret]|].
  intros _.
  apply frames_bind; [destruct ok_rustdoc; [apply frames_in_lib_dir | apply frames_ret]|].
  intros _.
  apply frames_bind;
    [destruct (negb (ok_crate && ok_rustdoc)); [apply frames_in_lib_dir | apply frames_ret]|].
  intros _. apply frames_ret.
Qed.

Lemma frames_sync_library lib version download_html :
  frames (in_dir (lib_dir lib)) (sync_library lib version download_html).
Proof.
  unfold sync_library. cbv zeta.
  apply frames_bind.
  { apply (frames_mkdir_parents _ _ (lib_dir lib ++ ["metadata.json"]));
      [exists "metadata.json"; reflexivity | apply prefix_app_r; reflexivity]. }
  intros _.
  apply frames_bind; [destruct download_html; [apply frames_download_pages | apply frames_ret]|].
  intros metadata.
  apply frames_bind; [apply (frames_in_lib_dir lib "metadata.json")|].
  intros _. apply frames_ret.
Qed.

(** In link mode sync_library writes metadata.json and no other file. *)
Lemma frames_sync_library_links lib version :
  frames (eq (metadata_path lib)) (sync_library lib version false).
Proof.
  unfold sync_library. cbv zeta.
  apply frames_bind.
  { apply (frames_mkdir_parents _ _ (metadata_path lib)); [reflexivity|].
    exists ["metadata.json"]. unfold metadata_path, lib_dir. rewrite <- app_assoc. reflexivity. }
  intros _.
  apply frames_bind; [apply frames_ret|]. intros metadata.
  apply frames_bind; [apply frames_write_text|].
  intros _. apply frames_ret.
Qed.

Lemma frames_dict_get S versions name : frames S (dict_get versions name).
Proof. unfold dict_get. destruct (versions !! name); [apply frames_ret | apply frames_raise]. Qed.

Lemma frames_parse_cargo_lock_versions S : frames S parse_cargo_lock_versions.
Proof. apply frames_same, parse_cargo_lock_versions_world. Qed.

Lemma frames_sync_snapshot_with (S : path -> Prop) download_html :
  S VERSION_FILE -> S INDEX_FILE ->
  (forall lib version, In lib LIBRARIES -> frames S (sync_library lib version download_html)) ->
  frames S (sync_snapshot download_html).
Proof.
  intros Hv Hi Hlib. unfold sync_snapshot.
  apply frames_bind; [apply frames_same; reflexivity|]. intros snapshot_date.
  apply frames_bind; [apply frames_parse_cargo_lock_versions|]. intros versions.
  apply frames_bind.
  { apply frames_for_collect. intros lib Hin.
    apply frames_bind; [apply frames_dict_get|]. intros version. apply Hlib, Hin. }
  intros records.
  apply frames_bind.
  { eapply frames_mono; [|apply frames_write_text]. intros q <-. exact Hv. }
  intros _. apply frames_bind.
  { eapply frames_mono; [|apply frames_write_text]. intros q <-. exact Hi. }
  intros _. apply frames_bind; [apply frames_print|]. intros _. apply frames_ret.
Qed.

(** X9. Whatever sync returns or raises, in either mode, it leaves every
    path outside the marker, the index and the entries of the tracked
    libraries' directories as it was, except that it may have made, where
    they were missing, the snapshot directory, the directories above it and
    the directories of the tracked libraries; a regular file there, such as
    the lockfile, keeps its text.  The same holds when sync fails half
    way. *)
Theorem sync_stays_in_snapshot_dir (download_html : bool) (w : world) :
  (forall q, ~ sync_paths q ->
     fs (snd (sync_snapshot download_html w)) !! q = fs w !! q \/
     (fs w !! q = None /\
      fs (snd (sync_snapshot download_html w)) !! q = Some Dir /\
      (q `prefix_of` SNAPSHOT_DIR \/ exists lib, In lib LIBRARIES /\ q = lib_dir lib))) /\
  forall q text, ~ sync_paths q -> fs w !! q = Some (File text) ->
    fs (snd (sync_snapshot download_html w)) !! q = Some (File text).
Proof.
  assert (Hfr : frames sync_paths (sync_snapshot download_html)).
  { apply frames_sync_snapshot_with.
    - left. reflexivity.
    - right. left. reflexivity.
    - intros lib version Hin. eapply frames_mono; [|apply frames_sync_library].
      intros q Hq. right. right. exists lib. split; [exact Hin | exact Hq]. }
  destruct (Hfr w _ _ (surjective_pairing _)) as [Ht _].
  split; [|intros q text Hq Hfile; eapply touches_file; eassumption].
  intros q Hq. destruct (Ht q Hq) as [E | (N & D & p & Hp & Hpre)]; [left; exact E|].
  right. split; [exact N|]. split; [exact D|].
  exact (on_the_way_to_sync_paths q p Hq Hp Hpre).
Qed.

(** X10. In link mode sync writes no file but the marker, the index and
    the metadata.json of each tracked library, whatever it returns or
    raises: pages and status files left by an earlier download stay as they
    are. *)
Theorem link_sync_writes_three_kinds (w : world) :
  touches link_sync_paths (fs w) (fs (snd (sync_snapshot false w))) /\
  forall lib name text,
    name <> "metadata.json" ->
    fs w !! (lib_dir lib ++ [name]) = Some (File text) ->
    fs (snd (sync_snapshot false w)) !! (lib_dir lib ++ [name]) = Some (File text).
Proof.
  assert (Hfr : frames link_sync_paths (sync_snapshot false)).
  { apply frames_sync_snapshot_with.
    - left. reflexivity.
    - right. left. reflexivity.
    - intros lib version Hin. eapply frames_mono; [|apply frames_sync_library_links].
      intros q <-. right. right. exists lib. split; [exact Hin | reflexivity]. }
  destruct (Hfr w _ _ (surjective_pairing _)) as [Ht _].
  split; [exact Ht|]. intros lib name text Hname Hfile.
  eapply touches_file; [exact Ht | | exact Hfile].
  intros [Hv | [Hi | (lib' & _ & Hm)]].
  - apply (f_equal length) in Hv. unfold lib_dir in Hv. rewrite !length_app in Hv. discriminate Hv.
  - apply (f_equal length) in Hi. unfold lib_dir in Hi. rewrite !length_app in Hi. discriminate Hi.
  - apply (f_equal (fun p => last p)) in Hm. rewrite last_snoc in Hm.
    unfold metadata_path in Hm.
    change (SNAPSHOT_DIR ++ [slug lib'; "metadata.json"])
      with ((SNAPSHOT_DIR ++ [slug lib']) ++ ["metadata.json"]) in Hm.
    rewrite last_snoc in Hm. congruence.
Qed.

Lemma lockfile_outside_sync_paths : ~ sync_paths CARGO_LOCK.
Proof.
  intros [H | [H | (lib & _ & name & H)]]; apply (f_equal length) in H;
    unfold lib_dir in H; try rewrite !length_app in H; discriminate H.
Qed.

(** Witness for X9: the lockfile of the sample checkout after a sync with
    downloading enabled. *)
Lemma sync_stays_in_snapshot_dir_witness :
  ~ sync_paths CARGO_LOCK /\
  fs sample_world !! CARGO_LOCK = Some (File sample_lock) /\
  fs (snd (sync_snapshot true sample_world)) !! CARGO_LOCK = Some (File sample_lock).
Proof.
  split; [exact lockfile_outside_sync_paths|]. split; [reflexivity|].
  apply (proj2 (sync_stays_in_snapshot_dir true sample_world) CARGO_LOCK sample_lock).
  - exact lockfile_outside_sync_paths.
  - reflexivity.
Defined.

(** Witness for X10: a status file left by an offline download survives a
    later sync in link mode. *)
Lemma link_sync_writes_three_kinds_witness :
  fs (snd (sync_snapshot false offline_world))
    !! (lib_dir (mkLibrary "tokio" "tokio" "tokio") ++ ["DOWNLOAD_STATUS.txt"])
  = Some (File (status_text (UrlError UNREACHABLE) (UrlError UNREACHABLE))).
Proof.
  apply (proj2 (link_sync_writes_three_kinds offline_world)
           (mkLibrary "tokio" "tokio" "tokio") "DOWNLOAD_STATUS.txt").
  - discriminate.
  - vm_compute. reflexivity.
Defined.

(** ** Sync, then check *)

Lemma days_between_same d : days_between d d = 0.
Proof. unfold days_between. lia. Qed.

(** X11. A check that follows a successful sync on the same day passes:
    check_snapshot returns 0, prints the snapshot date and an age of 0
    days, and prints no warning. *)
Theorem check_passes_after_sync (download_html : bool) (w : world) (n : Z) (w' : world) :
  valid_date (today w) ->
  sync_snapshot download_html w = (Ok n, w') ->
  check_snapshot w' =
    (Ok 0, printed ["Server library docs snapshot date: " +:+ isoformat (today w);
                    "Snapshot age: 0 day(s)"] w').
Proof.
  intros Hvalid Hsync.
  assert (Hfr : frames sync_paths (sync_snapshot download_html)).
  { apply frames_sync_snapshot_with.
    - left. reflexivity.
    - right. left. reflexivity.
    - intros lib version Hin. eapply frames_mono; [|apply frames_sync_library].
      intros q Hq. right. right. exists lib. split; [exact Hin | exact Hq]. }
  destruct (Hfr _ _ _ Hsync) as (_ & Htoday & _).
  apply sync_snapshot_inv in Hsync
    as (versions & records & _ & _ & _ & Hfiles & Hver & _).
  assert (Hdate : fst (parse_snapshot_date w') = Ok (today w)).
  { rewrite (parse_snapshot_date_file w' _ Hver), (scan_version_text _ _ Hvalid). reflexivity. }
  assert (Hall : missing_of w' LIBRARIES = []).
  { apply missing_of_nil, Forall_forall. intros lib Hlib. apply list_elem_of_In in Hlib.
    destruct (Hfiles lib Hlib) as (v & _ & Hfile).
    unfold has_metadata. rewrite Hfile. apply bool_decide_eq_true. eauto. }
  pose proof (check_snapshot_present w' (today w) Hdate Hall) as H. cbv zeta in H.
  rewrite H, Htoday, days_between_same. reflexivity.
Qed.

(** Witness for X11: the sample checkout. *)
Lemma check_passes_after_sync_witness :
  check_snapshot synced_world =
    (Ok 0, printed ["Server library docs snapshot date: 2026-11-04";
                    "Snapshot age: 0 day(s)"] synced_world).
Proof.
  apply (check_passes_after_sync false sample_world 0 synced_world).
  - reflexivity.
  - exact sample_sync.
Defined.

Lemma parse_cargo_lock_versions_eq w r :
  fst (parse_cargo_lock_versions w) = r -> parse_cargo_lock_versions w = (r, w).
Proof.
  intros <-. pose proof (parse_cargo_lock_versions_world w) as Hw.
  destruct (parse_cargo_lock_versions w) as [r w']. simpl in *. subst w'. reflexivity.
Qed.

(** X12. When parse_cargo_lock_versions raises (no lockfile, a tracked
    crate without a package entry, a version semver_key cannot read), sync
    raises the same exception before it writes anything: the world is as
    before. *)
Theorem sync_fails_before_writing (download_html : bool) (w : world) (e : exn) :
  fst (parse_cargo_lock_versions w) = Raise e ->
  sync_snapshot download_html w = (Raise e, w).
Proof.
  intros H. unfold sync_snapshot.
  rewrite (bind_ok _ _ _ _ _ (eq_refl : date_today w = (Ok (today w), w))).
  apply bind_raise, parse_cargo_lock_versions_eq, H.
Qed.

(** Witness for X12: a checkout without a lockfile. *)
Lemma sync_fails_before_writing_witness :
  sync_snapshot true (World "/repo" ∅ (Date 2026 11 4) (fun _ => UrlError UNREACHABLE) [])
  = (Raise (RuntimeError "Cargo.lock not found: /repo/Cargo.lock"),
     World "/repo" ∅ (Date 2026 11 4) (fun _ => UrlError UNREACHABLE) []).
Proof.
  apply (sync_fails_before_writing true).
  vm_compute. reflexivity.
Defined.

(** ** write_text *)

Lemma mkdir_from_clear todo : forall above m m',
  mkdir_from above todo m = Some m' ->
  forall k t, (1 <= k <= length todo)%nat -> m !! (above ++ take k todo) <> Some (File t).
Proof.
  induction todo as [|c rest IH]; intros above m m' H k t Hk; simpl in Hk; [lia|].
  simpl in H. destruct k as [|[|k]]; [lia| |].
  - change (take 1 (c :: rest)) with [c].
    destruct (m !! (above ++ [c])) as [[t'|]|]; [discriminate | discriminate | discriminate].
  - change (take (S (S k)) (c :: rest)) with (c :: take (S k) rest).
    replace (above ++ c :: take (S k) rest) with ((above ++ [c]) ++ take (S k) rest)
      by (rewrite <- app_assoc; reflexivity).
    assert (Hk' : (1 <= S k <= length rest)%nat) by lia.
    destruct (m !! (above ++ [c])) as [[t'|]|] eqn:E; [discriminate| |].
    + exact (IH _ _ _ H (S k) t Hk').
    + pose proof (IH _ _ _ H (S k) t Hk') as Hne.
      rewrite lookup_insert_ne in Hne; [exact Hne|].
      intros Heq. apply (f_equal length) in Heq.
      rewrite !length_app, length_take in Heq.
      change (length [c]) with 1%nat in Heq. lia.
Qed.

Lemma parent_shorter (p : path) : p <> [] -> (length (parent p) < length p)%nat.
Proof.
  intros Hp. destruct (exists_last Hp) as (d & name & ->).
  rewrite parent_in_dir, length_app. simpl. lia.
Qed.

Lemma mkdir_parent_keeps_target p w w1 :
  mkdir_parents (parent p) w = (Ok tt, w1) -> fs w1 !! p = fs w !! p.
Proof.
  unfold mkdir_parents.
  destruct (mkdir_from [] (parent p) (fs w)) as [m|] eqn:E; [|discriminate].
  intros [= <-]. unfold set_fs. cbn [fs].
  destruct p as [|c p].
  - simpl in E. injection E as <-. reflexivity.
  - apply (mkdir_from_deeper _ _ _ _ _ E). simpl length at 1.
    apply parent_shorter. discriminate.
Qed.

(** X13. write_text succeeds exactly when no regular file stands where a
    directory on the way to the file is needed and the target itself is no
    directory.  Then the target holds the text, every directory on the way
    exists, and every other regular file keeps its text. *)
Theorem write_text_succeeds_iff (p : path) (text : string) (w : world) :
  ((exists w', write_text p text w = (Ok tt, w')) <->
   dirs_clear (parent p) (fs w) /\ fs w !! p <> Some Dir) /\
  (forall w', write_text p text w = (Ok tt, w') ->
     fs w' !! p = Some (File text) /\
     dirs_ready (parent p) (fs w') /\
     forall q t, q <> p -> fs w !! q = Some (File t) -> fs w' !! q = Some (File t)).
Proof.
  split; [split|].
  - intros [w' H]. unfold write_text in H.
    apply bind_inv in H as ([] & w1 & Hmk & Hwr).
    pose proof (mkdir_parent_keeps_target _ _ _ Hmk) as Hsame.
    split.
    + unfold mkdir_parents in Hmk.
      destruct (mkdir_from [] (parent p) (fs w)) as [m|] eqn:E; [|discriminate].
      intros k t Hk. exact (mkdir_from_clear _ _ _ _ E k t Hk).
    + unfold path_write_text in Hwr. rewrite Hsame in Hwr.
      destruct (fs w !! p) as [[t|]|]; [discriminate | discriminate | discriminate].
  - intros [Hclear Hp].
    destruct (mkdir_parents_ok _ _ Hclear) as [w1 Hmk].
    pose proof (mkdir_parent_keeps_target _ _ _ Hmk) as Hsame.
    unfold write_text. rewrite (bind_ok _ _ _ _ _ Hmk).
    unfold path_write_text. rewrite Hsame.
    destruct (fs w !! p) as [[t|]|]; eauto. congruence.
  - intros w' H. pose proof (write_text_inv _ _ _ _ H) as [(_ & _ & _ & _ & Ht) Hfile].
    split; [exact Hfile|]. split.
    + unfold write_text in H. apply bind_inv in H as ([] & w1 & Hmk & Hwr).
      apply mkdir_parents_inv in Hmk as [_ Hready].
      unfold path_write_text in Hwr.
      assert (Hw' : w' = set_fs (<[p := File text]> (fs w1)) w1)
        by (destruct (fs w1 !! p) as [[t|]|]; congruence).
      subst w'. unfold set_fs. cbn [fs]. intros k Hk.
      rewrite lookup_insert_ne; [apply Hready, Hk|].
      intros Heq. apply (f_equal length) in Heq. rewrite length_take in Heq.
      assert (p <> []) by (intros ->; simpl in Hk; lia).
      pose proof (parent_shorter p ltac:(assumption)). lia.
    + intros q t Hq Hf. eapply touches_file; [exact Ht | congruence | exact Hf].
Qed.

(** Witness for X13: a file two directories below the root of the sample
    checkout. *)
Lemma write_text_succeeds_iff_witness :
  exists w', write_text ["docs"; "notes"; "a.txt"] "hello" sample_world = (Ok tt, w') /\
             fs w' !! ["docs"; "notes"; "a.txt"] = Some (File "hello") /\
             fs w' !! CARGO_LOCK = Some (File sample_lock).
Proof.
  destruct (proj2 (proj1 (write_text_succeeds_iff ["docs"; "notes"; "a.txt"] "hello"
                            sample_world))) as [w' Hw'].
  - split.
    + intros k t Hk. simpl in Hk.
      assert (Hcases : (k = 1 \/ k = 2)%nat) by lia.
      destruct Hcases as [-> | ->]; vm_compute; discriminate.
    + vm_compute. discriminate.
  - exists w'. split; [exact Hw'|].
    destruct (proj2 (write_text_succeeds_iff _ _ _) w' Hw') as (Hfile & _ & Hkeep).
    split; [exact Hfile|]. apply Hkeep; [discriminate | reflexivity].
Defined.

(** ** A download that succeeds *)

Lemma mkdir_lib_dir_keeps lib w w1 name :
  mkdir_parents (lib_dir lib) w = (Ok tt, w1) ->
  fs w1 !! (lib_dir lib ++ [name]) = fs w !! (lib_dir lib ++ [name]).
Proof.
  unfold mkdir_parents.
  destruct (mkdir_from [] (lib_dir lib) (fs w)) as [m|] eqn:E; [|discriminate].
  intros [= <-]. unfold set_fs. cbn [fs].
  apply (mkdir_from_deeper _ _ _ _ _ E). rewrite length_app. simpl. lia.
Qed.

(** X14. With downloading enabled and both pages fetched, sync_library
    stores the two bodies and records [downloaded] as true, and it leaves
    DOWNLOAD_STATUS.txt as it was: a status file written by an earlier
    failure is neither removed nor updated. *)
Theorem sync_library_keeps_stale_status (lib : Library) (version : string) (w : world)
  (crate_body rustdoc_body : string) :
  lib_dir_writable lib w ->
  net w (docs_rs_crate_url lib version) = Fetched crate_body ->
  net w (docs_rs_rustdoc_url lib version) = Fetched rustdoc_body ->
  exists w',
    sync_library lib version true w = (Ok (row_of lib version), w') /\
    fs w' !! (lib_dir lib ++ ["docsrs-crate.html"]) = Some (File crate_body) /\
    fs w' !! (lib_dir lib ++ ["docsrs-rustdoc.html"]) = Some (File rustdoc_body) /\
    fs w' !! metadata_path lib
      = Some (File (json_dumps (full_metadata lib version true) +:+ nl)) /\
    fs w' !! (lib_dir lib ++ ["DOWNLOAD_STATUS.txt"])
      = fs w !! (lib_dir lib ++ ["DOWNLOAD_STATUS.txt"]).
Proof.
  intros Hw Hc Hr.
  destruct (mkdir_lib_dir lib w Hw) as (w1 & Hmk & Hready1 & Hnet1).
  pose proof (mkdir_lib_dir_keeps lib w w1 "DOWNLOAD_STATUS.txt" Hmk) as Hkeep.
  unfold sync_library. cbv zeta.
  rewrite (bind_ok _ _ _ _ _ Hmk). cbv iota.
  assert (Hd1 : try_download (docs_rs_crate_url lib version) w1 = (Ok (true, crate_body), w1))
    by (rewrite try_download_eq, Hnet1, Hc; reflexivity).
  assert (Hd2 : try_download (docs_rs_rustdoc_url lib version) w1 = (Ok (true, rustdoc_body), w1))
    by (rewrite try_download_eq, Hnet1, Hr; reflexivity).
  assert (Hdl : exists w2,
    download_pages lib version (base_metadata lib version) w1
      = (Ok (full_metadata lib version true), w2) /\
    lib_dir_ready lib w2 /\
    fs w2 !! (lib_dir lib ++ ["docsrs-crate.html"]) = Some (File crate_body) /\
    fs w2 !! (lib_dir lib ++ ["docsrs-rustdoc.html"]) = Some (File rustdoc_body) /\
    fs w2 !! (lib_dir lib ++ ["DOWNLOAD_STATUS.txt"])
      = fs w1 !! (lib_dir lib ++ ["DOWNLOAD_STATUS.txt"])).
  { unfold download_pages.
    rewrite (bind_ok _ _ _ _ _ Hd1). cbv beta iota.
    rewrite (bind_ok _ _ _ _ _ Hd2). cbv beta iota.
    write_lib_step lib "docsrs-crate.html" crate_body Hready1.
    write_lib_step lib "docsrs-rustdoc.html" rustdoc_body Hready.
    eexists. split; [reflexivity|]. split; [exact Hready0|].
    split; [rewrite Hother0 by discriminate; exact Hfile|].
    split; [exact Hfile0|].
    rewrite Hother0 by discriminate. apply Hother. discriminate. }
  destruct Hdl as (w2 & Hdl & Hready2 & Hcrate & Hrustdoc & Hstatus).
  fold (base_metadata lib version).
  rewrite (bind_ok _ _ _ _ _ Hdl).
  write_lib_step lib "metadata.json"
    (json_dumps (full_metadata lib version true) +:+ nl) Hready2.
  exists w0. split; [reflexivity|].
  split; [rewrite Hother by discriminate; exact Hcrate|].
  split; [rewrite Hother by discriminate; exact Hrustdoc|].
  split; [exact Hfile|].
  rewrite Hother by discriminate. congruence.
Qed.

(** Witness for X14: tokio in the offline sample checkout, once the
    network is back; the status file of the failed download is still
    there. *)
Lemma sync_library_keeps_stale_status_witness :
  exists w',
    sync_library (mkLibrary "tokio" "tokio" "tokio") "1.38.0" true online_world
      = (Ok (row_of (mkLibrary "tokio" "tokio" "tokio") "1.38.0"), w') /\
    fs w' !! metadata_path (mkLibrary "tokio" "tokio" "tokio")
      = Some (File (json_dumps (full_metadata (mkLibrary "tokio" "tokio" "tokio") "1.38.0" true)
                    +:+ nl)) /\
    fs w' !! (lib_dir (mkLibrary "tokio" "tokio" "tokio") ++ ["DOWNLOAD_STATUS.txt"])
      = Some (File (status_text (UrlError UNREACHABLE) (UrlError UNREACHABLE))).
Proof.
  destruct (sync_library_keeps_stale_status (mkLibrary "tokio" "tokio" "tokio") "1.38.0"
              online_world "<html></html>" "<html></html>")
    as (w' & Hrun & _ & _ & Hmeta & Hstatus).
  - split.
    + intros k t Hk. simpl in Hk.
      assert (Hcases : (k = 1 \/ k = 2 \/ k = 3 \/ k = 4 \/ k = 5)%nat) by lia.
      destruct Hcases as [-> | [-> | [-> | [-> | ->]]]]; vm_compute; discriminate.
    + intros f Hf. simpl in Hf.
      destruct Hf as [<- | [<- | [<- | [<- | []]]]]; vm_compute; discriminate.
  - reflexivity.
  - reflexivity.
  - exists w'. split; [exact Hrun|]. split; [exact Hmeta|].
    rewrite Hstatus. vm_compute. reflexivity.
Defined.

(** ** Running sync again *)

Lemma touches_dir S m m' q :
  touches S m m' -> ~ S q -> m !! q = Some Dir -> m' !! q = Some Dir.
Proof. intros H Hq Hd. destruct (H q Hq) as [E | [N D]]; congruence. Qed.

Lemma dirs_ready_touches S d m m' :
  touches S m m' -> (forall k, ~ S (take k d)) -> dirs_ready d m -> dirs_ready d m'.
Proof. intros Ht HS Hr k Hk. eapply touches_dir; [exact Ht | apply HS | apply Hr, Hk]. Qed.

Lemma take_not_in_dir d d' k : length d' = length d -> ~ in_dir d' (take k d).
Proof.
  intros Hlen [name Heq]. apply (f_equal length) in Heq.
  rewrite length_take, length_app in Heq. simpl in Heq. lia.
Qed.

Lemma lib_dir_length lib : length (lib_dir lib) = 5%nat.
Proof. reflexivity. Qed.

Lemma sync_library_dirs_ready lib version download_html w r w' :
  sync_library lib version download_html w = (Ok r, w') -> dirs_ready (lib_dir lib) (fs w').
Proof.
  unfold sync_library. cbv zeta. intros H.
  apply bind_inv in H as ([] & w1 & Hmk & H).
  apply mkdir_parents_inv in Hmk as [_ Hready].
  assert (Hfr : frames (in_dir (lib_dir lib))
    (let! metadata := if download_html
                      then download_pages lib version (base_metadata lib version)
                      else ret (base_metadata lib version) in
     let! _ := write_text (lib_dir lib ++ ["metadata.json"]) (json_dumps metadata +:+ nl) in
     ret (row_of lib version))).
  { apply frames_bind;
      [destruct download_html; [apply frames_download_pages | apply frames_ret]|].
    intros metadata. apply frames_bind; [apply frames_in_lib_dir | intros _; apply frames_ret]. }
  destruct (Hfr _ _ _ H) as [Ht _].
  eapply dirs_ready_touches; [exact Ht | | exact Hready].
  intros k. apply take_not_in_dir. reflexivity.
Qed.

Lemma sync_all_dirs_ready versions download_html libs : forall w records w',
  for_collect libs (sync_one versions download_html) w = (Ok records, w') ->
  forall lib, In lib libs -> dirs_ready (lib_dir lib) (fs w').
Proof.
  induction libs as [|lib0 libs IH]; intros w records w' H lib Hlib; [contradiction|].
  simpl in H. apply bind_inv in H as (r & w1 & Hone & H).
  apply bind_inv in H as (rs & w2 & Hrest & H). injection H as <- <-.
  destruct Hlib as [<- | Hlib]; [|eapply IH; eassumption].
  unfold sync_one in Hone. apply bind_inv in Hone as (v & w0 & Hget & Hone).
  apply sync_library_dirs_ready in Hone.
  assert (Hfr : frames (in_lib_dirs libs) (for_collect libs (sync_one versions download_html))).
  { apply frames_for_collect. intros lib' Hin. unfold sync_one.
    apply frames_bind; [apply frames_dict_get|]. intros v'.
    eapply frames_mono; [|apply frames_sync_library].
    intros q Hq. exists lib'. split; assumption. }
  destruct (Hfr _ _ _ Hrest) as [Ht _].
  eapply dirs_ready_touches; [exact Ht | | exact Hone].
  intros k (lib' & _ & Hq). revert Hq. apply take_not_in_dir. reflexivity.
Qed.

Lemma tracked_slug lib :
  In lib LIBRARIES -> slug lib <> "VERSION" /\ slug lib <> "README.md".
Proof.
  intros Hin. simpl in Hin.
  repeat (destruct Hin as [<- | Hin]; [split; discriminate|]). contradiction.
Qed.

Lemma take_lib_dir_not_status lib k :
  In lib LIBRARIES ->
  take k (lib_dir lib) <> VERSION_FILE /\ take k (lib_dir lib) <> INDEX_FILE.
Proof.
  intros Hin. destruct (tracked_slug lib Hin) as [Hv Hi].
  destruct (decide (5 <= k)%nat) as [Hk | Hk].
  - rewrite take_ge by (rewrite lib_dir_length; exact Hk).
    split; intros Heq; apply (f_equal (fun p => last p)) in Heq;
      unfold lib_dir, VERSION_FILE, INDEX_FILE in Heq; rewrite !last_snoc in Heq; congruence.
  - split; intros Heq; apply (f_equal length) in Heq;
      rewrite length_take, lib_dir_length in Heq; simpl in Heq; lia.
Qed.

(** After a successful sync the directory of every tracked library is in
    place. *)
Lemma sync_snapshot_dirs_ready download_html w n w' :
  sync_snapshot download_html w = (Ok n, w') ->
  forall lib, In lib LIBRARIES -> dirs_ready (lib_dir lib) (fs w').
Proof.
  unfold sync_snapshot. intros H lib Hlib.
  apply bind_inv in H as (day & w0 & Hday & H). injection Hday as <- <-.
  apply bind_inv in H as (versions & w1 & Hparse & H).
  pose proof (parse_cargo_lock_versions_inv _ _ _ Hparse) as [-> _].
  apply bind_inv in H as (records & w2 & Hloop & H).
  fold (sync_one versions download_html) in Hloop.
  pose proof (sync_all_dirs_ready _ _ _ _ _ _ Hloop lib Hlib) as Hready.
  assert (Hfr : frames (fun q => q = VERSION_FILE \/ q = INDEX_FILE)
    (let! _ := write_version (today w) download_html in
     let! _ := write_index (today w) records download_html in
     let! _ := print ("Done. Snapshot saved to " +:+ rel_str SNAPSHOT_DIR) in
     ret 0)).
  { apply frames_bind; [eapply frames_mono; [|apply frames_write_text]; intros q <-; auto|].
    intros _. apply frames_bind;
      [eapply frames_mono; [|apply frames_write_text]; intros q <-; auto|].
    intros _. apply frames_bind; [apply frames_print | intros _; apply frames_ret]. }
  destruct (Hfr _ _ _ H) as [Ht _].
  eapply dirs_ready_touches; [exact Ht | | exact Hready].
  intros k [Hv | Hi]; destruct (take_lib_dir_not_status lib k Hlib); contradiction.
Qed.

Lemma write_text_same p text w :
  fs w !! p = Some (File text) -> dirs_ready (parent p) (fs w) ->
  write_text p text w = (Ok tt, w).
Proof.
  intros Hfile Hready.
  rewrite (write_text_ready p text w Hready) by congruence.
  rewrite insert_id by exact Hfile. rewrite set_fs_same. reflexivity.
Qed.

Lemma sync_library_same lib version w :
  dirs_ready (lib_dir lib) (fs w) ->
  fs w !! metadata_path lib = Some (File (json_dumps (base_metadata lib version) +:+ nl)) ->
  sync_library lib version false w = (Ok (row_of lib version), w).
Proof.
  intros Hready Hfile. unfold sync_library. cbv zeta.
  rewrite (bind_ok _ _ _ _ _ (mkdir_parents_ready _ _ Hready)). cbv iota.
  unfold bind at 1. unfold ret at 1.
  assert (Hwr : write_text (lib_dir lib ++ ["metadata.json"])
                  (json_dumps (base_metadata lib version) +:+ nl) w = (Ok tt, w)).
  { apply write_text_same; [exact Hfile | rewrite parent_in_dir; exact Hready]. }
  rewrite (bind_ok _ _ _ _ _ Hwr). reflexivity.
Qed.

Lemma sync_all_same versions libs w :
  (forall lib, In lib libs ->
     exists v, versions !! crate lib = Some v /\
               dirs_ready (lib_dir lib) (fs w) /\
               fs w !! metadata_path lib
                 = Some (File (json_dumps (base_metadata lib v) +:+ nl))) ->
  for_collect libs (sync_one versions false) w = (Ok (rows_of versions libs), w).
Proof.
  induction libs as [|lib libs IH]; intros Hall; [reflexivity|].
  destruct (Hall lib (or_introl eq_refl)) as (v & Hv & Hready & Hfile).
  simpl for_collect.
  assert (Hone : sync_one versions false lib w = (Ok (row_of lib v), w)).
  { unfold sync_one, dict_get. rewrite Hv.
    rewrite (bind_ok _ _ _ _ _ (eq_refl : ret v w = (Ok v, w))).
    apply sync_library_same; assumption. }
  rewrite (bind_ok _ _ _ _ _ Hone).
  rewrite (bind_ok _ _ _ _ _ (IH (fun l Hl => Hall l (or_intror Hl)))).
  unfold rows_of. simpl. rewrite Hv. reflexivity.
Qed.

Lemma rows_of_Forall2 versions libs records :
  Forall2 (fun lib r => exists v, versions !! crate lib = Some v /\ r = row_of lib v)
          libs records ->
  records = rows_of versions libs.
Proof.
  induction 1 as [|lib r libs records (v & Hv & ->) _ IH]; [reflexivity|].
  unfold rows_of. simpl. rewrite Hv. simpl. f_equal. exact IH.
Qed.

(** parse_cargo_lock_versions depends on the lockfile and the root only. *)
Lemma parse_cargo_lock_versions_depends w w1 :
  fs w1 !! CARGO_LOCK = fs w !! CARGO_LOCK -> root w1 = root w ->
  fst (parse_cargo_lock_versions w1) = fst (parse_cargo_lock_versions w).
Proof.
  intros Hfs Hroot. unfold parse_cargo_lock_versions, bind, path_exists, read_text, raise, lift.
  assert (He : bool_decide (is_Some (fs w1 !! CARGO_LOCK))
               = bool_decide (is_Some (fs w !! CARGO_LOCK))) by (rewrite Hfs; reflexivity).
  rewrite He. destruct (bool_decide (is_Some (fs w !! CARGO_LOCK))); unfold negb; cbv beta iota.
  - rewrite Hfs. destruct (fs w !! CARGO_LOCK) as [[t|]|]; reflexivity.
  - unfold abs_str. rewrite Hroot. reflexivity.
Qed.

Lemma snapshot_dir_ready lib m : dirs_ready (lib_dir lib) m -> dirs_ready SNAPSHOT_DIR m.
Proof.
  intros H k Hk. simpl in Hk.
  replace (take k SNAPSHOT_DIR) with (take k (lib_dir lib)); [apply H; simpl; lia|].
  unfold lib_dir. apply take_app_le. simpl. lia.
Qed.

(** X15. Sync in link mode is idempotent: run again after a successful
    run, on the same day and with the lockfile it left untouched, it
    succeeds and changes no file or directory; only its closing line is
    printed. *)
Theorem link_sync_idempotent (w : world) (n : Z) (w1 : world) :
  sync_snapshot false w = (Ok n, w1) ->
  sync_snapshot false w1 =
    (Ok 0, printed ["Done. Snapshot saved to " +:+ rel_str SNAPSHOT_DIR] w1).
Proof.
  intros Hsync.
  assert (Hfr : frames sync_paths (sync_snapshot false)).
  { apply frames_sync_snapshot_with.
    - left. reflexivity.
    - right. left. reflexivity.
    - intros lib version Hin. eapply frames_mono; [|apply frames_sync_library].
      intros q Hq. right. right. exists lib. split; [exact Hin | exact Hq]. }
  destruct (Hfr _ _ _ Hsync) as (Htouch & Htoday & _ & Hroot).
  pose proof (sync_snapshot_dirs_ready _ _ _ _ Hsync) as Hready.
  apply sync_snapshot_inv in Hsync
    as (versions & records & _ & Hparse & Hrows & Hfiles & Hver & Hidx & _).
  apply rows_of_Forall2 in Hrows. subst records.
  assert (Hparse1 : parse_cargo_lock_versions w1 = (Ok versions, w1)).
  { apply parse_cargo_lock_versions_eq. rewrite <- Hparse.
    apply parse_cargo_lock_versions_depends; [|exact Hroot].
    apply parse_cargo_lock_versions_eq, parse_cargo_lock_versions_inv in Hparse
      as (_ & text & Hfile & _).
    rewrite Hfile. eapply touches_file; [exact Htouch | exact lockfile_outside_sync_paths | exact Hfile]. }
  assert (Hsnap : dirs_ready SNAPSHOT_DIR (fs w1)).
  { apply (snapshot_dir_ready (mkLibrary "tokio" "tokio" "tokio")), Hready. simpl. tauto. }
  unfold sync_snapshot.
  rewrite (bind_ok _ _ _ _ _ (eq_refl : date_today w1 = (Ok (today w1), w1))).
  rewrite (bind_ok _ _ _ _ _ Hparse1).
  fold (sync_one versions false).
  rewrite (bind_ok _ _ _ _ _ (sync_all_same versions LIBRARIES w1
             (fun lib Hlib => match Hfiles lib Hlib with
                              | ex_intro _ v (conj Hv Hfile) =>
                                  ex_intro _ v (conj Hv (conj (Hready lib Hlib) Hfile))
                              end))).
  rewrite Htoday.
  unfold write_version, write_index.
  assert (Hwv : write_text VERSION_FILE (version_text (today w) false) w1 = (Ok tt, w1)).
  { apply write_text_same; [exact Hver|].
    unfold VERSION_FILE. rewrite parent_in_dir. exact Hsnap. }
  assert (Hwi : write_text INDEX_FILE
                  (index_text (today w) (rows_of versions LIBRARIES) false) w1 = (Ok tt, w1)).
  { apply write_text_same; [exact Hidx|].
    unfold INDEX_FILE. rewrite parent_in_dir. exact Hsnap. }
  rewrite (bind_ok _ _ _ _ _ Hwv), (bind_ok _ _ _ _ _ Hwi).
  rewrite (bind_ok _ _ _ _ _ (print_printed _ _)). reflexivity.
Qed.

(** Witness for X15: the sample checkout, synced twice. *)
Lemma link_sync_idempotent_witness :
  sync_snapshot false synced_world =
    (Ok 0, printed ["Done. Snapshot saved to apps/server/docs/upstream-libraries"] synced_world).
Proof.
  apply (link_sync_idempotent sample_world 0 synced_world). exact sample_sync.
Defined.

(** ** When parse_cargo_lock_versions succeeds *)

Lemma with_keys_total candidates :
  (forall u, In u candidates -> exists k, semver_key u = Ok k) ->
  exists ks, with_keys candidates = Ok ks.
Proof.
  induction candidates as [|v rest IH]; intros Hall; simpl; [eauto|].
  destruct (Hall v (or_introl eq_refl)) as [k ->].
  destruct (IH (fun u Hu => Hall u (or_intror Hu))) as [ks ->]. eauto.
Qed.

Lemma choose_total candidates :
  candidates <> [] ->
  (forall u, In u candidates -> exists k, semver_key u = Ok k) ->
  exists v, choose candidates = Ok v.
Proof.
  intros Hne Hall. unfold choose, sorted_by_semver_key.
  destruct (with_keys_total _ Hall) as [ks Hks]. rewrite Hks.
  unfold last_item.
  destruct (last (map snd (sort_keyed key_ltb ks))) as [x|] eqn:El; [eauto|].
  exfalso. apply last_None, map_eq_nil in El.
  destruct candidates as [|c cs]; [congruence|].
  destruct (with_keys_In _ _ c Hks (or_introl eq_refl)) as (k & _ & Hin).
  apply (sort_keyed_In key_ltb) in Hin. rewrite El in Hin. exact Hin.
Qed.

Lemma select_versions_total libs versions : forall acc,
  (forall lib, In lib libs ->
     default [] (versions !! crate lib) <> [] /\
     forall u, In u (default [] (versions !! crate lib)) -> exists k, semver_key u = Ok k) ->
  exists result, select_versions libs versions acc = Ok result.
Proof.
  induction libs as [|lib libs IH]; intros acc Hall; simpl; [eauto|].
  destruct (Hall lib (or_introl eq_refl)) as [Hne Hkeys].
  destruct (choose_total _ Hne Hkeys) as [v Hv]. unfold choose in Hv.
  destruct (default [] (versions !! crate lib)) as [|c cs]; [congruence|].
  destruct (sorted_by_semver_key (c :: cs)) as [sorted|e]; [|discriminate].
  rewrite Hv. apply IH. intros lib' Hlib'. apply Hall. right. exact Hlib'.
Qed.

(** X16. parse_cargo_lock_versions returns exactly when the lockfile is a
    regular file in which every tracked crate has at least one package
    entry and semver_key can read the version of every entry of a tracked
    crate; in every other case it raises. *)
Theorem parse_cargo_lock_versions_succeeds_iff (w : world) :
  (exists result, parse_cargo_lock_versions w = (Ok result, w)) <->
  exists text,
    fs w !! CARGO_LOCK = Some (File text) /\
    forall lib, In lib LIBRARIES ->
      candidates_of (crate lib) text <> [] /\
      forall u, In u (candidates_of (crate lib) text) -> exists k, semver_key u = Ok k.
Proof.
  split.
  - intros [result H].
    destruct (parse_cargo_lock_versions_chosen _ _ _ H) as (text & Hfile & Hlibs).
    exists text. split; [exact Hfile|]. intros lib Hlib.
    destruct (Hlibs lib Hlib) as (v & Hne & Hch & _). split; [exact Hne|].
    destruct (choose_max _ _ Hch) as (_ & kv & _ & Hall).
    intros u Hu. destruct (Hall u Hu) as (ku & Hku & _). eauto.
  - intros (text & Hfile & Hlibs).
    destruct (select_versions_total LIBRARIES (collect_versions text) ∅) as [result Hsel].
    { intros lib Hlib. rewrite collect_versions_lookup. apply Hlibs, Hlib. }
    exists result. unfold parse_cargo_lock_versions.
    rewrite (bind_ok _ _ _ _ _ (path_exists_eq _ _)).
    rewrite Hfile, bool_decide_eq_true_2 by eauto. cbn [negb].
    assert (Hread : read_text CARGO_LOCK w = (Ok text, w))
      by (unfold read_text; rewrite Hfile; reflexivity).
    rewrite (bind_ok _ _ _ _ _ Hread). unfold lift. rewrite Hsel. reflexivity.
Qed.

(** Witness for X16: the sample lockfile meets the condition. *)
Lemma parse_cargo_lock_versions_succeeds_iff_witness :
  exists text,
    fs sample_world !! CARGO_LOCK = Some (File text) /\
    forall lib, In lib LIBRARIES ->
      candidates_of (crate lib) text <> [] /\
      forall u, In u (candidates_of (crate lib) text) -> exists k, semver_key u = Ok k.
Proof.
  apply (proj1 (parse_cargo_lock_versions_succeeds_iff sample_world)).
  exact sample_parse_ok.
Defined.

(** ** What check_snapshot can return *)

(** X17. check_snapshot returns 0 or 1 and nothing else, and the only
    exceptions it raises are those of parse_snapshot_date, before anything
    is printed. *)
Theorem check_snapshot_outcomes (w : world) :
  match fst (parse_snapshot_date w) with
  | Ok _ => fst (check_snapshot w) = Ok 0 \/ fst (check_snapshot w) = Ok 1
  | Raise e => check_snapshot w = (Raise e, w)
  end.
Proof.
  destruct (fst (parse_snapshot_date w)) as [d|e] eqn:Hd.
  - destruct (missing_of w LIBRARIES) as [|x xs] eqn:Hm.
    + pose proof (check_snapshot_present w d Hd Hm) as H. cbv zeta in H. rewrite H.
      destruct (FAIL_DAYS <? _); [right; reflexivity|].
      destruct (WARNING_DAYS <? _); left; reflexivity.
    + rewrite (check_snapshot_missing w d x xs Hd Hm). right. reflexivity.
  - apply check_snapshot_raises, Hd.
Qed.

(** ** Releases and their pre-releases *)

Lemma split_once_at sep h t :
  str_all (fun c => negb (bool_decide (c = sep))) h = true ->
  split_once sep (h +:+ String sep t) = (h, Some t).
Proof.
  induction h as [|c h IH]; intros Hh.
  - simpl. rewrite bool_decide_eq_true_2 by reflexivity. reflexivity.
  - simpl in Hh. apply andb_prop in Hh as [Hc Hh]. apply negb_true_iff in Hc.
    rewrite str_app_cons. simpl. rewrite Hc, (IH Hh). reflexivity.
Qed.

Lemma release_no_hyphen version :
  is_release version = true ->
  str_all (fun c => negb (bool_decide (c = "-"%char))) version = true.
Proof.
  unfold is_release. destruct (split_once "-" version) as [main [suffix|]] eqn:Eh; [discriminate|].
  pose proof (split_once_none _ _ _ Eh) as ->.
  destruct (split_all "." version) as [|a [|b [|c [|d rest]]]] eqn:Es; try discriminate.
  intros H. apply andb_prop in H as [H Hc]. apply andb_prop in H as [Ha Hb].
  apply (split_all_chars _ "."); [reflexivity|]. rewrite Es.
  repeat constructor;
    (eapply str_all_impl; [|apply decimal_digits; eassumption]);
    intros x Hx; apply negb_true_iff, bool_decide_eq_false; intros ->; discriminate Hx.
Qed.

(** X18. semver_key orders a release below each of its pre-releases: for a
    release X.Y.Z and any non-empty tag, the key of X.Y.Z is below the key
    of X.Y.Z-tag, because the release carries the empty text in the last
    component of the key. *)
Theorem release_key_below_prerelease_key (version tag : string) :
  is_release version = true ->
  tag <> EmptyString ->
  exists a b c,
    semver_key version = Ok (a, b, c, EmptyString) /\
    semver_key (version +:+ "-" +:+ tag) = Ok (a, b, c, tag) /\
    key_ltb (a, b, c, EmptyString) (a, b, c, tag) = true.
Proof.
  intros Hrel Htag.
  destruct (release_key version Hrel) as (a & b & c & Hkey & _).
  exists a, b, c. split; [exact Hkey|]. split.
  - revert Hkey. unfold semver_key.
    change (version +:+ "-" +:+ tag) with (version +:+ String "-" tag).
    rewrite (split_once_at "-" version tag (release_no_hyphen _ Hrel)).
    destruct (split_once "-" version) as [main suffix] eqn:Eh.
    assert (Hmain : main = version /\ suffix = None).
    { rewrite (split_once_absent "-" version (release_no_hyphen _ Hrel)) in Eh.
      injection Eh as <- <-. auto. }
    destruct Hmain as [-> ->].
    destruct (ints_of (split_all "." version)) as [ns|e]; [|discriminate].
    destruct (subscript (pad3 ns) 0) as [x|e]; [|discriminate].
    destruct (subscript (pad3 ns) 1) as [y|e]; [|discriminate].
    destruct (subscript (pad3 ns) 2) as [z|e]; [|discriminate].
    intros [= -> -> ->]. reflexivity.
  - unfold key_ltb. rewrite !Z.eqb_refl. simpl.
    destruct tag as [|x tag]; [congruence | reflexivity].
Qed.

(** Witness for X18. *)
Lemma release_key_below_prerelease_key_witness :
  semver_key "1.0.0-alpha" = Ok (1, 0, 0, "alpha") /\
  key_ltb (1, 0, 0, EmptyString) (1, 0, 0, "alpha") = true.
Proof.
  destruct (release_key_below_prerelease_key "1.0.0" "alpha") as (a & b & c & H0 & H1 & H2).
  - reflexivity.
  - discriminate.
  - vm_compute in H0. injection H0 as <- <- <-. split; [exact H1 | exact H2].
Defined.
